(** * GPT-2 benchmark configuration (zero/common/gpt2.py)

    A shallow embedding of the configuration code of [gpt2.py]: the
    preset tables, the default hyper-parameters, [gpt2_builder],
    [build_data] and its [tokenize] closure, [build_model], the forward
    pass of [GPTLMLoss], [build_optimizer] and [build_scheduler].  The
    libraries the file calls (datasets, transformers, torch) are outside
    the repository: their calls are parameters of the embedding, or
    records of the arguments they are called with.

    Python dictionaries are mutable objects that are passed around by
    reference, and line 197 of the source stores the module-level
    dictionary [_default_hyperparameters] itself (not a copy) inside
    [CONFIG].  The embedding therefore keeps a store of dictionaries
    indexed by locations, and a configuration value is either a scalar
    or a reference into that store. *)

From Stdlib Require Import ZArith String List Lia.
From stdpp Require Import base option gmap strings list fin_maps.

Local Open Scope Z_scope.
Local Open Scope string_scope.

(** * Part I.  The embedding *)

(** ** Values, dictionaries, store *)

Definition loc := positive.

(** The values a configuration mapping holds: the scalars of a YAML/JSON
    document and references to dictionaries.  Floats are only carried
    around by the code under study, never computed with, so a float is
    kept as the decimal literal [mantissa * 10 ^ exponent]. *)
Inductive pyval : Type :=
  | VNone
  | VBool (b : bool)
  | VInt (n : Z)
  | VFloat (mantissa exponent : Z)
  | VStr (s : string)
  | VRef (l : loc).

Abbreviation dict := (gmap string pyval).
Abbreviation store := (gmap loc dict).

(** The exceptions the modelled code can raise. *)
Inductive pyerr : Type :=
  | KeyError (k : string)
  | TypeError
  | ZeroDivisionError
  | IndexError
  | AssertionError
  | ExternalError (what : string).

(** [CONFIG] is the dictionary imported from [common.utils] (line 7; the
    module is outside the sources at hand, and [CONFIG] is taken to be a
    plain [dict], which is how this file uses it).  [DEFAULTS] is where
    the dictionary [_default_hyperparameters], built at import time by
    lines 46-54, lives.  They are two distinct objects. *)
Definition CONFIG : loc := 1%positive.
Definition DEFAULTS : loc := 2%positive.

(** ** A state-and-exception monad

    A computation runs on a store and returns the store it leaves behind
    together with a value or the exception raised.  The store survives an
    exception: whatever was written before the [raise] stays written. *)

Definition M (A : Type) : Type := store -> store * (pyerr + A).

Definition ret {A} (a : A) : M A := fun s => (s, inr a).

Definition raise {A} (e : pyerr) : M A := fun s => (s, inl e).

Definition bind {A B} (m : M A) (f : A -> M B) : M B :=
  fun s =>
    match m s with
    | (s', inr a) => f a s'
    | (s', inl e) => (s', inl e)
    end.

Notation "x <- m ;; k" := (bind m (fun x => k))
  (at level 100, m at next level, right associativity).
Notation "m ;; k" := (bind m (fun _ => k))
  (at level 100, right associativity).

(** A computation that does not look at the store. *)
Definition lift {A} (r : pyerr + A) : M A := fun s => (s, r).

(** ** Python primitives on configuration values *)

(** [is_substring k t]: Python's [k in t] for two strings. *)
Definition is_substring (k t : string) : bool :=
  match String.index 0 k t with
  | Some _ => true
  | None => false
  end.

(** [o[k]].  Every reference that Python hands out is live; a location
    outside the store is given [TypeError] here and below only to keep
    the primitives total. *)
Definition getitem (o : pyval) (k : string) : M pyval :=
  fun s =>
    match o with
    | VRef l =>
        match s !! l with
        | Some d =>
            match d !! k with
            | Some v => (s, inr v)
            | None => (s, inl (KeyError k))
            end
        | None => (s, inl TypeError)
        end
    | _ => (s, inl TypeError)
    end.

(** [k in o]: key membership for a dictionary, substring test for a
    string, [TypeError] for the other scalars. *)
Definition contains (k : string) (o : pyval) : M bool :=
  fun s =>
    match o with
    | VRef l =>
        match s !! l with
        | Some d => (s, inr (bool_decide (is_Some (d !! k))))
        | None => (s, inl TypeError)
        end
    | VStr t => (s, inr (is_substring k t))
    | _ => (s, inl TypeError)
    end.

(** [o[k] = v] *)
Definition setitem (o : pyval) (k : string) (v : pyval) : M unit :=
  fun s =>
    match o with
    | VRef l =>
        match s !! l with
        | Some d => (<[l := <[k := v]> d]> s, inr tt)
        | None => (s, inl TypeError)
        end
    | _ => (s, inl TypeError)
    end.

(** [d.items()] for the dictionary at [l], as a list taken when the loop
    starts.  Python walks the dictionary itself, in insertion order, and
    raises if an iteration changes its size; here neither matters: the
    loop that uses it never writes to the dictionary it walks
    ([merge_absent_own_items]) and ends the same way for every order of
    the items ([merge_absent_Permutation]). *)
Definition dict_items (l : loc) : M (list (string * pyval)) :=
  fun s =>
    match s !! l with
    | Some d => (s, inr (map_to_list d))
    | None => (s, inl TypeError)
    end.

(** [os.environ[name]] *)
Definition environ_getitem (environ : gmap string string) (name : string)
  : M string :=
  match environ !! name with
  | Some v => ret v
  | None => raise (KeyError name)
  end.

(** ** The tables of lines 9-54 *)

Definition _gpt2_small : list (string * pyval) :=
  [ ("seq_length", VInt 1024);
    ("vocab_size", VInt 50257);
    ("hidden_size", VInt 768);
    ("num_heads", VInt 12);
    ("depth", VInt 12);
    ("checkpoint", VBool false);
    ("evaluation", VStr "ppl") ].

Definition _gpt2_xl : list (string * pyval) :=
  [ ("seq_length", VInt 1024);
    ("vocab_size", VInt 50257);
    ("hidden_size", VInt 1600);
    ("num_heads", VInt 25);
    ("depth", VInt 48);
    ("checkpoint", VBool true);
    ("evaluation", VStr "ppl") ].

Definition _gpt2_10b : list (string * pyval) :=
  [ ("seq_length", VInt 1024);
    ("vocab_size", VInt 50257);
    ("hidden_size", VInt 4096);
    ("num_heads", VInt 16);
    ("depth", VInt 50);
    ("checkpoint", VBool true);
    ("evaluation", VStr "ppl") ].

Definition _gpt2_configurations : list (string * list (string * pyval)) :=
  [ ("gpt2", _gpt2_small);
    ("gpt2_small", _gpt2_small);
    ("gpt2_xl", _gpt2_xl);
    ("gpt2_10b", _gpt2_10b) ].

(** The literal of lines 46-54; the dictionary built from it is the one
    at [DEFAULTS]. *)
Definition _default_hyperparameters : list (string * pyval) :=
  [ ("tokenize_mode", VStr "concat");
    ("batch_size", VInt 4);
    ("learning_rate", VFloat 15 (-5));
    ("weight_decay", VFloat 1 (-2));
    ("num_epochs", VInt 2);
    ("warmup_epochs", VInt 1);
    ("steps_per_epoch", VInt 100) ].

(** Lookup in a table written as a dictionary literal. *)
Fixpoint assoc {A} (k : string) (tbl : list (string * A)) : option A :=
  match tbl with
  | [] => None
  | (k', a) :: rest => if String.eqb k k' then Some a else assoc k rest
  end.

(** [model_type in _gpt2_configurations] followed by
    [_gpt2_configurations[model_type]]: the preset if [model_type] names
    one.  A dictionary cannot be hashed, so it raises; any other value
    that is not one of the four names is simply not a key. *)
Definition find_configuration (model_type : pyval)
  : M (option (list (string * pyval))) :=
  match model_type with
  | VRef _ => raise TypeError
  | VStr name => ret (assoc name _gpt2_configurations)
  | _ => ret None
  end.

(** ** [gpt2_builder] (lines 185-202) *)

(** The two loops of [gpt2_builder] have one shape,
    [for k, v in items: if k not in CONFIG[section]: CONFIG[section][k] = v],
    with [CONFIG[section]] evaluated anew at each use. *)
Fixpoint merge_absent (section : string) (items : list (string * pyval))
  : M unit :=
  match items with
  | [] => ret tt
  | (k, v) :: rest =>
      target <- getitem (VRef CONFIG) section ;;
      present <- contains k target ;;
      (if present then ret tt
       else
         target' <- getitem (VRef CONFIG) section ;;
         setitem target' k v) ;;
      merge_absent section rest
  end.

(** The five functions that line 202 returns, by name. *)
Inductive builder : Type :=
  | build_data_fn
  | build_model_fn
  | build_loss_fn
  | build_optimizer_fn
  | build_scheduler_fn.

(** Lines 186-190: the preset named by [CONFIG['model']['type']]. *)
Definition merge_preset : M unit :=
  model <- getitem (VRef CONFIG) "model" ;;
  model_type <- getitem model "type" ;;
  preset <- find_configuration model_type ;;
  match preset with
  | Some items => merge_absent "model" items
  | None => ret tt
  end.

(** Lines 192-197: the default hyper-parameters.  The [else] branch
    stores the module's own dictionary, not a copy of it. *)
Definition merge_hyperparameters : M unit :=
  has_hyper <- contains "hyperparameter" (VRef CONFIG) ;;
  if has_hyper then
    items <- dict_items DEFAULTS ;;
    merge_absent "hyperparameter" items
  else
    setitem (VRef CONFIG) "hyperparameter" (VRef DEFAULTS).

(** Lines 199-200: the two paths taken from the environment. *)
Definition read_environment (environ : gmap string string) : M unit :=
  data <- environ_getitem environ "DATA" ;;
  setitem (VRef CONFIG) "dataset" (VStr data) ;;
  tokenizer <- environ_getitem environ "TOKENIZER" ;;
  setitem (VRef CONFIG) "tokenizer" (VStr tokenizer).

Definition builders : list builder :=
  [build_data_fn; build_model_fn; build_loss_fn; build_optimizer_fn;
   build_scheduler_fn].

(** [gpt2_builder()], with [os.environ] as a parameter. *)
Definition gpt2_builder (environ : gmap string string) : M (list builder) :=
  merge_preset ;;
  merge_hyperparameters ;;
  read_environment environ ;;
  ret builders.

(** ** [build_scheduler] (lines 173-182) *)

(** [n * s] for a string: [s] repeated [n] times, the empty string when
    [n] is not positive. *)
Fixpoint str_repeat (n : nat) (s : string) : string :=
  match n with
  | O => ""
  | S n' => s ++ str_repeat n' s
  end.

(** [n * v] for an integer [n].  A [bool] counts as 0 or 1, a string is
    repeated, and a float is kept as the decimal product (which Python
    then rounds to a double); [None] and dictionaries raise. *)
Definition py_int_mul (n : Z) (v : pyval) : pyerr + pyval :=
  match v with
  | VInt m => inr (VInt (n * m))
  | VBool b => inr (VInt (n * Z.b2z b))
  | VFloat m e => inr (VFloat (n * m) e)
  | VStr t => inr (VStr (str_repeat (Z.to_nat n) t))
  | VNone | VRef _ => inl TypeError
  end.

(** The call [get_cosine_schedule_with_warmup(optimizer,
    num_warmup_steps=..., num_training_steps=...)]; the library function
    itself is outside the repository. *)
Record cosine_schedule_with_warmup (optimizer : Type) : Type :=
  { schedule_optimizer : optimizer;
    num_warmup_steps : pyval;
    num_training_steps : pyval }.
Arguments schedule_optimizer {optimizer} _.
Arguments num_warmup_steps {optimizer} _.
Arguments num_training_steps {optimizer} _.

(** [build_scheduler(epoch_steps, optimizer)]; the optimizer is passed
    on as it is, so its type is left open. *)
Definition build_scheduler {optimizer : Type} (epoch_steps : Z) (opt : optimizer)
  : M (cosine_schedule_with_warmup optimizer) :=
  hyper <- getitem (VRef CONFIG) "hyperparameter" ;;
  num_epochs <- getitem hyper "num_epochs" ;;
  max_steps <- lift (py_int_mul epoch_steps num_epochs) ;;
  hyper' <- getitem (VRef CONFIG) "hyperparameter" ;;
  warmup_epochs <- getitem hyper' "warmup_epochs" ;;
  warmup_steps <- lift (py_int_mul epoch_steps warmup_epochs) ;;
  ret {| schedule_optimizer := opt;
         num_warmup_steps := warmup_steps;
         num_training_steps := max_steps |}.

(** ** The [tokenize] closure of [build_data] (lines 73-94) *)

(** A batch handed to [tokenize] by [dataset.map(..., batched=True)]:
    column name to the values of that column. *)
Abbreviation batch := (gmap string (list string)).

(** What a tokenizer call returns and what [tokenize] returns: an ordered
    mapping from a column name ([input_ids], [attention_mask], ...) to one
    list of token ids per row. *)
Abbreviation encoding := (list (string * list (list Z))).

(** The tokenizer object built by [GPT2Tokenizer(...)]; the class is
    outside the repository.  [tok_encode texts] is the call
    [tokenizer(texts)], [tok_encode_padded examples max_length] the call of
    line 90, and [tok_len] is [len(tokenizer)]. *)
Record tokenizer : Type :=
  { tok_encode : list string -> encoding;
    tok_encode_padded : batch -> pyval -> pyerr + encoding;
    tok_len : Z }.

(** [range(0, stop, step)] for a non-zero [step]. *)
Definition range0 (stop step : Z) : list Z :=
  if (0 <? step)%Z then
    map (fun i => Z.of_nat i * step) (seq 0 (Z.to_nat ((stop + step - 1) / step)))
  else
    map (fun i => Z.of_nat i * step) (seq 0 (Z.to_nat ((stop + step + 1) / step))).

(** [t[i : i + n]] for [0 <= i] and [0 <= i + n]. *)
Definition slice {A} (t : list A) (i n : Z) : list A :=
  take (Z.to_nat (i + n) - Z.to_nat i) (drop (Z.to_nat i) t).

(** [seq_len] as the integer that lines 81-85 compute with.  A [bool] is
    an integer; a float gets through the comparison and the division (if
    it is not zero) and is then refused by [range]; anything else is
    refused by the comparison. *)
Definition seq_len_int (seq_len : pyval) : pyerr + Z :=
  match seq_len with
  | VInt n => inr n
  | VBool b => inr (Z.b2z b)
  | VFloat m _ => inl (if (m =? 0)%Z then ZeroDivisionError else TypeError)
  | _ => inl TypeError
  end.

(** [d[k] = v] on an ordered mapping: in place if [k] is there, at the end
    otherwise. *)
Fixpoint assoc_set {A} (k : string) (v : A) (d : list (string * A))
  : list (string * A) :=
  match d with
  | [] => [(k, v)]
  | (k', v') :: rest =>
      if String.eqb k k' then (k, v) :: rest else (k', v') :: assoc_set k v rest
  end.

(** Lines 81-82: the total length, cut down to a multiple of [seq_len]
    when it is at least [seq_len]. *)
Definition cut_length (seq_len total_length : Z) : Z :=
  if (seq_len <=? total_length)%Z then (total_length / seq_len) * seq_len
  else total_length.

(** Line 85: [[t[i:i + seq_len] for i in range(0, total_length, seq_len)]]. *)
Definition chunks (seq_len total_length : Z) (t : list Z) : list (list Z) :=
  map (fun i => slice t i seq_len) (range0 total_length seq_len).

(** Lines 79-87: concatenate every column, measure the first one, cut the
    length, and slice every column.  The division is by [seq_len], so a
    zero [seq_len] raises (the comparison of line 81 always holds then). *)
Definition concat_and_chunk (seq_len : pyval) (examples : encoding)
  : pyerr + encoding :=
  let concatenated_examples := map (fun '(k, rows) => (k, concat rows)) examples in
  match concatenated_examples with
  | [] => inl IndexError
  | (_, first) :: _ =>
      let total_length := Z.of_nat (length first) in
      match seq_len_int seq_len with
      | inl e => inl e
      | inr n =>
          if (n =? 0)%Z then inl ZeroDivisionError
          else
            let total_length := cut_length n total_length in
            inr (map (fun '(k, t) => (k, chunks n total_length t))
                     concatenated_examples)
      end
  end.

(** [tokenize(examples, mode)], for the tokenizer [tok] of the enclosing
    [build_data].  In ['pad'] mode the source first sets the padding
    token of the tokenizer (line 89); that is part of what
    [tok_encode_padded] stands for. *)
Definition tokenize (tok : tokenizer) (examples : batch) (mode : pyval)
  : M encoding :=
  (match mode with
   | VStr "concat" | VStr "pad" => ret tt
   | _ => raise AssertionError
   end) ;;
  model <- getitem (VRef CONFIG) "model" ;;
  seq_len <- getitem model "seq_length" ;;
  result <-
    match mode with
    | VStr "concat" =>
        match examples !! "text" with
        | None => raise (KeyError "text")
        | Some texts => lift (concat_and_chunk seq_len (tok_encode tok texts))
        end
    | _ => lift (tok_encode_padded tok examples seq_len)
    end ;;
  match assoc "input_ids" result with
  | None => raise (KeyError "input_ids")
  | Some input_ids => ret (assoc_set "labels" input_ids result)
  end.

(** ** [build_data] (lines 57-132) *)

(** A dataset as [dataset.map] walks it: the batches of each split. *)
Abbreviation dataset := (list (string * list batch)).

(** [DistributedSampler(split, shuffle=...)] *)
Inductive sampler : Type :=
  | DistributedSampler (shuffle : bool).

(** The arguments of a [DataLoader(...)] call that vary in the source. *)
Record data_loader : Type :=
  DataLoader
    { loader_dataset : list encoding;
      loader_shuffle : bool;
      loader_sampler : option sampler;
      loader_drop_last : bool;
      loader_batch_size : pyval }.

(** [v + suffix] for a string literal [suffix]. *)
Definition py_add_str (v : pyval) (suffix : string) : pyerr + pyval :=
  match v with
  | VStr t => inr (VStr (t ++ suffix))
  | _ => inl TypeError
  end.

(** [f] on every element in turn, up to the first that raises. *)
Fixpoint mapM {A B} (f : A -> M B) (l : list A) : M (list B) :=
  match l with
  | [] => ret []
  | a :: rest =>
      b <- f a ;;
      bs <- mapM f rest ;;
      ret (b :: bs)
  end.

Section BuildData.

(** The library calls of [build_data]: loading the dataset from a path,
    building the tokenizer from its two files, and asking for the number
    of training processes.  Each may raise. *)
Variable load_from_disk : pyval -> pyerr + dataset.
Variable GPT2Tokenizer : pyval -> pyval -> pyerr + tokenizer.
Variable get_world_size : pyerr + Z.

(** [dataset.map(partial(tokenize, mode=mode), batched=True, ...)]: every
    batch of every split goes through [tokenize].  The source spreads the
    batches over 16 processes; here they are taken one after the other. *)
Definition dataset_map (tok : tokenizer) (mode : pyval) (d : dataset)
  : M (list (string * list encoding)) :=
  mapM (fun '(split, batches) =>
          tokenized <- mapM (fun examples => tokenize tok examples mode) batches ;;
          ret (split, tokenized))
       d.

(** [tokenized_dataset[split]] *)
Definition split_getitem (d : list (string * list encoding)) (split : string)
  : M (list encoding) :=
  match assoc split d with
  | Some batches => ret batches
  | None => raise (KeyError split)
  end.

(** [build_data()].  The calls that configure the libraries (progress
    bar, worker seeds, collate function) have no part in what follows and
    are left out. *)
Definition build_data : M (data_loader * data_loader) :=
  path <- getitem (VRef CONFIG) "dataset" ;;
  dataset <- lift (load_from_disk path) ;;
  tokenizer_dir <- getitem (VRef CONFIG) "tokenizer" ;;
  vocab_file <- lift (py_add_str tokenizer_dir "/vocab.json") ;;
  tokenizer_dir' <- getitem (VRef CONFIG) "tokenizer" ;;
  merges_file <- lift (py_add_str tokenizer_dir' "/merges.txt") ;;
  tok <- lift (GPT2Tokenizer vocab_file merges_file) ;;
  hyper <- getitem (VRef CONFIG) "hyperparameter" ;;
  mode <- getitem hyper "tokenize_mode" ;;
  tokenized_dataset <- dataset_map tok mode dataset ;;
  (* line 103 *)
  model <- getitem (VRef CONFIG) "model" ;;
  setitem model "vocab_size" (VInt (tok_len tok)) ;;
  world_size <- lift get_world_size ;;
  let train_sampler :=
    if (1 <? world_size)%Z then Some (DistributedSampler true) else None in
  train <- split_getitem tokenized_dataset "train" ;;
  hyper1 <- getitem (VRef CONFIG) "hyperparameter" ;;
  train_batch_size <- getitem hyper1 "batch_size" ;;
  let train_data :=
    {| loader_dataset := train;
       loader_shuffle := match train_sampler with None => true | Some _ => false end;
       loader_sampler := train_sampler;
       loader_drop_last := true;
       loader_batch_size := train_batch_size |} in
  let test_sampler :=
    if (1 <? world_size)%Z then Some (DistributedSampler false) else None in
  validation <- split_getitem tokenized_dataset "validation" ;;
  hyper2 <- getitem (VRef CONFIG) "hyperparameter" ;;
  test_batch_size <- getitem hyper2 "batch_size" ;;
  let test_data :=
    {| loader_dataset := validation;
       loader_shuffle := false;
       loader_sampler := test_sampler;
       loader_drop_last := false;
       loader_batch_size := test_batch_size |} in
  ret (train_data, test_data).

End BuildData.

(** ** [build_model] (lines 135-146) *)

(** [not v]: [None], [False], zero, the empty string and the empty
    dictionary count as false, every other value as true. *)
Definition py_not (v : pyval) : M bool :=
  fun s =>
    match v with
    | VNone => (s, inr true)
    | VBool b => (s, inr (negb b))
    | VInt n => (s, inr (n =? 0)%Z)
    | VFloat m _ => (s, inr (m =? 0)%Z)
    | VStr t => (s, inr (String.eqb t ""))
    | VRef l =>
        match s !! l with
        | Some d => (s, inr (Nat.eqb (size d) 0))
        | None => (s, inl TypeError)
        end
    end.

(** [o.get(k, dflt)].  Only a dictionary has the method; the
    [AttributeError] of the other values is written as an
    [ExternalError]. *)
Definition dict_get (o : pyval) (k : string) (dflt : pyval) : M pyval :=
  fun s =>
    match o with
    | VRef l =>
        match s !! l with
        | Some d => (s, inr (default dflt (d !! k)))
        | None => (s, inl TypeError)
        end
    | _ => (s, inl (ExternalError "AttributeError"))
    end.

(** The call [GPT2Config(vocab_size=..., n_positions=..., n_embd=...,
    n_layer=..., n_head=..., use_cache=...)]; the class is outside the
    repository. *)
Record GPT2Config : Type :=
  { vocab_size : pyval;
    n_positions : pyval;
    n_embd : pyval;
    n_layer : pyval;
    n_head : pyval;
    use_cache : bool }.

Inductive model_class : Type :=
  | GPT2LMHeadModel.

(** The call [ModelFromHF(gpt2_cfg, GPT2LMHeadModel)] of line 144;
    [ModelFromHF] comes from [common.utils]. *)
Inductive hf_model : Type :=
  | ModelFromHF (config : GPT2Config) (cls : model_class).

(** [build_model()].  The keyword arguments are evaluated from left to
    right, and [CONFIG['model']] is evaluated again for [use_cache]. *)
Definition build_model : M hf_model :=
  model_cfg <- getitem (VRef CONFIG) "model" ;;
  vocab <- getitem model_cfg "vocab_size" ;;
  positions <- getitem model_cfg "seq_length" ;;
  embd <- getitem model_cfg "hidden_size" ;;
  layer <- getitem model_cfg "depth" ;;
  head <- getitem model_cfg "num_heads" ;;
  model_cfg' <- getitem (VRef CONFIG) "model" ;;
  checkpoint <- dict_get model_cfg' "checkpoint" (VBool false) ;;
  no_checkpoint <- py_not checkpoint ;;
  ret (ModelFromHF {| vocab_size := vocab;
                      n_positions := positions;
                      n_embd := embd;
                      n_layer := layer;
                      n_head := head;
                      use_cache := no_checkpoint |}
                   GPT2LMHeadModel).

(** ** [GPTLMLoss] and [build_loss] (lines 149-163) *)

(** The call [self.loss(input, target)] of line 159, a
    [torch.nn.CrossEntropyLoss]: one row of scores and one target token
    per scored position.  The scores are floating-point vectors; their
    type [logit] is left open. *)
Record cross_entropy_call (logit : Type) : Type :=
  { ce_input : list logit;
    ce_target : list Z }.
Arguments ce_input {logit} _.
Arguments ce_target {logit} _.

(** [GPTLMLoss.forward(logits, labels)] for [logits] of shape batch x
    positions x vocabulary and [labels] of shape batch x positions:
    [logits[..., :-1, :]] drops the last position of every sequence,
    [labels[..., 1:]] the first label, and the two [view]s lay the
    sequences end to end. *)
Definition GPTLMLoss_forward {logit : Type}
    (logits : list (list logit)) (labels : list (list Z))
  : cross_entropy_call logit :=
  let shift_logits := map (fun row => take (length row - 1) row) logits in
  let shift_labels := map (drop 1) labels in
  {| ce_input := concat shift_logits;
     ce_target := concat shift_labels |}.

(** ** [build_optimizer] (lines 166-170) *)

(** The call [torch.optim.Adam(params, lr=..., weight_decay=...)]. *)
Record Adam (params : Type) : Type :=
  { adam_params : params;
    adam_lr : pyval;
    adam_weight_decay : pyval }.
Arguments adam_params {params} _.
Arguments adam_lr {params} _.
Arguments adam_weight_decay {params} _.

(** [build_optimizer(params)]; the parameters are passed on as they
    are. *)
Definition build_optimizer {params : Type} (p : params) : M (Adam params) :=
  hyper <- getitem (VRef CONFIG) "hyperparameter" ;;
  learning_rate <- getitem hyper "learning_rate" ;;
  hyper' <- getitem (VRef CONFIG) "hyperparameter" ;;
  weight_decay <- getitem hyper' "weight_decay" ;;
  ret {| adam_params := p;
         adam_lr := learning_rate;
         adam_weight_decay := weight_decay |}.

(** * Part II.  The vocabulary of the statements *)

(** [entry s l k]: the value under key [k] of the dictionary at [l], if
    there is such a dictionary and it has the key. *)
Definition entry (s : store) (l : loc) (k : string) : option pyval :=
  match s !! l with
  | Some d => d !! k
  | None => None
  end.

(** [CONFIG[section][k]], read without running anything. *)
Definition section_entry (s : store) (section k : string) : option pyval :=
  match entry s CONFIG section with
  | Some (VRef l) => entry s l k
  | _ => None
  end.

(** [has_key s o k]: the test [k in o] succeeds and answers [True]. *)
Definition has_key (s : store) (o : pyval) (k : string) : Prop :=
  match o with
  | VRef l => is_Some (entry s l k)
  | VStr t => is_substring k t = true
  | _ => False
  end.

(** ** How a run may change the store

    [gpt2_builder] assigns unconditionally at two places only, the keys
    ['dataset'] and ['tokenizer'] of [CONFIG] itself. *)
Definition env_entry (l : loc) (k : string) : Prop :=
  l = CONFIG /\ (k = "dataset" \/ k = "tokenizer").

(** [evolves s s']: every dictionary of [s] is still there in [s'], and
    every entry of [s] is still there with its value, the two entries
    above excepted, which are still there but may have a new value. *)
Definition evolves (s s' : store) : Prop :=
  (forall l, is_Some (s !! l) -> is_Some (s' !! l)) /\
  (forall l k v, entry s l k = Some v ->
     entry s' l k = Some v \/ (env_entry l k /\ is_Some (entry s' l k))).

(** ** Two properties of computations, and how they compose

    [evolving m]: a run of [m] changes the store only as [evolves]
    allows.  [stable m]: running [m] again, on the store it left or (when
    it completed) on any store that evolved from it, changes nothing and
    ends the same way. *)
Definition evolving {A} (m : M A) : Prop :=
  forall s s' r, m s = (s', r) -> evolves s s'.

Definition stable {A} (m : M A) : Prop :=
  forall s s1 s2 r,
    m s = (s1, r) -> evolves s1 s2 -> (exists a, r = inr a) \/ s2 = s1 ->
    m s2 = (s2, r).

(** [readonly m]: a run of [m] leaves the store as it found it. *)
Definition readonly {A} (m : M A) : Prop :=
  forall s s' r, m s = (s', r) -> s' = s.

(** How the loop ends when [CONFIG[section]] is not a dictionary. *)
Definition blocked_outcome (s : store) (section : string)
    (items : list (string * pyval)) : pyerr + unit :=
  match items with
  | [] => inr tt
  | _ :: _ =>
      match s !! CONFIG with
      | None => inl TypeError
      | Some c =>
          match c !! section with
          | None => inl (KeyError section)
          | Some (VStr t) =>
              if forallb (fun kv => is_substring kv.1 t) items then inr tt
              else inl TypeError
          | Some _ => inl TypeError
          end
      end
  end.

(** The items the preset loop runs over, for a hashable [model_type]. *)
Definition preset_of (model_type : pyval) : list (string * pyval) :=
  match model_type with
  | VStr name => default [] (assoc name _gpt2_configurations)
  | _ => []
  end.

(** The keys of every preset, the four names of
    [_gpt2_configurations], and the keys of [_default_hyperparameters],
    in the order of the source. *)
Definition preset_keys : list string :=
  ["seq_length"; "vocab_size"; "hidden_size"; "num_heads"; "depth";
   "checkpoint"; "evaluation"].

Definition known_model_types : list string :=
  ["gpt2"; "gpt2_small"; "gpt2_xl"; "gpt2_10b"].

Definition default_keys : list string :=
  ["tokenize_mode"; "batch_size"; "learning_rate"; "weight_decay";
   "num_epochs"; "warmup_epochs"; "steps_per_epoch"].

(** ** Plain configurations

    The configurations on which the two merges run through:
    [CONFIG['model']['type']] can be read and is not a dictionary,
    [CONFIG['hyperparameter']] is absent or is a dictionary, and the
    module's [_default_hyperparameters] is as lines 46-54 built it. *)
Definition plain_config (s : store) : Prop :=
  (exists lm t,
     entry s CONFIG "model" = Some (VRef lm) /\ entry s lm "type" = Some t /\
     forall l, t <> VRef l) /\
  s !! DEFAULTS = Some (list_to_map _default_hyperparameters) /\
  (entry s CONFIG "hyperparameter" = None \/
   exists lh, entry s CONFIG "hyperparameter" = Some (VRef lh) /\
              is_Some (s !! lh)).

(** ** What the builders read

    [configured s t k]: the value [gpt2_builder] arrives at for
    [CONFIG['model'][k]] when the model type is [t]: the one the
    configuration had, and the preset's when it had none. *)
Definition configured (s : store) (t : pyval) (k : string) : option pyval :=
  match section_entry s "model" k with
  | Some v => Some v
  | None => assoc k (preset_of t)
  end.

(** The keys [build_model] reads with [model_cfg[...]], in the order in
    which line 137 evaluates its arguments. *)
Definition model_keys : list string :=
  ["vocab_size"; "seq_length"; "hidden_size"; "depth"; "num_heads"].

(** [tokenizes tok mode s batches tokenized]: on the store [s], [tokenize]
    returns for each of the [batches] in turn, and [tokenized] lists what
    it returns. *)
Definition tokenizes (tok : tokenizer) (mode : pyval) (s : store)
    (batches : list batch) (tokenized : list encoding) : Prop :=
  Forall2 (fun examples result => tokenize tok examples mode s = (s, inr result))
          batches tokenized.

(** * Part III.  Inputs for the examples *)

(** The store right after the module is imported: [CONFIG] holds [cfg]
    and [_default_hyperparameters] holds its literal; [others] are the
    dictionaries [cfg] refers to. *)
Definition initial_store (cfg : dict) (others : store) : store :=
  <[CONFIG := cfg]> (<[DEFAULTS := list_to_map _default_hyperparameters]> others).

Definition example_environ : gmap string string :=
  {[ "DATA" := "/data/wiki"; "TOKENIZER" := "/data/tokenizer" ]}.

(** A model section that names the gpt2_xl preset and sets its own depth,
    no hyper-parameter section, and a dataset path left over from an
    earlier run. *)
Definition example_store : store :=
  initial_store
    {[ "model" := VRef 3%positive; "dataset" := VStr "/old/data" ]}
    {[ 3%positive := {[ "type" := VStr "gpt2_xl"; "depth" := VInt 7 ]} ]}.

(** A model type that names no preset. *)
Definition unknown_type_store : store :=
  initial_store
    {[ "model" := VRef 3%positive ]}
    {[ 3%positive := {[ "type" := VStr "gpt3"; "depth" := VInt 7 ]} ]}.

Definition environ_without_tokenizer : gmap string string :=
  {[ "DATA" := "/data/wiki" ]}.

(** A stand-in tokenizer for the examples: one token per character (its
    code), and an attention mask of ones; like the real one, it gives no
    token for an empty text. *)
Definition char_codes (text : string) : list Z :=
  map (fun c => Z.of_nat (Ascii.nat_of_ascii c)) (list_ascii_of_string text).

Definition char_tokenizer : tokenizer :=
  {| tok_encode texts :=
       [ ("input_ids", map char_codes texts);
         ("attention_mask", map (fun t => map (fun _ => 1) (char_codes t)) texts) ];
     tok_encode_padded _ _ := inl (ExternalError "no padding token");
     tok_len := 256 |}.

(** A sequence length small enough to see the chunks. *)
Definition seq4_store : store :=
  initial_store
    {[ "model" := VRef 3%positive ]}
    {[ 3%positive := {[ "type" := VStr "gpt2"; "seq_length" := VInt 4 ]} ]}.

Definition three_texts : list string := ["abc"; "defgh"; "ij"].

(** Stand-ins for the library calls, for the example: a dataset of two
    splits with one batch each, the character tokenizer, one process. *)
Definition example_load_from_disk (path : pyval) : pyerr + dataset :=
  inr [ ("train", [ {[ "text" := three_texts ]} ]);
        ("validation", [ {[ "text" := ["abcd"] ]} ]) ].

Definition example_GPT2Tokenizer (vocab_file merges_file : pyval)
  : pyerr + tokenizer :=
  inr char_tokenizer.

Definition example_build_data : M (data_loader * data_loader) :=
  build_data example_load_from_disk example_GPT2Tokenizer (inr 1).

(** * Part IV.  Lemmas *)

(** ** Runs of the monad *)

Lemma bind_inv {A B} (m : M A) (f : A -> M B) s s' r :
  bind m f s = (s', r) ->
  (exists e, m s = (s', inl e) /\ r = inl e) \/
  (exists a s1, m s = (s1, inr a) /\ f a s1 = (s', r)).
Proof.
  unfold bind. destruct (m s) as [s1 [e|a]]; intros H.
  - left. inversion H; subst. eauto.
  - right. eauto.
Qed.

Lemma bind_ok {A B} (m : M A) (f : A -> M B) s s1 a :
  m s = (s1, inr a) -> bind m f s = f a s1.
Proof. unfold bind. intros ->. reflexivity. Qed.

Lemma bind_err {A B} (m : M A) (f : A -> M B) s s1 e :
  m s = (s1, inl e) -> bind m f s = (s1, inl e).
Proof. unfold bind. intros ->. reflexivity. Qed.

Lemma getitem_entry s l k v :
  entry s l k = Some v -> getitem (VRef l) k s = (s, inr v).
Proof.
  unfold getitem, entry. destruct (s !! l) as [d|]; [|discriminate].
  by intros ->.
Qed.

Lemma entry_Some s l k v :
  entry s l k = Some v <-> exists d, s !! l = Some d /\ d !! k = Some v.
Proof.
  unfold entry. destruct (s !! l) as [d|]; split.
  - eauto.
  - intros (d' & Hd & Hk). congruence.
  - discriminate.
  - intros (d' & Hd & _). discriminate.
Qed.

(** ** One iteration of the loop *)

(** One iteration of the loop: the key is there and nothing happens, or
    the target is a dictionary without the key and the entry is written,
    or the iteration raises and the store is left as it was. *)
Lemma merge_absent_cons section k v rest s :
  (exists o, entry s CONFIG section = Some o /\ has_key s o k /\
     merge_absent section ((k, v) :: rest) s = merge_absent section rest s) \/
  (exists l d, entry s CONFIG section = Some (VRef l) /\ s !! l = Some d /\
     d !! k = None /\
     merge_absent section ((k, v) :: rest) s
     = merge_absent section rest (<[l := <[k := v]> d]> s)) \/
  (exists e, merge_absent section ((k, v) :: rest) s = (s, inl e)).
Proof.
  cbn [merge_absent]. unfold bind, getitem, contains, setitem, ret, has_key, entry.
  destruct (s !! CONFIG) as [c|] eqn:Hc; [|right; right; eauto].
  destruct (c !! section) as [o|] eqn:Ho; [|right; right; eauto].
  destruct o as [| | | | t|l]; try (right; right; eauto; fail).
  - destruct (is_substring k t) eqn:Hsub.
    + left. exists (VStr t). auto.
    + right; right. rewrite Hc, Ho. eauto.
  - destruct (s !! l) as [d|] eqn:Hd; [|right; right; eauto].
    destruct (d !! k) as [x|] eqn:Hk.
    + left. exists (VRef l). rewrite Hd, Hk.
      rewrite bool_decide_eq_true_2 by eauto. eauto.
    + right; left. exists l, d.
      rewrite bool_decide_eq_false_2 by (intros [? ?]; discriminate).
      rewrite Hc, Ho, Hd. auto.
Qed.

(** ** The relation [evolves] *)

Lemma evolves_refl s : evolves s s.
Proof. split; auto. Qed.

Lemma evolves_trans s1 s2 s3 : evolves s1 s2 -> evolves s2 s3 -> evolves s1 s3.
Proof.
  intros [A1 E1] [A2 E2]. split; [auto|].
  intros l k v H. destruct (E1 _ _ _ H) as [H2|[He [v2 H2]]].
  - auto.
  - right. split; [exact He|]. destruct (E2 _ _ _ H2) as [H3|[_ H3]]; eauto.
Qed.

Lemma evolves_keeps s s' l k v :
  evolves s s' -> ~ env_entry l k -> entry s l k = Some v -> entry s' l k = Some v.
Proof. intros [_ E] Hne H. destruct (E _ _ _ H) as [?|[? _]]; tauto. Qed.

Lemma evolves_is_Some s s' l k :
  evolves s s' -> is_Some (entry s l k) -> is_Some (entry s' l k).
Proof. intros [_ E] [v H]. destruct (E _ _ _ H) as [?|[_ ?]]; eauto. Qed.

Lemma entry_insert s l d l' k' :
  entry (<[l := d]> s) l' k' = if decide (l = l') then d !! k' else entry s l' k'.
Proof.
  unfold entry. destruct (decide (l = l')) as [->|Hne].
  - by rewrite lookup_insert_eq.
  - by rewrite lookup_insert_ne.
Qed.

(** Writing an entry that was not there. *)
Lemma evolves_fresh s l d k v :
  s !! l = Some d -> d !! k = None -> evolves s (<[l := <[k := v]> d]> s).
Proof.
  intros Hd Hk. split.
  - intros l' Hl'. destruct (decide (l = l')) as [->|Hne].
    + rewrite lookup_insert_eq. eauto.
    + by rewrite lookup_insert_ne.
  - intros l' k' v' H. left. rewrite entry_insert.
    destruct (decide (l = l')) as [->|Hne]; [|exact H].
    unfold entry in H. rewrite Hd in H.
    destruct (decide (k = k')) as [->|Hk']; [congruence|].
    by rewrite lookup_insert_ne.
Qed.

(** Overwriting one of the two environment entries. *)
Lemma evolves_env s c k v :
  s !! CONFIG = Some c -> k = "dataset" \/ k = "tokenizer" ->
  evolves s (<[CONFIG := <[k := v]> c]> s).
Proof.
  intros Hc Hk. split.
  - intros l' Hl'. destruct (decide (CONFIG = l')) as [<-|Hne].
    + rewrite lookup_insert_eq. eauto.
    + by rewrite lookup_insert_ne.
  - intros l' k' v' H. rewrite entry_insert.
    destruct (decide (CONFIG = l')) as [<-|Hne]; [|left; exact H].
    unfold entry in H. rewrite Hc in H.
    destruct (decide (k = k')) as [<-|Hk'].
    + right. rewrite lookup_insert_eq. split; [split; auto | eauto].
    + left. by rewrite lookup_insert_ne.
Qed.

Lemma has_key_evolves s s' o k : evolves s s' -> has_key s o k -> has_key s' o k.
Proof.
  intros He. destruct o; simpl; auto. apply evolves_is_Some, He.
Qed.

Lemma merge_absent_evolves section items :
  forall s s' r, merge_absent section items s = (s', r) -> evolves s s'.
Proof.
  induction items as [|[k v] rest IH]; intros s s' r H.
  - inversion H; subst. apply evolves_refl.
  - destruct (merge_absent_cons section k v rest s)
      as [(o & _ & _ & E)|[(l & d & _ & Hd & Hk & E)|(e & E)]];
      rewrite E in H.
    + eauto.
    + eapply evolves_trans; [apply (evolves_fresh _ _ _ _ v Hd Hk) | eauto].
    + inversion H; subst. apply evolves_refl.
Qed.

(** An iteration whose key is already there does nothing. *)
Lemma merge_absent_present section k v rest s o :
  entry s CONFIG section = Some o -> has_key s o k ->
  merge_absent section ((k, v) :: rest) s = merge_absent section rest s.
Proof.
  intros Ho Hk. cbn [merge_absent].
  rewrite (bind_ok _ _ _ _ _ (getitem_entry _ _ _ _ Ho)).
  unfold bind, contains, ret. destruct o; try contradiction; simpl in Hk.
  - by rewrite Hk.
  - unfold entry in Hk. destruct (s !! l) as [d|]; [|by destruct Hk].
    by rewrite bool_decide_eq_true_2.
Qed.

(** ** [evolving] and [stable] computations *)

Lemma evolving_bind {A B} (m : M A) (f : A -> M B) :
  evolving m -> (forall a, evolving (f a)) -> evolving (bind m f).
Proof.
  intros Hm Hf s s' r H.
  apply bind_inv in H as [(e & H & _)|(a & s1 & H1 & H2)].
  - eapply Hm, H.
  - eapply evolves_trans; [eapply Hm, H1 | eapply Hf, H2].
Qed.

Lemma stable_bind {A B} (m : M A) (f : A -> M B) :
  evolving m -> stable m ->
  (forall a, evolving (f a)) -> (forall a, stable (f a)) ->
  stable (bind m f).
Proof.
  intros Em Sm Ef Sf s s1 s2 r H He Hr.
  apply bind_inv in H as [(e & H & ->)|(a & sa & H1 & H2)].
  - destruct Hr as [[a Ha] | ->]; [discriminate|].
    apply bind_err. eapply Sm; [exact H | apply evolves_refl | by right].
  - assert (m s2 = (s2, inr a)) as H1'.
    { eapply Sm; [exact H1 | | eauto].
      eapply evolves_trans; [eapply Ef, H2 | exact He]. }
    rewrite (bind_ok _ _ _ _ _ H1'). eapply Sf; eauto.
Qed.

Lemma evolving_ret {A} (a : A) : evolving (ret a).
Proof. intros s s' r H. inversion H; subst. apply evolves_refl. Qed.

Lemma stable_ret {A} (a : A) : stable (ret a).
Proof. intros s s1 s2 r H _ _. inversion H; subst. reflexivity. Qed.

Lemma evolving_raise {A} e : evolving (@raise A e).
Proof. intros s s' r H. inversion H; subst. apply evolves_refl. Qed.

Lemma stable_raise {A} e : stable (@raise A e).
Proof. intros s s1 s2 r H _ _. inversion H; subst. reflexivity. Qed.

Lemma getitem_state o k s s' r : getitem o k s = (s', r) -> s' = s.
Proof.
  unfold getitem. intros H.
  destruct o; try (by inversion H).
  destruct (s !! l) as [d|]; [destruct (d !! k)|]; by inversion H.
Qed.

Lemma getitem_ok_inv o k s s' v :
  getitem o k s = (s', inr v) -> exists l, o = VRef l /\ entry s l k = Some v.
Proof.
  unfold getitem, entry. intros H.
  destruct o; try discriminate. exists l. split; [reflexivity|].
  destruct (s !! l) as [d|]; [|discriminate].
  destruct (d !! k); [|discriminate]. by inversion H.
Qed.

Lemma evolving_getitem o k : evolving (getitem o k).
Proof.
  intros s s' r H. apply getitem_state in H as ->. apply evolves_refl.
Qed.

(** Reading an entry again gives the same value, as long as it is not
    one of the two entries that are overwritten. *)
Lemma stable_getitem o k :
  (forall l, o = VRef l -> ~ env_entry l k) -> stable (getitem o k).
Proof.
  intros Hne s s1 s2 r H He Hr.
  pose proof (getitem_state _ _ _ _ _ H) as ->.
  destruct Hr as [[v ->] | ->]; [|exact H].
  apply getitem_ok_inv in H as (l & -> & Hl).
  apply getitem_entry. eapply evolves_keeps; eauto.
Qed.

Lemma evolving_find_configuration t : evolving (find_configuration t).
Proof. destruct t; first [apply evolving_ret | apply evolving_raise]. Qed.

Lemma stable_find_configuration t : stable (find_configuration t).
Proof. destruct t; first [apply stable_ret | apply stable_raise]. Qed.

Lemma evolving_merge_absent section items : evolving (merge_absent section items).
Proof. intros s s' r. apply merge_absent_evolves. Qed.

Lemma stable_merge_absent section items :
  ~ env_entry CONFIG section -> stable (merge_absent section items).
Proof.
  intros Hsec. induction items as [|[k v] rest IH]; intros s s1 s2 r H He Hr.
  - inversion H; subst. reflexivity.
  - destruct (merge_absent_cons section k v rest s)
      as [(o & Ho & Hk & E)|[(l & d & Ho & Hd & Hk & E)|(e & E)]];
      rewrite E in H.
    + pose proof (merge_absent_evolves _ _ _ _ _ H) as He1.
      pose proof (evolves_trans _ _ _ He1 He) as He2.
      rewrite (merge_absent_present section k v rest s2 o).
      * eauto.
      * eapply evolves_keeps; eauto.
      * eapply has_key_evolves; eauto.
    + pose proof (evolves_fresh _ _ _ _ v Hd Hk) as He0.
      pose proof (merge_absent_evolves _ _ _ _ _ H) as He1.
      pose proof (evolves_trans _ _ _ He0 (evolves_trans _ _ _ He1 He)) as He2.
      rewrite (merge_absent_present section k v rest s2 (VRef l)).
      * eauto.
      * eapply evolves_keeps; eauto.
      * simpl. eapply evolves_is_Some; [exact (evolves_trans _ _ _ He1 He)|].
        rewrite entry_insert, decide_True by reflexivity.
        rewrite lookup_insert_eq. eauto.
    + inversion H; subst. destruct Hr as [[? ?] | ->]; [discriminate | exact E].
Qed.

Lemma not_env_model : ~ env_entry CONFIG "model".
Proof. intros [_ [?|?]]; discriminate. Qed.

Lemma not_env_hyperparameter : ~ env_entry CONFIG "hyperparameter".
Proof. intros [_ [?|?]]; discriminate. Qed.

Lemma not_env_type l : ~ env_entry l "type".
Proof. intros [_ [?|?]]; discriminate. Qed.

(** The goals [evolving m] for a computation [m] put together from the
    primitives with [bind] and [match] are routine. *)
Create HintDb runs.

#[local] Hint Resolve evolving_ret evolving_raise evolving_getitem
  evolving_find_configuration evolving_merge_absent : runs.

Ltac solve_evolving :=
  repeat first
    [ solve [auto with runs]
    | apply evolving_bind; [|intros ?]
    | match goal with
      | |- evolving (match ?x with _ => _ end) => destruct x
      end ].

Lemma evolving_merge_preset : evolving merge_preset.
Proof. unfold merge_preset. solve_evolving. Qed.

Lemma stable_merge_preset : stable merge_preset.
Proof.
  unfold merge_preset.
  apply stable_bind; [solve_evolving | | intros model; solve_evolving | intros model].
  { apply stable_getitem. intros l [= <-]. apply not_env_model. }
  apply stable_bind; [solve_evolving | | intros t; solve_evolving | intros t].
  { apply stable_getitem. intros l _. apply not_env_type. }
  apply stable_bind;
    [solve_evolving | apply stable_find_configuration
    | intros [items|]; solve_evolving | intros [items|]].
  - apply stable_merge_absent, not_env_model.
  - apply stable_ret.
Qed.

(** ** The loop in closed form

    When [CONFIG[section]] is a dictionary, the loop always completes and
    the dictionary becomes its union with the items, the dictionary's own
    entries taking precedence. *)

Lemma merge_absent_write section k v rest s l d :
  entry s CONFIG section = Some (VRef l) -> s !! l = Some d -> d !! k = None ->
  merge_absent section ((k, v) :: rest) s
  = merge_absent section rest (<[l := <[k := v]> d]> s).
Proof.
  intros Ho Hd Hk. cbn [merge_absent].
  rewrite (bind_ok _ _ _ _ _ (getitem_entry _ _ _ _ Ho)).
  unfold bind at 1. unfold contains. rewrite Hd.
  rewrite bool_decide_eq_false_2 by (rewrite Hk; intros [? ?]; discriminate).
  unfold bind at 1.
  rewrite (bind_ok _ _ _ _ _ (getitem_entry _ _ _ _ Ho)).
  unfold setitem. by rewrite Hd.
Qed.

Lemma union_insert_present (d m : dict) k v :
  is_Some (d !! k) -> d ∪ <[k := v]> m = d ∪ m.
Proof.
  intros [x Hx]. apply map_eq. intros i. rewrite !lookup_union.
  destruct (decide (i = k)) as [->|Hne].
  - rewrite Hx. by destruct (m !! k), (<[k:=v]> m !! k).
  - by rewrite lookup_insert_ne.
Qed.

Lemma union_insert_absent (d m : dict) k v :
  d !! k = None -> <[k := v]> d ∪ m = d ∪ <[k := v]> m.
Proof.
  intros Hk. apply map_eq. intros i. rewrite !lookup_union.
  destruct (decide (i = k)) as [->|Hne].
  - rewrite Hk, !lookup_insert_eq. by destruct (m !! k).
  - by rewrite !lookup_insert_ne.
Qed.

Lemma merge_absent_dict section items :
  forall s l d,
    entry s CONFIG section = Some (VRef l) -> s !! l = Some d ->
    merge_absent section items s
    = (<[l := d ∪ list_to_map items]> s, inr tt).
Proof.
  induction items as [|[k v] rest IH]; intros s l d Ho Hd.
  - cbn. rewrite (right_id_L ∅ (∪)). by rewrite insert_id.
  - cbn [list_to_map foldr uncurry]. destruct (d !! k) as [x|] eqn:Hk.
    + rewrite (merge_absent_present section k v rest s (VRef l) Ho).
      * rewrite (IH s l d Ho Hd).
        by rewrite union_insert_present by eauto.
      * simpl. unfold entry. rewrite Hd, Hk. eauto.
    + rewrite (merge_absent_write section k v rest s l d Ho Hd Hk).
      rewrite (IH _ l (<[k := v]> d)).
      * by rewrite insert_insert_eq, union_insert_absent.
      * rewrite entry_insert. destruct (decide (l = CONFIG)) as [->|Hne].
        -- unfold entry in Ho. rewrite Hd in Ho.
           rewrite lookup_insert_ne; [exact Ho | congruence].
        -- exact Ho.
      * by rewrite lookup_insert_eq.
Qed.

(** When [CONFIG[section]] is not a dictionary, no iteration writes. *)
Lemma merge_absent_other section items :
  forall s s' r,
    (forall l, entry s CONFIG section = Some (VRef l) -> s !! l = None) ->
    merge_absent section items s = (s', r) -> s' = s.
Proof.
  induction items as [|[k v] rest IH]; intros s s' r Hno H.
  - by inversion H.
  - destruct (merge_absent_cons section k v rest s)
      as [(o & _ & _ & E)|[(l & d & Ho & Hd & _ & E)|(e & E)]];
      rewrite E in H.
    + eauto.
    + rewrite (Hno l Ho) in Hd. discriminate.
    + by inversion H.
Qed.

(** The loop over the items of a dictionary never writes to that
    dictionary, whatever [CONFIG[section]] is. *)
Lemma merge_absent_own_items section s s' r l (d : dict) :
  s !! l = Some d ->
  merge_absent section (map_to_list d) s = (s', r) ->
  s' !! l = Some d.
Proof.
  intros Hd H.
  destruct (entry s CONFIG section) as [o|] eqn:Ho.
  2:{ apply merge_absent_other in H as ->; [exact Hd | intros; congruence]. }
  destruct o as [| | | | |l'];
    try (apply merge_absent_other in H as ->; [exact Hd | intros; congruence]).
  destruct (s !! l') as [d'|] eqn:Hd'.
  2:{ apply merge_absent_other in H as ->; [exact Hd |].
      intros l0 Hl0. rewrite Ho in Hl0. by inversion Hl0; subst. }
  rewrite (merge_absent_dict _ _ _ _ _ Ho Hd') in H. inversion H; subst.
  rewrite list_to_map_to_list.
  destruct (decide (l' = l)) as [->|Hne].
  - rewrite lookup_insert_eq. f_equal.
    assert (d' = d) as -> by congruence. apply (idemp_L (∪)).
  - by rewrite lookup_insert_ne.
Qed.

(** ** The three phases of [gpt2_builder], and a second run *)

Lemma contains_state k o s s' r : contains k o s = (s', r) -> s' = s.
Proof.
  unfold contains. intros H.
  destruct o; try (by inversion H).
  destruct (s !! l); by inversion H.
Qed.

Lemma contains_dict_inv k l s s' b :
  contains k (VRef l) s = (s', inr b) ->
  s' = s /\ exists d, s !! l = Some d /\ b = bool_decide (is_Some (d !! k)).
Proof.
  unfold contains. destruct (s !! l) as [d|]; [|discriminate].
  intros H. inversion H; subst. eauto.
Qed.

Lemma contains_true k l s :
  is_Some (entry s l k) -> contains k (VRef l) s = (s, inr true).
Proof.
  unfold contains, entry. destruct (s !! l) as [d|]; [|by intros [? ?]].
  intros H. by rewrite bool_decide_eq_true_2.
Qed.

Lemma dict_items_inv l s s' r :
  dict_items l s = (s', r) ->
  s' = s /\
  match r with
  | inr items => exists d, s !! l = Some d /\ items = map_to_list d
  | inl _ => s !! l = None
  end.
Proof.
  unfold dict_items. destruct (s !! l) as [d|]; intros H; inversion H; subst; eauto.
Qed.

Lemma evolving_merge_hyperparameters : evolving merge_hyperparameters.
Proof.
  intros s s' r H. unfold merge_hyperparameters in H.
  apply bind_inv in H as [(e & H & _)|(b & s1 & H1 & H2)].
  - apply contains_state in H as ->. apply evolves_refl.
  - apply contains_dict_inv in H1 as (-> & c & Hc & ->).
    case_bool_decide as Hh.
    + eapply evolving_bind; [| intros items; apply evolving_merge_absent | exact H2].
      intros s0 s0' r0 H0. apply dict_items_inv in H0 as [-> _]. apply evolves_refl.
    + unfold setitem in H2. rewrite Hc in H2. inversion H2; subst.
      apply evolves_fresh; [exact Hc|].
      destruct (c !! "hyperparameter"); [destruct Hh; eauto | reflexivity].
Qed.

(** [_default_hyperparameters] is never written to, even when
    [CONFIG['hyperparameter']] is that very dictionary. *)
Lemma merge_hyperparameters_defaults s s' r :
  merge_hyperparameters s = (s', r) -> s' !! DEFAULTS = s !! DEFAULTS.
Proof.
  intros H. unfold merge_hyperparameters in H.
  apply bind_inv in H as [(e & H & _)|(b & s1 & H1 & H2)].
  - by apply contains_state in H as ->.
  - apply contains_dict_inv in H1 as (-> & c & Hc & ->).
    case_bool_decide as Hh.
    + apply bind_inv in H2 as [(e & H & _)|(items & s1 & H1 & H2)].
      * by apply dict_items_inv in H as [-> _].
      * apply dict_items_inv in H1 as (-> & d & Hd & ->).
        rewrite Hd. eapply merge_absent_own_items; eauto.
    + unfold setitem in H2. rewrite Hc in H2. inversion H2; subst.
      by rewrite lookup_insert_ne.
Qed.

(** A second run of the hyper-parameter phase after a failed one. *)
Lemma merge_hyperparameters_failed s s' e :
  merge_hyperparameters s = (s', inl e) ->
  merge_hyperparameters s' = (s', inl e).
Proof.
  intros H. pose proof H as H0. unfold merge_hyperparameters in H.
  apply bind_inv in H as [(e' & H & _)|(b & s1 & H1 & H2)].
  { apply contains_state in H as ->. exact H0. }
  apply contains_dict_inv in H1 as (-> & c & Hc & ->).
  case_bool_decide as Hh.
  - apply bind_inv in H2 as [(e' & H & _)|(items & s1 & H1 & H2)].
    { apply dict_items_inv in H as [-> _]. exact H0. }
    apply dict_items_inv in H1 as (-> & d & Hd & ->).
    pose proof (merge_absent_evolves _ _ _ _ _ H2) as He.
    pose proof (merge_absent_own_items _ _ _ _ _ _ Hd H2) as Hd'.
    assert (is_Some (entry s' CONFIG "hyperparameter")) as Hh'.
    { eapply evolves_is_Some; [exact He|]. unfold entry. by rewrite Hc. }
    unfold merge_hyperparameters.
    rewrite (bind_ok _ _ _ _ _ (contains_true "hyperparameter" CONFIG s' Hh')).
    unfold bind at 1, dict_items. rewrite Hd'.
    eapply stable_merge_absent;
      [apply not_env_hyperparameter | exact H2 | apply evolves_refl | by right].
  - unfold setitem in H2. rewrite Hc in H2. discriminate.
Qed.

(** A second run of the hyper-parameter phase after a completed one, on
    any store that evolved from the one it left without touching
    [_default_hyperparameters]. *)
Lemma merge_hyperparameters_completed s s1 s2 :
  merge_hyperparameters s = (s1, inr tt) ->
  evolves s1 s2 -> s2 !! DEFAULTS = s1 !! DEFAULTS ->
  exists r, merge_hyperparameters s2 = (s2, r).
Proof.
  intros H He HD. pose proof (merge_hyperparameters_defaults _ _ _ H) as HD1.
  unfold merge_hyperparameters in H.
  apply bind_inv in H as [(e' & _ & ?)|(b & s0 & H1 & H2)]; [discriminate|].
  apply contains_dict_inv in H1 as (-> & c & Hc & ->).
  case_bool_decide as Hh.
  - apply bind_inv in H2 as [(e' & _ & ?)|(items & s0 & H1 & H2)]; [discriminate|].
    apply dict_items_inv in H1 as (-> & d & Hd & ->).
    pose proof (merge_absent_evolves _ _ _ _ _ H2) as He1.
    assert (is_Some (entry s2 CONFIG "hyperparameter")) as Hh'.
    { eapply evolves_is_Some; [exact (evolves_trans _ _ _ He1 He)|].
      unfold entry. by rewrite Hc. }
    exists (inr tt). unfold merge_hyperparameters.
    rewrite (bind_ok _ _ _ _ _ (contains_true "hyperparameter" CONFIG s2 Hh')).
    unfold bind at 1, dict_items. rewrite HD, HD1, Hd.
    eapply stable_merge_absent;
      [apply not_env_hyperparameter | exact H2 | exact He | left; eauto].
  - unfold setitem in H2. rewrite Hc in H2. inversion H2; subst. clear H2.
    assert (entry s2 CONFIG "hyperparameter" = Some (VRef DEFAULTS)) as Hh2.
    { eapply evolves_keeps; [exact He | apply not_env_hyperparameter |].
      rewrite entry_insert, decide_True by reflexivity.
      by rewrite lookup_insert_eq. }
    assert (is_Some (entry s2 CONFIG "hyperparameter")) as Hh'
      by (rewrite Hh2; eauto).
    unfold merge_hyperparameters.
    rewrite (bind_ok _ _ _ _ _ (contains_true "hyperparameter" CONFIG s2 Hh')).
    unfold bind at 1, dict_items.
    destruct (s2 !! DEFAULTS) as [d|] eqn:Hd; [|eauto].
    rewrite (merge_absent_dict _ _ _ _ _ Hh2 Hd).
    rewrite list_to_map_to_list, (idemp_L (∪)), insert_id by exact Hd. eauto.
Qed.

(** The environment phase, case by case. *)
Lemma read_environment_run environ s :
  read_environment environ s =
  match environ !! "DATA" with
  | None => (s, inl (KeyError "DATA"))
  | Some data =>
      match s !! CONFIG with
      | None => (s, inl TypeError)
      | Some c =>
          match environ !! "TOKENIZER" with
          | None =>
              (<[CONFIG := <["dataset" := VStr data]> c]> s,
               inl (KeyError "TOKENIZER"))
          | Some tokenizer =>
              (<[CONFIG := <["tokenizer" := VStr tokenizer]>
                             (<["dataset" := VStr data]> c)]> s, inr tt)
          end
      end
  end.
Proof.
  unfold read_environment, environ_getitem, bind, setitem, ret, raise.
  destruct (environ !! "DATA") as [data|]; [|reflexivity].
  destruct (s !! CONFIG) as [c|]; [|reflexivity].
  destruct (environ !! "TOKENIZER") as [tokenizer|]; [|reflexivity].
  rewrite lookup_insert_eq. by rewrite insert_insert_eq.
Qed.

Lemma evolving_read_environment environ : evolving (read_environment environ).
Proof.
  intros s s' r. rewrite read_environment_run.
  destruct (environ !! "DATA") as [data|];
    [|intros [= <- _]; apply evolves_refl].
  destruct (s !! CONFIG) as [c|] eqn:Hc;
    [|intros [= <- _]; apply evolves_refl].
  pose proof (evolves_env s c "dataset" (VStr data) Hc (or_introl eq_refl)) as He.
  destruct (environ !! "TOKENIZER") as [tokenizer|]; intros [= <- _]; [|exact He].
  eapply evolves_trans; [exact He|].
  pose proof (evolves_env (<[CONFIG := <["dataset" := VStr data]> c]> s)
                (<["dataset" := VStr data]> c) "tokenizer" (VStr tokenizer)) as He'.
  rewrite insert_insert_eq in He'.
  apply He'; [by rewrite lookup_insert_eq | by right].
Qed.

Lemma read_environment_defaults environ s s' r :
  read_environment environ s = (s', r) -> s' !! DEFAULTS = s !! DEFAULTS.
Proof.
  rewrite read_environment_run.
  destruct (environ !! "DATA") as [data|]; [|by intros [= <- _]].
  destruct (s !! CONFIG) as [c|]; [|by intros [= <- _]].
  destruct (environ !! "TOKENIZER"); intros [= <- _]; by rewrite lookup_insert_ne.
Qed.

(** Reading the environment a second time writes the same two values. *)
Lemma read_environment_again environ s s' r :
  read_environment environ s = (s', r) ->
  read_environment environ s' = (s', r).
Proof.
  rewrite !read_environment_run.
  destruct (environ !! "DATA") as [data|]; [|by intros [= <- <-]].
  destruct (s !! CONFIG) as [c|] eqn:Hc.
  2:{ intros [= <- <-]. by rewrite Hc. }
  destruct (environ !! "TOKENIZER") as [tokenizer|]; intros [= <- <-];
    rewrite lookup_insert_eq, insert_insert_eq; do 2 f_equal.
  - rewrite (insert_id _ "dataset" (VStr data)).
    + by rewrite insert_insert_eq.
    + rewrite lookup_insert_ne by discriminate. by rewrite lookup_insert_eq.
  - by rewrite insert_insert_eq.
Qed.

Lemma evolving_gpt2_builder environ : evolving (gpt2_builder environ).
Proof.
  pose proof evolving_merge_preset. pose proof evolving_merge_hyperparameters.
  pose proof (evolving_read_environment environ).
  unfold gpt2_builder. solve_evolving.
Qed.

(** The store a second run of [gpt2_builder] leaves is the store the
    first run left, whatever the first store and the environment are and
    however the first run ended. *)
Lemma gpt2_builder_again environ s s' r :
  gpt2_builder environ s = (s', r) ->
  exists r', gpt2_builder environ s' = (s', r').
Proof.
  unfold gpt2_builder. intros H.
  apply bind_inv in H as [(e & H & ->)|([] & s1 & H1 & H)].
  { exists (inl e). apply bind_err.
    eapply stable_merge_preset; [exact H | apply evolves_refl | by right]. }
  apply bind_inv in H as [(e & H & ->)|([] & s2 & H2 & H)].
  { pose proof (evolving_merge_hyperparameters _ _ _ H) as He.
    exists (inl e).
    rewrite (bind_ok _ _ _ _ _ (stable_merge_preset _ _ _ _ H1 He
                                  (or_introl (ex_intro _ tt eq_refl)))).
    cbv beta. apply bind_err. exact (merge_hyperparameters_failed _ _ _ H). }
  pose proof (evolving_merge_hyperparameters _ _ _ H2) as He2.
  assert (exists r3, read_environment environ s2 = (s', r3)) as [r3 H3].
  { apply bind_inv in H as [(e & H & _)|([] & s3 & H3 & H)]; [eauto|].
    inversion H; subst. eauto. }
  pose proof (evolving_read_environment _ _ _ _ H3) as He3.
  rewrite (bind_ok _ _ _ _ _ (stable_merge_preset _ _ _ _ H1
             (evolves_trans _ _ _ He2 He3) (or_introl (ex_intro _ tt eq_refl)))).
  cbv beta.
  destruct (merge_hyperparameters_completed _ _ _ H2 He3
              (read_environment_defaults _ _ _ _ H3)) as [[e|[]] H2'].
  { exists (inl e). by apply bind_err. }
  rewrite (bind_ok _ _ _ _ _ H2'). cbv beta.
  apply read_environment_again in H3.
  destruct r3 as [e|[]].
  - exists (inl e). by apply bind_err.
  - exists (inr builders). by rewrite (bind_ok _ _ _ _ _ H3).
Qed.

(** ** The phases on a plain configuration *)

Lemma assoc_known name :
  In name known_model_types ->
  exists preset,
    assoc name _gpt2_configurations = Some preset /\ preset.*1 = preset_keys.
Proof.
  simpl. intros [<-|[<-|[<-|[<-|[]]]]]; eexists; split; reflexivity.
Qed.

Lemma assoc_unknown name :
  ~ In name known_model_types -> assoc name _gpt2_configurations = None.
Proof.
  simpl. intros Hn. unfold assoc, _gpt2_configurations.
  repeat lazymatch goal with
  | |- context [String.eqb name ?k] =>
      destruct (String.eqb_spec name k) as [->|_]; [exfalso; tauto|]
  end.
  reflexivity.
Qed.

Lemma preset_of_cases t :
  preset_of t = [] \/ (preset_of t).*1 = preset_keys.
Proof.
  destruct t; simpl; auto.
  unfold assoc, _gpt2_configurations.
  repeat lazymatch goal with
  | |- context [String.eqb s ?k] => destruct (String.eqb s k); [by right|]
  end.
  by left.
Qed.

Lemma preset_of_other t k :
  k ∉ preset_keys -> (list_to_map (preset_of t) : dict) !! k = None.
Proof.
  intros Hk. apply not_elem_of_list_to_map.
  destruct (preset_of_cases t) as [-> | ->]; [apply not_elem_of_nil | exact Hk].
Qed.

Lemma merge_preset_run s lm dm t :
  entry s CONFIG "model" = Some (VRef lm) ->
  s !! lm = Some dm -> dm !! "type" = Some t -> (forall l, t <> VRef l) ->
  merge_preset s = (<[lm := dm ∪ list_to_map (preset_of t)]> s, inr tt).
Proof.
  intros Hm Hd Ht Hhash. unfold merge_preset.
  rewrite (bind_ok _ _ _ _ _ (getitem_entry _ _ _ _ Hm)). cbv beta.
  assert (entry s lm "type" = Some t) as Ht' by (unfold entry; by rewrite Hd).
  rewrite (bind_ok _ _ _ _ _ (getitem_entry _ _ _ _ Ht')). cbv beta.
  assert (find_configuration t s
          = (s, inr (match t with
                     | VStr name => assoc name _gpt2_configurations
                     | _ => None
                     end))) as Hf.
  { destruct t; try reflexivity. by destruct (Hhash l). }
  rewrite (bind_ok _ _ _ _ _ Hf). cbv beta.
  assert (<[lm := dm]> s = s) as Hid by (by apply insert_id).
  destruct t as [| | | |name|]; cbn [preset_of];
    try (cbn; by rewrite (right_id_L ∅ (∪)), Hid).
  destruct (assoc name _gpt2_configurations) as [items|]; cbn.
  - by apply merge_absent_dict.
  - by rewrite (right_id_L ∅ (∪)), Hid.
Qed.

Lemma merge_hyperparameters_absent s c :
  s !! CONFIG = Some c -> c !! "hyperparameter" = None ->
  merge_hyperparameters s
  = (<[CONFIG := <["hyperparameter" := VRef DEFAULTS]> c]> s, inr tt).
Proof.
  intros Hc Hh. unfold merge_hyperparameters, bind, contains, setitem.
  rewrite Hc, Hh.
  rewrite bool_decide_eq_false_2 by (intros [? ?]; discriminate).
  by rewrite Hc.
Qed.

Lemma merge_hyperparameters_dict s lh dh dd :
  entry s CONFIG "hyperparameter" = Some (VRef lh) ->
  s !! lh = Some dh -> s !! DEFAULTS = Some dd ->
  merge_hyperparameters s = (<[lh := dh ∪ dd]> s, inr tt).
Proof.
  intros Hh Hd HD. unfold merge_hyperparameters.
  assert (is_Some (entry s CONFIG "hyperparameter")) as Hh' by (rewrite Hh; eauto).
  rewrite (bind_ok _ _ _ _ _ (contains_true _ _ _ Hh')). cbv beta iota.
  unfold bind at 1, dict_items. rewrite HD.
  rewrite (merge_absent_dict _ _ _ _ _ Hh Hd).
  by rewrite list_to_map_to_list.
Qed.

Lemma section_entry_Some s section k v :
  section_entry s section k = Some v ->
  exists l d, entry s CONFIG section = Some (VRef l) /\ s !! l = Some d /\
              d !! k = Some v.
Proof.
  unfold section_entry. destruct (entry s CONFIG section) as [[| | | | |l]|];
    try discriminate.
  intros (d & Hd & Hk)%entry_Some. eauto 6.
Qed.

Lemma section_entry_at s section l k :
  entry s CONFIG section = Some (VRef l) ->
  section_entry s section k = entry s l k.
Proof. unfold section_entry. by intros ->. Qed.

Lemma preset_key_not_env l k : k ∈ preset_keys -> ~ env_entry l k.
Proof.
  intros Hk%list_elem_of_In [_ Hd]. simpl in Hk.
  destruct Hd as [-> | ->]; intuition discriminate.
Qed.

Lemma default_key_not_env l k : k ∈ default_keys -> ~ env_entry l k.
Proof.
  intros Hk%list_elem_of_In [_ Hd]. simpl in Hk.
  destruct Hd as [-> | ->]; intuition discriminate.
Qed.

Lemma default_key_not_preset k : k ∈ default_keys -> k ∉ preset_keys.
Proof.
  intros Hk%list_elem_of_In Hp%list_elem_of_In. simpl in Hk, Hp.
  repeat (destruct Hk as [<- | Hk]; [intuition discriminate|]). exact Hk.
Qed.

Lemma NoDup_preset_keys : NoDup preset_keys.
Proof. apply (bool_decide_unpack _). by vm_compute. Qed.

Lemma NoDup_default_keys : NoDup default_keys.
Proof. apply (bool_decide_unpack _). by vm_compute. Qed.

(** What follows the preset phase only lets the store evolve. *)
Lemma gpt2_builder_after_preset environ s s1 :
  merge_preset s = (s1, inr tt) -> evolves s1 (gpt2_builder environ s).1.
Proof.
  intros H1. unfold gpt2_builder. rewrite (bind_ok _ _ _ _ _ H1). cbv beta.
  destruct ((merge_hyperparameters;; read_environment environ;; ret builders) s1)
    as [s' r] eqn:H.
  pose proof evolving_merge_hyperparameters.
  pose proof (evolving_read_environment environ).
  revert H. solve_evolving.
Qed.

(** After the two merges the outcome is that of the environment phase. *)
Lemma gpt2_builder_after_merges environ s s1 s2 :
  merge_preset s = (s1, inr tt) -> merge_hyperparameters s1 = (s2, inr tt) ->
  (gpt2_builder environ s).1 = (read_environment environ s2).1 /\
  (gpt2_builder environ s).2
  = match (read_environment environ s2).2 with
    | inl e => inl e
    | inr _ => inr builders
    end.
Proof.
  intros H1 H2. unfold gpt2_builder.
  rewrite (bind_ok _ _ _ _ _ H1). cbv beta.
  rewrite (bind_ok _ _ _ _ _ H2). cbv beta.
  unfold bind, ret. by destruct (read_environment environ s2) as [s3 [e|[]]].
Qed.

(** ** What the phases leave alone *)

(** A loop writes to no dictionary but [CONFIG[section]]. *)
Lemma merge_absent_frame section items s s' r l :
  entry s CONFIG section <> Some (VRef l) ->
  merge_absent section items s = (s', r) -> s' !! l = s !! l.
Proof.
  intros Hl H.
  destruct (entry s CONFIG section) as [o|] eqn:Ho.
  2:{ by apply merge_absent_other in H as ->; [|intros; congruence]. }
  destruct o as [| | | | |l'];
    try (by apply merge_absent_other in H as ->; [|intros; congruence]).
  destruct (s !! l') as [d'|] eqn:Hd'.
  2:{ apply merge_absent_other in H as ->; [reflexivity|].
      intros l0 Hl0. rewrite Ho in Hl0. by inversion Hl0; subst. }
  rewrite (merge_absent_dict _ _ _ _ _ Ho Hd') in H. inversion H; subst.
  rewrite lookup_insert_ne; [reflexivity | congruence].
Qed.

Lemma merge_hyperparameters_frame s s' r l :
  l <> CONFIG -> entry s CONFIG "hyperparameter" <> Some (VRef l) ->
  merge_hyperparameters s = (s', r) -> s' !! l = s !! l.
Proof.
  intros Hl Hh H. unfold merge_hyperparameters in H.
  apply bind_inv in H as [(e & H & _)|(b & s1 & H1 & H2)].
  - by apply contains_state in H as ->.
  - apply contains_dict_inv in H1 as (-> & c & Hc & ->).
    case_bool_decide as Hp.
    + apply bind_inv in H2 as [(e & H & _)|(items & s1 & H1 & H2)].
      * by apply dict_items_inv in H as [-> _].
      * apply dict_items_inv in H1 as (-> & d & Hd & ->).
        eapply merge_absent_frame; eauto.
    + unfold setitem in H2. rewrite Hc in H2. inversion H2; subst.
      by rewrite lookup_insert_ne.
Qed.

Lemma read_environment_frame environ s s' r l :
  l <> CONFIG -> read_environment environ s = (s', r) -> s' !! l = s !! l.
Proof.
  intros Hl. rewrite read_environment_run.
  destruct (environ !! "DATA") as [data|]; [|by intros [= <- _]].
  destruct (s !! CONFIG) as [c|]; [|by intros [= <- _]].
  destruct (environ !! "TOKENIZER"); intros [= <- _]; by rewrite lookup_insert_ne.
Qed.

(** A model type that names no preset: the preset phase writes nothing. *)
Lemma merge_preset_unknown s s' r lm t :
  entry s CONFIG "model" = Some (VRef lm) -> entry s lm "type" = Some t ->
  ~ In t (map VStr known_model_types) ->
  merge_preset s = (s', r) -> s' = s.
Proof.
  intros Hm Ht Hunknown H.
  destruct (proj1 (entry_Some _ _ _ _) Ht) as (dm & Hd & Hk).
  assert ((exists l, t = VRef l) \/ (forall l, t <> VRef l)) as [[l ->]|Hhash]
    by (destruct t; first [left; by eexists | right; discriminate]).
  - unfold merge_preset in H.
    rewrite (bind_ok _ _ _ _ _ (getitem_entry _ _ _ _ Hm)) in H. cbv beta in H.
    rewrite (bind_ok _ _ _ _ _ (getitem_entry _ _ _ _ Ht)) in H. cbv beta in H.
    by inversion H.
  - rewrite (merge_preset_run s lm dm t Hm Hd Hk Hhash) in H.
    assert (preset_of t = []) as Hnil.
    { destruct t; try reflexivity. cbn [preset_of].
      rewrite assoc_unknown; [reflexivity|].
      intros Hin. apply Hunknown. by apply in_map. }
    rewrite Hnil in H. cbn in H. rewrite (right_id_L ∅ (∪)) in H.
    rewrite insert_id in H by exact Hd. by inversion H.
Qed.

Lemma defaults_keys : _default_hyperparameters.*1 = default_keys.
Proof. reflexivity. Qed.

Lemma defaults_lookup k v :
  (k, v) ∈ _default_hyperparameters ->
  (list_to_map _default_hyperparameters : dict) !! k = Some v.
Proof.
  apply elem_of_list_to_map_1. rewrite defaults_keys. apply NoDup_default_keys.
Qed.

Lemma defaults_other k :
  k ∉ default_keys -> (list_to_map _default_hyperparameters : dict) !! k = None.
Proof. intros Hk. by apply not_elem_of_list_to_map. Qed.

(** The preset phase on a plain configuration: it completes, and touches
    no entry but those under the preset keys. *)
Lemma merge_preset_plain s :
  plain_config s ->
  exists s1,
    merge_preset s = (s1, inr tt) /\
    (forall l, is_Some (s1 !! l) <-> is_Some (s !! l)) /\
    (forall l k, k ∉ preset_keys -> entry s1 l k = entry s l k) /\
    s1 !! DEFAULTS = s !! DEFAULTS.
Proof.
  intros ((lm & t & Hm & Ht & Hhash) & HD & _).
  destruct (proj1 (entry_Some _ _ _ _) Ht) as (dm & Hd & Hk).
  eexists. split; [exact (merge_preset_run s lm dm t Hm Hd Hk Hhash)|].
  split; [|split].
  - intros l. destruct (decide (lm = l)) as [<-|Hne].
    + rewrite lookup_insert_eq, Hd. split; eauto.
    + by rewrite lookup_insert_ne.
  - intros l k Hkey. rewrite entry_insert.
    destruct (decide (lm = l)) as [<-|Hne]; [|reflexivity].
    rewrite lookup_union_l by (by apply preset_of_other).
    unfold entry. by rewrite Hd.
  - apply lookup_insert_ne. intros ->.
    rewrite HD in Hd. inversion Hd; subst.
    rewrite defaults_other in Hk; [discriminate|].
    intros Hin%list_elem_of_In. simpl in Hin. intuition discriminate.
Qed.

Lemma hyperparameter_not_preset_key : "hyperparameter" ∉ preset_keys.
Proof. intros Hin%list_elem_of_In. simpl in Hin. intuition discriminate. Qed.

Lemma env_key_not_preset_key k :
  k = "dataset" \/ k = "tokenizer" -> k ∉ preset_keys.
Proof.
  intros Hk Hin%list_elem_of_In. simpl in Hin.
  destruct Hk as [-> | ->]; intuition discriminate.
Qed.

Lemma env_key_not_default_key k :
  k = "dataset" \/ k = "tokenizer" -> k ∉ default_keys.
Proof.
  intros Hk Hin%list_elem_of_In. simpl in Hin.
  destruct Hk as [-> | ->]; intuition discriminate.
Qed.

(** Both merges on a plain configuration: they complete; every default
    key is in the hyper-parameter section, with its earlier value if it
    had one; and the two entries of the environment phase are as before. *)
Lemma merges_plain s :
  plain_config s ->
  exists s1 s2,
    merge_preset s = (s1, inr tt) /\
    merge_hyperparameters s1 = (s2, inr tt) /\
    (forall k v, (k, v) ∈ _default_hyperparameters ->
       section_entry s2 "hyperparameter" k
       = Some (default v (section_entry s "hyperparameter" k))) /\
    (entry s CONFIG "hyperparameter" = None ->
     entry s2 CONFIG "hyperparameter" = Some (VRef DEFAULTS)) /\
    s2 !! DEFAULTS = Some (list_to_map _default_hyperparameters) /\
    is_Some (s2 !! CONFIG) /\
    (forall k, k = "dataset" \/ k = "tokenizer" ->
       entry s2 CONFIG k = entry s CONFIG k).
Proof.
  intros Hplain.
  destruct (merge_preset_plain s Hplain) as (s1 & H1 & Halloc & Hframe & HD1).
  destruct Hplain as ((lm & t & Hm & _) & HD & Hh).
  assert (is_Some (s1 !! CONFIG)) as [c1 Hc1].
  { apply Halloc. apply entry_Some in Hm as (c & -> & _). eauto. }
  exists s1. destruct Hh as [Hh | (lh & Hh & Hlh)].
  - (* no hyper-parameter section *)
    assert (c1 !! "hyperparameter" = None) as Hh1.
    { pose proof (Hframe CONFIG _ hyperparameter_not_preset_key) as E.
      rewrite Hh in E. unfold entry in E. by rewrite Hc1 in E. }
    eexists. split; [exact H1|].
    split; [exact (merge_hyperparameters_absent s1 c1 Hc1 Hh1)|].
    assert (forall k, entry (<[CONFIG := <["hyperparameter" := VRef DEFAULTS]> c1]> s1)
                        DEFAULTS k
                      = (list_to_map _default_hyperparameters : dict) !! k) as ED.
    { intros k. rewrite entry_insert, decide_False by discriminate.
      unfold entry. by rewrite HD1, HD. }
    split; [|split; [|split; [|split]]].
    + intros k v Hkv. unfold section_entry at 1.
      rewrite entry_insert, decide_True, lookup_insert_eq by reflexivity.
      rewrite ED. unfold section_entry. rewrite Hh. by apply defaults_lookup.
    + intros _. by rewrite entry_insert, decide_True, lookup_insert_eq.
    + rewrite lookup_insert_ne by discriminate. by rewrite HD1.
    + rewrite lookup_insert_eq. eauto.
    + intros k Hk. rewrite entry_insert, decide_True by reflexivity.
      rewrite lookup_insert_ne by (destruct Hk as [-> | ->]; discriminate).
      rewrite <- (Hframe CONFIG k (env_key_not_preset_key k Hk)).
      unfold entry. by rewrite Hc1.
  - (* the section is a dictionary *)
    assert (entry s1 CONFIG "hyperparameter" = Some (VRef lh)) as Hh1.
    { by rewrite (Hframe CONFIG _ hyperparameter_not_preset_key). }
    assert (is_Some (s1 !! lh)) as [dh1 Hd1] by (by apply Halloc).
    pose proof (merge_hyperparameters_dict s1 lh dh1 _ Hh1 Hd1 (eq_trans HD1 HD)) as H2.
    pose proof (evolving_merge_hyperparameters _ _ _ H2) as He.
    eexists. split; [exact H1|]. split; [exact H2|].
    split; [|split; [|split; [|split]]].
    + intros k v Hkv.
      assert (k ∈ default_keys) as Hk.
      { rewrite <- defaults_keys. apply list_elem_of_fmap. by exists (k, v). }
      rewrite (section_entry_at _ _ lh).
      2:{ eapply evolves_keeps; [exact He | apply not_env_hyperparameter | exact Hh1]. }
      rewrite (section_entry_at _ _ lh _ Hh).
      rewrite <- (Hframe lh k (default_key_not_preset k Hk)).
      rewrite entry_insert, decide_True by reflexivity.
      unfold entry. rewrite Hd1. destruct (dh1 !! k) as [old|] eqn:Hold; simpl.
      * by apply lookup_union_Some_l.
      * rewrite lookup_union_r by exact Hold. by apply defaults_lookup.
    + intros Hno. congruence.
    + rewrite (merge_hyperparameters_defaults _ _ _ H2). by rewrite HD1.
    + destruct He as [Ha _]. apply Ha. eauto.
    + intros k Hk.
      rewrite <- (Hframe CONFIG k (env_key_not_preset_key k Hk)).
      rewrite entry_insert. destruct (decide (lh = CONFIG)) as [->|Hne]; [|reflexivity].
      rewrite lookup_union_l by (apply defaults_other, env_key_not_default_key, Hk).
      unfold entry. by rewrite Hd1.
Qed.

Lemma section_entry_keeps s s' section k v :
  evolves s s' -> ~ env_entry CONFIG section -> (forall l, ~ env_entry l k) ->
  section_entry s section k = Some v -> section_entry s' section k = Some v.
Proof.
  intros He Hsec Hk (l & d & Hl & Hd & Hv)%section_entry_Some.
  rewrite (section_entry_at _ _ l) by (eapply evolves_keeps; eauto).
  eapply evolves_keeps; [exact He | apply Hk |]. unfold entry. by rewrite Hd.
Qed.

Lemma plain_example_store : plain_config example_store.
Proof.
  split; [|split].
  - exists 3%positive, (VStr "gpt2_xl").
    split; [reflexivity|]. split; [reflexivity | discriminate].
  - reflexivity.
  - left. reflexivity.
Defined.

(** ** Slicing a list into chunks *)

Lemma range0_multiple (n q : Z) :
  0 < n -> 0 <= q ->
  range0 (q * n) n = map (fun i => Z.of_nat i * n) (seq 0 (Z.to_nat q)).
Proof.
  intros Hn Hq. unfold range0.
  rewrite (proj2 (Z.ltb_lt 0 n)) by exact Hn.
  replace ((q * n + n - 1) / n) with q; [reflexivity|].
  apply (Z.div_unique_pos _ _ q (n - 1)); lia.
Qed.

Lemma slice_multiple (t : list Z) (n : Z) (i : nat) :
  0 < n ->
  slice t (Z.of_nat i * n) n = take (Z.to_nat n) (drop (i * Z.to_nat n) t).
Proof.
  intros Hn. unfold slice. f_equal; [|f_equal]; lia.
Qed.

Lemma chunks_multiple (t : list Z) (n q : Z) :
  0 < n -> 0 <= q ->
  chunks n (q * n) t
  = map (fun i => take (Z.to_nat n) (drop (i * Z.to_nat n) t)) (seq 0 (Z.to_nat q)).
Proof.
  intros Hn Hq. unfold chunks. rewrite range0_multiple by assumption.
  rewrite map_map. apply map_ext. intros i. by apply slice_multiple.
Qed.

(** [q] slices of width [m] taken from a list that is long enough: each
    has [m] elements and together they are the first [q * m] elements. *)
Lemma take_drop_chunks {A} (t : list A) (m q : nat) :
  (q * m <= length t)%nat ->
  let cs := map (fun i => take m (drop (i * m) t)) (seq 0 q) in
  Forall (fun c => length c = m) cs /\ length cs = q /\
  concat cs = take (q * m) t.
Proof.
  induction q as [|q IH]; intros Hlen cs.
  - subst cs. simpl. split; [constructor|]. by split.
  - destruct IH as (Hall & Hlen' & Hcat); [lia|].
    subst cs. rewrite seq_S, map_app. cbn [map Nat.add].
    split; [|split].
    + apply Forall_app. split; [exact Hall|].
      constructor; [|constructor].
      rewrite length_take, length_drop. lia.
    + rewrite length_app, Hlen'. simpl. lia.
    + rewrite concat_app, Hcat. cbn [concat]. rewrite (right_id_L [] (++)).
      rewrite take_take_drop. f_equal. lia.
Qed.

(** What line 85 yields for one concatenated column [t], for a positive
    [seq_len]. *)
Lemma chunks_cut_length (t : list Z) (n : Z) :
  0 < n ->
  let total := Z.of_nat (length t) in
  let cs := chunks n (cut_length n total) t in
  (n <= total ->
     Forall (fun c => Z.of_nat (length c) = n) cs /\
     Z.of_nat (length cs) = total / n /\
     concat cs = take (Z.to_nat (total / n * n)) t) /\
  (0 < total < n -> cs = [t]) /\
  (total = 0 -> cs = []).
Proof.
  intros Hn total cs. split; [|split].
  - intros Hle. subst cs. unfold cut_length.
    rewrite (proj2 (Z.leb_le n total)) by exact Hle.
    assert (0 <= total / n) as Hq by (apply Z.div_pos; lia).
    rewrite chunks_multiple by assumption.
    destruct (take_drop_chunks t (Z.to_nat n) (Z.to_nat (total / n)))
      as (Hall & Hlen & Hcat).
    { pose proof (Z.mul_div_le total n Hn). subst total. nia. }
    split; [|split].
    + eapply Forall_impl; [exact Hall|]. intros c Hc. simpl in Hc. lia.
    + rewrite Hlen. lia.
    + rewrite Hcat. f_equal. lia.
  - intros [Hpos Hlt]. subst cs. unfold cut_length, chunks, range0.
    rewrite (proj2 (Z.leb_gt n total)) by exact Hlt.
    rewrite (proj2 (Z.ltb_lt 0 n)) by exact Hn.
    replace ((total + n - 1) / n) with 1
      by (apply (Z.div_unique_pos _ _ 1 (total - 1)); lia).
    change (Z.to_nat 1) with 1%nat. cbn [seq map]. unfold slice.
    change (Z.of_nat 0 * n) with 0. rewrite Z.add_0_l.
    change (Z.to_nat 0) with 0%nat. rewrite Nat.sub_0_r, drop_0.
    f_equal. apply take_ge. subst total. lia.
  - intros Hzero. subst cs. unfold cut_length, chunks, range0.
    rewrite (proj2 (Z.leb_gt n total)) by lia.
    rewrite (proj2 (Z.ltb_lt 0 n)) by exact Hn.
    rewrite Hzero.
    replace ((0 + n - 1) / n) with 0
      by (apply (Z.div_unique_pos _ _ 0 (n - 1)); lia).
    reflexivity.
Qed.

Lemma assoc_set_eq {A} k (v : A) d : assoc k (assoc_set k v d) = Some v.
Proof.
  induction d as [|[k' v'] rest IH]; cbn.
  - by rewrite String.eqb_refl.
  - destruct (String.eqb k k') eqn:E; cbn; rewrite ?String.eqb_refl, ?E; auto.
Qed.

Lemma assoc_set_ne {A} k k' (v : A) d :
  k <> k' -> assoc k' (assoc_set k v d) = assoc k' d.
Proof.
  intros Hne. induction d as [|[k0 v0] rest IH]; cbn.
  - by rewrite (proj2 (String.eqb_neq k' k)).
  - destruct (String.eqb_spec k k0) as [<-|Hk0]; cbn.
    + by rewrite (proj2 (String.eqb_neq k' k)).
    + by rewrite IH.
Qed.

(** ** Computations that only read the store *)

Lemma readonly_ret {A} (a : A) : readonly (ret a).
Proof. intros s s' r H. by inversion H. Qed.

Lemma readonly_raise {A} e : readonly (@raise A e).
Proof. intros s s' r H. by inversion H. Qed.

Lemma readonly_lift {A} (x : pyerr + A) : readonly (lift x).
Proof. intros s s' r H. by inversion H. Qed.

Lemma readonly_getitem o k : readonly (getitem o k).
Proof. intros s s' r. apply getitem_state. Qed.

Lemma readonly_bind {A B} (m : M A) (f : A -> M B) :
  readonly m -> (forall a, readonly (f a)) -> readonly (bind m f).
Proof.
  intros Hm Hf s s' r H.
  apply bind_inv in H as [(e & H & _)|(a & s1 & H1 & H2)].
  - eapply Hm, H.
  - apply Hm in H1 as ->. eapply Hf, H2.
Qed.

Lemma readonly_mapM {A B} (f : A -> M B) l :
  (forall a, readonly (f a)) -> readonly (mapM f l).
Proof.
  intros Hf. induction l as [|a rest IH]; cbn [mapM].
  - apply readonly_ret.
  - apply readonly_bind; [apply Hf | intros b].
    apply readonly_bind; [exact IH | intros bs]. apply readonly_ret.
Qed.

#[local] Hint Resolve readonly_ret readonly_raise readonly_lift
  readonly_getitem : runs.

Ltac solve_readonly :=
  repeat first
    [ solve [auto with runs]
    | apply readonly_bind; [|intros ?]
    | apply readonly_mapM; intros ?
    | match goal with
      | |- readonly (match ?x with _ => _ end) => destruct x
      | |- readonly (let '(_, _) := ?x in _) => destruct x
      end ].

Lemma readonly_tokenize tok examples mode : readonly (tokenize tok examples mode).
Proof. unfold tokenize. solve_readonly. Qed.

Lemma readonly_dataset_map tok mode d : readonly (dataset_map tok mode d).
Proof.
  pose proof (readonly_tokenize tok). unfold dataset_map. solve_readonly.
Qed.

Lemma readonly_split_getitem d split : readonly (split_getitem d split).
Proof. unfold split_getitem. solve_readonly. Qed.

#[local] Hint Resolve readonly_tokenize readonly_dataset_map
  readonly_split_getitem : runs.

(** One step of a run [H : (x <- m ;; k) s = (s', r)] whose first
    computation [m] only reads (lemma [lem]), in a goal that offers, on
    the left, that the run raised on the store it started on. *)
Ltac before_write H a Ha lem :=
  let e := fresh "e" in
  apply bind_inv in H as [(e & Ha & ->)|(a & ? & Ha & H)];
  [ left; exists e; split; [reflexivity | exact (lem _ _ _ Ha)]
  | pose proof (lem _ _ _ Ha); subst ].

(** ** The order of the items does not matter

    Python walks a dictionary in insertion order; [dict_items] lists it in
    the order of [map_to_list].  For the loop of [gpt2_builder] the two
    give the same run. *)

Lemma merge_absent_blocked section items s :
  (forall l, entry s CONFIG section = Some (VRef l) -> s !! l = None) ->
  merge_absent section items s = (s, blocked_outcome s section items).
Proof.
  intros Hno. induction items as [|[k v] rest IH]; [reflexivity|].
  cbn [merge_absent]. unfold bind at 1, getitem.
  unfold blocked_outcome. unfold entry in Hno.
  destruct (s !! CONFIG) as [c|] eqn:Hc; [|reflexivity].
  destruct (c !! section) as [o|] eqn:Ho; [|reflexivity].
  unfold bind at 1, contains.
  destruct o as [| | | |t|l]; try reflexivity.
  - cbn [forallb fst]. destruct (is_substring k t) eqn:Hk; cbn [andb].
    + unfold bind at 1, ret. rewrite IH. unfold blocked_outcome.
      rewrite Hc, Ho. by destruct rest.
    + unfold bind. rewrite Hc, Ho. reflexivity.
  - by rewrite (Hno l eq_refl).
Qed.

Lemma blocked_outcome_Permutation s section items items' :
  items ≡ₚ items' ->
  blocked_outcome s section items = blocked_outcome s section items'.
Proof.
  intros Hp. unfold blocked_outcome.
  destruct items as [|kv rest].
  { apply Permutation_nil in Hp. by subst. }
  destruct items' as [|kv' rest'].
  { symmetry in Hp. by apply Permutation_nil in Hp. }
  destruct (s !! CONFIG) as [c|]; [|reflexivity].
  destruct (c !! section) as [[| | | |t|]|]; try reflexivity.
  assert (forallb (fun kv0 => is_substring kv0.1 t) (kv :: rest)
          = forallb (fun kv0 => is_substring kv0.1 t) (kv' :: rest')) as ->;
    [|reflexivity].
  apply eq_true_iff_eq. rewrite !forallb_forall.
  split; intros H x Hx; apply H; apply list_elem_of_In;
    apply list_elem_of_In in Hx; [by rewrite Hp | by rewrite <- Hp].
Qed.

Lemma merge_absent_Permutation section items items' s :
  NoDup items.*1 -> items ≡ₚ items' ->
  merge_absent section items s = merge_absent section items' s.
Proof.
  intros Hnd Hp.
  destruct (entry s CONFIG section) as [o|] eqn:Ho.
  2:{ rewrite !merge_absent_blocked by (intros; congruence).
      by rewrite (blocked_outcome_Permutation _ _ _ _ Hp). }
  destruct o as [| | | | |l];
    try (rewrite !merge_absent_blocked by (intros; congruence);
         by rewrite (blocked_outcome_Permutation _ _ _ _ Hp)).
  destruct (s !! l) as [d|] eqn:Hd.
  - rewrite !(merge_absent_dict _ _ _ _ _ Ho Hd).
    by rewrite (list_to_map_proper _ _ Hnd Hp).
  - rewrite !merge_absent_blocked
      by (intros l0 Hl0; rewrite Ho in Hl0; by inversion Hl0; subst).
    by rewrite (blocked_outcome_Permutation _ _ _ _ Hp).
Qed.

(** In particular the hyper-parameter loop, run over the items of
    [_default_hyperparameters] in the order of the source, is the loop
    run over [dict_items]. *)
Lemma merge_hyperparameters_source_order s :
  s !! DEFAULTS = Some (list_to_map _default_hyperparameters) ->
  dict_items DEFAULTS s
  = (s, inr (map_to_list (list_to_map _default_hyperparameters : dict))) /\
  merge_absent "hyperparameter"
    (map_to_list (list_to_map _default_hyperparameters : dict)) s
  = merge_absent "hyperparameter" _default_hyperparameters s.
Proof.
  intros HD. split.
  - unfold dict_items. by rewrite HD.
  - assert (NoDup _default_hyperparameters.*1) as Hnd
      by (rewrite defaults_keys; apply NoDup_default_keys).
    apply merge_absent_Permutation.
    + apply NoDup_fst_map_to_list.
    + by apply map_to_list_to_map.
Qed.


(** * Part V.  The properties claimed by the specification *)

(** C1. When [CONFIG['model']['type']] is one of gpt2, gpt2_small,
    gpt2_xl, gpt2_10b, then after [gpt2_builder] has run (whether it
    returned or raised later on), every key of that preset, that is
    seq_length, vocab_size, hidden_size, num_heads, depth, checkpoint and
    evaluation, is in [CONFIG['model']]: with the value it had before the
    call if it was there, with the preset's value otherwise. *)
Theorem C1_preset_keys_merged environ s name :
  section_entry s "model" "type" = Some (VStr name) ->
  In name known_model_types ->
  exists preset,
    assoc name _gpt2_configurations = Some preset /\
    preset.*1 = preset_keys /\
    forall k v, (k, v) ∈ preset ->
      section_entry (gpt2_builder environ s).1 "model" k
      = Some (default v (section_entry s "model" k)).
Proof.
  intros (lm & dm & Hm & Hd & Ht)%section_entry_Some Hname.
  destruct (assoc_known name Hname) as (preset & Hpreset & Hkeys).
  exists preset. split; [exact Hpreset|]. split; [exact Hkeys|].
  intros k v Hkv.
  pose proof (merge_preset_run s lm dm (VStr name) Hm Hd Ht) as H1.
  cbn [preset_of] in H1. rewrite Hpreset in H1. cbn [default from_option id] in H1.
  specialize (H1 ltac:(discriminate)).
  pose proof (evolving_merge_preset _ _ _ H1) as He1.
  pose proof (gpt2_builder_after_preset environ _ _ H1) as He.
  assert (k ∈ preset_keys) as Hk.
  { rewrite <- Hkeys. apply list_elem_of_fmap. by exists (k, v). }
  rewrite (section_entry_at _ _ lm).
  2:{ eapply evolves_keeps; [exact (evolves_trans _ _ _ He1 He) | apply not_env_model | exact Hm]. }
  rewrite (section_entry_at _ _ lm _ Hm).
  eapply evolves_keeps; [exact He | by apply preset_key_not_env |].
  rewrite entry_insert, decide_True by reflexivity.
  unfold entry. rewrite Hd. destruct (dm !! k) as [old|] eqn:Hold; simpl.
  - by apply lookup_union_Some_l.
  - rewrite lookup_union_r by exact Hold.
    apply elem_of_list_to_map_1; [|exact Hkv].
    rewrite Hkeys. apply NoDup_preset_keys.
Qed.

Lemma C1_witness :
  section_entry example_store "model" "type" = Some (VStr "gpt2_xl") /\
  exists preset,
    assoc "gpt2_xl" _gpt2_configurations = Some preset /\
    preset.*1 = preset_keys /\
    forall k v, (k, v) ∈ preset ->
      section_entry (gpt2_builder example_environ example_store).1 "model" k
      = Some (default v (section_entry example_store "model" k)).
Proof.
  split; [reflexivity|].
  apply (C1_preset_keys_merged example_environ example_store "gpt2_xl");
    [reflexivity | simpl; tauto].
Defined.

(** C2, as stated, fails at the top-level key ['dataset']: it is set
    before the call and has another value after it. *)
Lemma C2_dataset_is_overwritten :
  exists old,
    entry example_store CONFIG "dataset" = Some old /\
    entry (gpt2_builder example_environ example_store).1 CONFIG "dataset"
    = Some (VStr "/data/wiki") /\
    old <> VStr "/data/wiki".
Proof.
  exists (VStr "/old/data"). split; [reflexivity|]. split; [reflexivity|].
  discriminate.
Qed.

(** C2, amended.  [gpt2_builder] never overwrites an entry that is
    already set, in [CONFIG], [CONFIG['model']], [CONFIG['hyperparameter']]
    or any other dictionary, with two exceptions: the top-level keys
    ['dataset'] and ['tokenizer'], to which a call that returns has
    assigned the values of DATA and TOKENIZER whatever was there. *)
Theorem C2_only_dataset_and_tokenizer_overwritten environ s l k v :
  entry s l k = Some v ->
  (~ (l = CONFIG /\ (k = "dataset" \/ k = "tokenizer")) ->
   entry (gpt2_builder environ s).1 l k = Some v) /\
  (forall built, (gpt2_builder environ s).2 = inr built ->
     entry (gpt2_builder environ s).1 CONFIG "dataset"
     = VStr <$> environ !! "DATA" /\
     entry (gpt2_builder environ s).1 CONFIG "tokenizer"
     = VStr <$> environ !! "TOKENIZER" /\
     is_Some (environ !! "DATA") /\ is_Some (environ !! "TOKENIZER")).
Proof.
  intros Hv. split.
  - intros Hne. destruct (gpt2_builder environ s) as [s' r] eqn:H.
    eapply evolves_keeps; [exact (evolving_gpt2_builder _ _ _ _ H) | exact Hne | exact Hv].
  - intros built. unfold gpt2_builder.
    destruct (merge_preset s) as [s1 [e|[]]] eqn:H1.
    { rewrite (bind_err _ _ _ _ _ H1). discriminate. }
    rewrite (bind_ok _ _ _ _ _ H1). cbv beta.
    destruct (merge_hyperparameters s1) as [s2 [e|[]]] eqn:H2.
    { rewrite (bind_err _ _ _ _ _ H2). discriminate. }
    rewrite (bind_ok _ _ _ _ _ H2). cbv beta.
    unfold bind, ret. rewrite read_environment_run.
    destruct (environ !! "DATA") as [data|]; [|discriminate].
    destruct (s2 !! CONFIG) as [c|]; [|discriminate].
    destruct (environ !! "TOKENIZER") as [tokenizer|]; [|discriminate].
    intros _. cbn [fst fmap option_fmap option_map].
    rewrite !entry_insert, !decide_True by reflexivity.
    rewrite lookup_insert_ne by discriminate.
    rewrite !lookup_insert_eq. eauto.
Qed.

Lemma C2_witness :
  entry example_store 3%positive "depth" = Some (VInt 7) /\
  entry (gpt2_builder example_environ example_store).1 3%positive "depth"
  = Some (VInt 7) /\
  entry (gpt2_builder example_environ example_store).1 CONFIG "tokenizer"
  = Some (VStr "/data/tokenizer").
Proof.
  split; [reflexivity|].
  destruct (C2_only_dataset_and_tokenizer_overwritten
              example_environ example_store 3%positive "depth" (VInt 7)
              eq_refl) as [Hkeep Hset].
  split.
  - apply Hkeep. intros [? _]. discriminate.
  - destruct (Hset builders eq_refl) as (_ & Htok & _). exact Htok.
Defined.

(** C3. When [CONFIG['model']['type']] is none of gpt2, gpt2_small,
    gpt2_xl, gpt2_10b, [gpt2_builder] leaves [CONFIG['model']] as it was:
    the same dictionary with the same entries, none added and none
    modified.  The model section is taken to be a dictionary of its own,
    that is neither [CONFIG] itself nor the dictionary that
    [CONFIG['hyperparameter']] refers to. *)
Theorem C3_unknown_type_leaves_model environ s lm t :
  entry s CONFIG "model" = Some (VRef lm) ->
  entry s lm "type" = Some t ->
  ~ In t (map VStr known_model_types) ->
  lm <> CONFIG ->
  entry s CONFIG "hyperparameter" <> Some (VRef lm) ->
  entry (gpt2_builder environ s).1 CONFIG "model" = Some (VRef lm) /\
  (gpt2_builder environ s).1 !! lm = s !! lm.
Proof.
  intros Hm Ht Hunknown Hlm Hh. split.
  { destruct (gpt2_builder environ s) as [s' r] eqn:H.
    eapply evolves_keeps;
      [exact (evolving_gpt2_builder _ _ _ _ H) | apply not_env_model | exact Hm]. }
  unfold gpt2_builder.
  destruct (merge_preset s) as [s1 [e|[]]] eqn:H1;
    pose proof (merge_preset_unknown _ _ _ _ _ Hm Ht Hunknown H1) as ->.
  { by rewrite (bind_err _ _ _ _ _ H1). }
  rewrite (bind_ok _ _ _ _ _ H1). cbv beta.
  destruct (merge_hyperparameters s) as [s2 [e|[]]] eqn:H2;
    pose proof (merge_hyperparameters_frame _ _ _ _ Hlm Hh H2) as E2.
  { by rewrite (bind_err _ _ _ _ _ H2). }
  rewrite (bind_ok _ _ _ _ _ H2). cbv beta.
  destruct (read_environment environ s2) as [s3 [e|[]]] eqn:H3;
    pose proof (read_environment_frame _ _ _ _ _ Hlm H3) as E3.
  { rewrite (bind_err _ _ _ _ _ H3). cbn. congruence. }
  rewrite (bind_ok _ _ _ _ _ H3). cbn. congruence.
Qed.

Lemma C3_witness :
  entry unknown_type_store CONFIG "model" = Some (VRef 3%positive) /\
  entry unknown_type_store 3%positive "type" = Some (VStr "gpt3") /\
  entry (gpt2_builder example_environ unknown_type_store).1 CONFIG "model"
  = Some (VRef 3%positive) /\
  (gpt2_builder example_environ unknown_type_store).1 !! 3%positive
  = unknown_type_store !! 3%positive.
Proof.
  split; [reflexivity|]. split; [reflexivity|].
  apply (C3_unknown_type_leaves_model
           example_environ unknown_type_store 3%positive (VStr "gpt3")).
  - reflexivity.
  - reflexivity.
  - simpl. intuition discriminate.
  - discriminate.
  - discriminate.
Defined.

(** C4. On a plain configuration, after [gpt2_builder] has run, every
    default hyper-parameter key (tokenize_mode, batch_size, learning_rate,
    weight_decay, num_epochs, warmup_epochs, steps_per_epoch) is in
    [CONFIG['hyperparameter']], with the value it had before the call if
    it was there and with the default otherwise; and when there was no
    ['hyperparameter'] section, [CONFIG['hyperparameter']] is the
    dictionary [_default_hyperparameters] itself, which holds exactly the
    defaults. *)
Theorem C4_default_hyperparameters_merged environ s :
  plain_config s ->
  _default_hyperparameters.*1 = default_keys /\
  (forall k v, (k, v) ∈ _default_hyperparameters ->
     section_entry (gpt2_builder environ s).1 "hyperparameter" k
     = Some (default v (section_entry s "hyperparameter" k))) /\
  (entry s CONFIG "hyperparameter" = None ->
   entry (gpt2_builder environ s).1 CONFIG "hyperparameter" = Some (VRef DEFAULTS) /\
   (gpt2_builder environ s).1 !! DEFAULTS
   = Some (list_to_map _default_hyperparameters)).
Proof.
  intros Hplain. split; [reflexivity|].
  destruct (merges_plain s Hplain)
    as (s1 & s2 & H1 & H2 & Hmerged & Hnew & HD & _ & _).
  destruct (gpt2_builder_after_merges environ s s1 s2 H1 H2) as [-> _].
  destruct (read_environment environ s2) as [s3 r3] eqn:H3. cbn [fst].
  pose proof (evolving_read_environment _ _ _ _ H3) as He.
  split.
  - intros k v Hkv.
    eapply section_entry_keeps;
      [exact He | apply not_env_hyperparameter | | exact (Hmerged k v Hkv)].
    intros l. apply default_key_not_env.
    rewrite <- defaults_keys. apply list_elem_of_fmap. by exists (k, v).
  - intros Hno. split.
    + eapply evolves_keeps; [exact He | apply not_env_hyperparameter | exact (Hnew Hno)].
    + by rewrite (read_environment_defaults _ _ _ _ H3).
Qed.

Lemma C4_witness :
  plain_config example_store /\
  section_entry (gpt2_builder example_environ example_store).1
    "hyperparameter" "batch_size" = Some (VInt 4) /\
  entry (gpt2_builder example_environ example_store).1 CONFIG "hyperparameter"
  = Some (VRef DEFAULTS).
Proof.
  split; [exact plain_example_store|].
  destruct (C4_default_hyperparameters_merged example_environ example_store
              plain_example_store) as (_ & Hmerged & Hnew).
  split.
  - apply (Hmerged "batch_size" (VInt 4)). unfold _default_hyperparameters.
    apply list_elem_of_In. simpl. tauto.
  - apply Hnew. reflexivity.
Defined.

(** C5. When DATA or TOKENIZER is not in the environment, [gpt2_builder]
    raises instead of returning the builder functions.  On a plain
    configuration the exception is the [KeyError] of [os.environ] for the
    first of the two names that is missing, the key ['tokenizer'] of
    [CONFIG] is left as it was, and so is ['dataset'] when DATA is the
    missing one: the call never sets both. *)
Theorem C5_missing_environment_variable environ s :
  environ !! "DATA" = None \/ environ !! "TOKENIZER" = None ->
  (exists e, (gpt2_builder environ s).2 = inl e) /\
  (plain_config s ->
   (gpt2_builder environ s).2
   = inl (KeyError match environ !! "DATA" with
                   | None => "DATA"
                   | Some _ => "TOKENIZER"
                   end) /\
   entry (gpt2_builder environ s).1 CONFIG "tokenizer"
   = entry s CONFIG "tokenizer" /\
   (environ !! "DATA" = None ->
    entry (gpt2_builder environ s).1 CONFIG "dataset" = entry s CONFIG "dataset")).
Proof.
  intros Henv. split.
  - unfold gpt2_builder.
    destruct (merge_preset s) as [s1 [e|[]]] eqn:H1.
    { rewrite (bind_err _ _ _ _ _ H1). eauto. }
    rewrite (bind_ok _ _ _ _ _ H1). cbv beta.
    destruct (merge_hyperparameters s1) as [s2 [e|[]]] eqn:H2.
    { rewrite (bind_err _ _ _ _ _ H2). eauto. }
    rewrite (bind_ok _ _ _ _ _ H2). cbv beta.
    unfold bind, ret. rewrite read_environment_run.
    destruct (environ !! "DATA") as [data|]; [|cbn; eauto].
    destruct (s2 !! CONFIG) as [c|]; [|cbn; eauto].
    destruct (environ !! "TOKENIZER") as [tokenizer|]; [|cbn; eauto].
    destruct Henv; discriminate.
  - intros Hplain.
    destruct (merges_plain s Hplain)
      as (s1 & s2 & H1 & H2 & _ & _ & _ & [c Hc] & Henvkeys).
    destruct (gpt2_builder_after_merges environ s s1 s2 H1 H2) as [-> ->].
    rewrite read_environment_run, Hc.
    destruct (environ !! "DATA") as [data|]; cbn [fst snd].
    + destruct (environ !! "TOKENIZER") as [tokenizer|];
        [destruct Henv; discriminate|].
      cbn [fst snd]. split; [reflexivity|]. split; [|discriminate].
      rewrite entry_insert, decide_True by reflexivity.
      rewrite lookup_insert_ne by discriminate.
      rewrite <- (Henvkeys "tokenizer") by auto. unfold entry. by rewrite Hc.
    + split; [reflexivity|]. split; [|intros _]; apply Henvkeys; auto.
Qed.

Lemma C5_witness :
  (environ_without_tokenizer !! "DATA" = None \/
   environ_without_tokenizer !! "TOKENIZER" = None) /\
  (gpt2_builder environ_without_tokenizer example_store).2
  = inl (KeyError "TOKENIZER") /\
  entry (gpt2_builder environ_without_tokenizer example_store).1 CONFIG "tokenizer"
  = None.
Proof.
  assert (environ_without_tokenizer !! "DATA" = None \/
          environ_without_tokenizer !! "TOKENIZER" = None) as Henv
    by (right; reflexivity).
  split; [exact Henv|].
  destruct (C5_missing_environment_variable
              environ_without_tokenizer example_store Henv) as (_ & Hplain).
  destruct (Hplain plain_example_store) as (Herr & Htok & _).
  split; [exact Herr | exact Htok].
Defined.

(** C6. When DATA and TOKENIZER are both in the environment,
    [gpt2_builder] on a plain configuration returns the five builder
    functions, and has stored the value of DATA under [CONFIG['dataset']]
    and the value of TOKENIZER under [CONFIG['tokenizer']]. *)
Theorem C6_environment_paths_stored environ s data tokenizer :
  plain_config s ->
  environ !! "DATA" = Some data -> environ !! "TOKENIZER" = Some tokenizer ->
  (gpt2_builder environ s).2
  = inr [build_data_fn; build_model_fn; build_loss_fn; build_optimizer_fn;
         build_scheduler_fn] /\
  entry (gpt2_builder environ s).1 CONFIG "dataset" = Some (VStr data) /\
  entry (gpt2_builder environ s).1 CONFIG "tokenizer" = Some (VStr tokenizer).
Proof.
  intros Hplain Hdata Htok.
  destruct (merges_plain s Hplain)
    as (s1 & s2 & H1 & H2 & _ & _ & _ & [c Hc] & _).
  destruct (gpt2_builder_after_merges environ s s1 s2 H1 H2) as [-> ->].
  rewrite read_environment_run, Hc, Hdata, Htok. cbn [fst snd].
  split; [reflexivity|].
  rewrite !entry_insert, !decide_True by reflexivity.
  rewrite lookup_insert_ne by discriminate.
  by rewrite !lookup_insert_eq.
Qed.

Lemma C6_witness :
  plain_config example_store /\
  (gpt2_builder example_environ example_store).2 = inr builders /\
  entry (gpt2_builder example_environ example_store).1 CONFIG "dataset"
  = Some (VStr "/data/wiki") /\
  entry (gpt2_builder example_environ example_store).1 CONFIG "tokenizer"
  = Some (VStr "/data/tokenizer").
Proof.
  split; [exact plain_example_store|].
  apply (C6_environment_paths_stored example_environ example_store
           "/data/wiki" "/data/tokenizer" plain_example_store);
    reflexivity.
Defined.

(** C7. For every integer [epoch_steps], when the two epoch counts of
    [CONFIG['hyperparameter']] are integers, [build_scheduler] calls
    [get_cosine_schedule_with_warmup] with [num_warmup_steps] equal to
    [epoch_steps * warmup_epochs] and [num_training_steps] equal to
    [epoch_steps * num_epochs], passes the optimizer on, and leaves the
    store as it was. *)
Theorem C7_build_scheduler_steps {optimizer : Type} (epoch_steps : Z)
    (opt : optimizer) (s : store) (warmup_epochs num_epochs : Z) :
  section_entry s "hyperparameter" "warmup_epochs" = Some (VInt warmup_epochs) ->
  section_entry s "hyperparameter" "num_epochs" = Some (VInt num_epochs) ->
  build_scheduler epoch_steps opt s
  = (s, inr {| schedule_optimizer := opt;
               num_warmup_steps := VInt (epoch_steps * warmup_epochs);
               num_training_steps := VInt (epoch_steps * num_epochs) |}).
Proof.
  intros (l & d & Hh & Hd & Hw)%section_entry_Some Hn.
  rewrite (section_entry_at _ _ l _ Hh) in Hn.
  assert (entry s l "warmup_epochs" = Some (VInt warmup_epochs)) as Hw'
    by (unfold entry; by rewrite Hd).
  unfold build_scheduler.
  rewrite (bind_ok _ _ _ _ _ (getitem_entry _ _ _ _ Hh)). cbv beta.
  rewrite (bind_ok _ _ _ _ _ (getitem_entry _ _ _ _ Hn)). cbv beta.
  unfold bind at 1, lift. cbn [py_int_mul].
  rewrite (bind_ok _ _ _ _ _ (getitem_entry _ _ _ _ Hh)). cbv beta.
  rewrite (bind_ok _ _ _ _ _ (getitem_entry _ _ _ _ Hw')). cbv beta.
  reflexivity.
Qed.

(** After [gpt2_builder] on the example configuration the epoch counts are
    the defaults 1 and 2, so 500 steps per epoch give 500 warm-up steps
    out of 1000. *)
Lemma C7_witness :
  let s := (gpt2_builder example_environ example_store).1 in
  section_entry s "hyperparameter" "warmup_epochs" = Some (VInt 1) /\
  section_entry s "hyperparameter" "num_epochs" = Some (VInt 2) /\
  build_scheduler 500 tt s
  = (s, inr {| schedule_optimizer := tt;
               num_warmup_steps := VInt 500;
               num_training_steps := VInt 1000 |}).
Proof.
  intros s.
  assert (section_entry s "hyperparameter" "warmup_epochs" = Some (VInt 1)) as Hw
    by reflexivity.
  assert (section_entry s "hyperparameter" "num_epochs" = Some (VInt 2)) as Hn
    by reflexivity.
  split; [exact Hw|]. split; [exact Hn|].
  exact (C7_build_scheduler_steps 500 tt s 1 2 Hw Hn).
Defined.

(** C8. [gpt2_builder] is idempotent on the store: with the environment
    fixed, a second run leaves [CONFIG], and every dictionary it refers
    to, exactly as the first run left them.  This holds for every store,
    in particular for those in which [CONFIG['model']['type']] is set, and
    whether the first run returned or raised. *)
Theorem C8_gpt2_builder_idempotent environ s :
  (gpt2_builder environ (gpt2_builder environ s).1).1 = (gpt2_builder environ s).1.
Proof.
  destruct (gpt2_builder environ s) as [s' r] eqn:H. cbn [fst].
  destruct (gpt2_builder_again environ s s' r H) as [r' ->]. reflexivity.
Qed.

(** C9. A run of [build_data] either raises before the assignment of
    line 103, and then leaves the store as it was, or has assigned
    [len(tokenizer)], for the tokenizer it built from the two files under
    [CONFIG['tokenizer']], to [CONFIG['model']['vocab_size']], whatever
    was or was not there before (the assignment has no guard); every
    other key of [CONFIG['model']] is then as before, and so is every
    other dictionary of the store.  A run that returns is of the second
    kind. *)
Theorem C9_build_data_overwrites_vocab_size
    load_from_disk GPT2Tokenizer get_world_size s s' r :
  build_data load_from_disk GPT2Tokenizer get_world_size s = (s', r) ->
  (exists e, r = inl e /\ s' = s) \/
  (exists dir tok lm dm,
     entry s CONFIG "tokenizer" = Some (VStr dir) /\
     GPT2Tokenizer (VStr (dir ++ "/vocab.json")) (VStr (dir ++ "/merges.txt"))
     = inr tok /\
     entry s CONFIG "model" = Some (VRef lm) /\ s !! lm = Some dm /\
     s' = <[lm := <["vocab_size" := VInt (tok_len tok)]> dm]> s /\
     section_entry s' "model" "vocab_size" = Some (VInt (tok_len tok)) /\
     (forall k, k <> "vocab_size" ->
        section_entry s' "model" k = section_entry s "model" k)).
Proof.
  intros H. unfold build_data in H.
  before_write H path Hpath (readonly_getitem (VRef CONFIG) "dataset").
  before_write H loaded Hloaded (readonly_lift (load_from_disk path)).
  before_write H dir1 Hdir1 (readonly_getitem (VRef CONFIG) "tokenizer").
  before_write H vocab Hvocab (readonly_lift (py_add_str dir1 "/vocab.json")).
  before_write H dir2 Hdir2 (readonly_getitem (VRef CONFIG) "tokenizer").
  before_write H merges Hmerges (readonly_lift (py_add_str dir2 "/merges.txt")).
  before_write H tok Htok (readonly_lift (GPT2Tokenizer vocab merges)).
  before_write H hyper Hhyper (readonly_getitem (VRef CONFIG) "hyperparameter").
  before_write H mode Hmode (readonly_getitem hyper "tokenize_mode").
  before_write H tokenized Htokenized (readonly_dataset_map tok mode loaded).
  before_write H model Hmodel (readonly_getitem (VRef CONFIG) "model").
  (* the assignment of line 103 *)
  apply getitem_ok_inv in Hmodel as (? & [= <-] & Hmodel).
  unfold bind at 1, setitem in H.
  destruct model as [| | | | |lm]; try (inversion H; subst; left; by eauto).
  destruct (s !! lm) as [dm|] eqn:Hdm; [|inversion H; subst; left; by eauto].
  (* what follows only reads *)
  assert (s' = <[lm := <["vocab_size" := VInt (tok_len tok)]> dm]> s) as ->.
  { revert H.
    match goal with
    | |- ?m ?s1 = _ -> _ =>
        assert (readonly m) as Hm by (cbv zeta; solve_readonly); apply Hm
    end. }
  clear H. right.
  apply getitem_ok_inv in Hdir1 as (? & [= <-] & Hdir1).
  apply getitem_ok_inv in Hdir2 as (? & [= <-] & Hdir2).
  rewrite Hdir1 in Hdir2. inversion Hdir2; subst dir2; clear Hdir2.
  destruct dir1 as [| | | |dir|]; try discriminate.
  inversion Hvocab; subst vocab. inversion Hmerges; subst merges.
  exists dir, tok, lm, dm.
  split; [exact Hdir1|]. split; [unfold lift in Htok; congruence|].
  split; [exact Hmodel|]. split; [exact Hdm|]. split; [reflexivity|].
  assert (entry (<[lm := <["vocab_size" := VInt (tok_len tok)]> dm]> s)
            CONFIG "model" = Some (VRef lm)) as Hmodel'.
  { rewrite entry_insert. destruct (decide (lm = CONFIG)) as [->|Hne]; [|exact Hmodel].
    unfold entry in Hmodel. rewrite Hdm in Hmodel.
    by rewrite lookup_insert_ne. }
  split.
  - rewrite (section_entry_at _ _ lm _ Hmodel').
    by rewrite entry_insert, decide_True, lookup_insert_eq.
  - intros k Hk.
    rewrite (section_entry_at _ _ lm _ Hmodel'), (section_entry_at _ _ lm _ Hmodel).
    rewrite entry_insert, decide_True by reflexivity.
    rewrite lookup_insert_ne by congruence. unfold entry. by rewrite Hdm.
Qed.

(** [build_data] after [gpt2_builder] on the example configuration: the
    preset put 50257 under [vocab_size], and [build_data] replaces it by
    the size of the tokenizer it loaded; [depth] stays. *)
Lemma C9_witness :
  let s := (gpt2_builder example_environ example_store).1 in
  section_entry s "model" "vocab_size" = Some (VInt 50257) /\
  exists s' loaders,
    example_build_data s = (s', inr loaders) /\
    section_entry s' "model" "vocab_size" = Some (VInt 256) /\
    section_entry s' "model" "depth" = Some (VInt 7).
Proof.
  intros s. split; [reflexivity|].
  assert (exists loaders, (example_build_data s).2 = inr loaders) as [loaders Hl]
    by (vm_compute; eauto).
  assert (example_build_data s = ((example_build_data s).1, inr loaders)) as H
    by (rewrite <- Hl; apply surjective_pairing).
  exists (example_build_data s).1, loaders. split; [exact H|].
  destruct (C9_build_data_overwrites_vocab_size _ _ _ _ _ _ H)
    as [(e & He & _) | (dir & tok & lm & dm & _ & Htok & _ & _ & _ & Hvocab & Hother)];
    [discriminate He|].
  injection Htok as <-. split; [exact Hvocab|].
  rewrite Hother by discriminate. reflexivity.
Defined.

(** C10, as stated, fails on a batch without a single token: the count,
    zero, is below [seq_length], and [tokenize] returns no chunk at all
    rather than one short chunk. *)
Lemma C10_no_token_no_chunk :
  section_entry seq4_store "model" "seq_length" = Some (VInt 4) /\
  concat (map char_codes [""; ""]) = [] /\
  (tokenize char_tokenizer {[ "text" := [""; ""] ]} (VStr "concat") seq4_store).2
  = inr [("input_ids", []); ("attention_mask", []); ("labels", [])].
Proof. split; [reflexivity|]. split; reflexivity. Qed.

(** C10, amended.  In ['concat'] mode with a positive [seq_length], let
    the tokens of a batch be the concatenation of its rows of
    [input_ids], the first column of the tokenizer's output.  [tokenize]
    returns, under [input_ids] and again under [labels]:
    when the token count is at least [seq_length], chunks of exactly
    [seq_length] tokens each, which together are the first
    [count // seq_length * seq_length] tokens (the rest is dropped);
    when the count is positive and below [seq_length], the single chunk
    of all tokens; and when the count is zero, no chunk. *)
Theorem C10_concat_chunks tok (examples : batch) texts s n rows others :
  section_entry s "model" "seq_length" = Some (VInt n) ->
  0 < n ->
  examples !! "text" = Some texts ->
  tok_encode tok texts = ("input_ids", rows) :: others ->
  let tokens := concat rows in
  let count := Z.of_nat (length tokens) in
  exists result cs,
    tokenize tok examples (VStr "concat") s = (s, inr result) /\
    assoc "input_ids" result = Some cs /\
    assoc "labels" result = Some cs /\
    (n <= count ->
       Forall (fun c => Z.of_nat (length c) = n) cs /\
       Z.of_nat (length cs) = count / n /\
       concat cs = take (Z.to_nat (count / n * n)) tokens) /\
    (0 < count < n -> cs = [tokens]) /\
    (count = 0 -> cs = []).
Proof.
  intros (lm & dm & Hm & Hd & Hseq)%section_entry_Some Hn Htext Henc tokens count.
  assert (entry s lm "seq_length" = Some (VInt n)) as Hseq'
    by (unfold entry; by rewrite Hd).
  set (rest := map (fun '(k, t) => (k, chunks n (cut_length n count) t))
                   (map (fun '(k, r) => (k, concat r)) others)).
  exists (assoc_set "labels" (chunks n (cut_length n count) tokens)
            (("input_ids", chunks n (cut_length n count) tokens) :: rest)),
         (chunks n (cut_length n count) tokens).
  split; [|split; [|split]].
  - unfold tokenize. unfold bind at 1, ret.
    rewrite (bind_ok _ _ _ _ _ (getitem_entry _ _ _ _ Hm)). cbv beta.
    rewrite (bind_ok _ _ _ _ _ (getitem_entry _ _ _ _ Hseq')). cbv beta.
    rewrite Htext, Henc.
    unfold bind, lift, concat_and_chunk. cbn [map seq_len_int].
    rewrite (proj2 (Z.eqb_neq n 0)) by lia.
    cbn [map assoc String.eqb Ascii.eqb Bool.eqb]. reflexivity.
  - reflexivity.
  - apply assoc_set_eq.
  - exact (chunks_cut_length tokens n Hn).
Qed.

Lemma C10_witness :
  section_entry seq4_store "model" "seq_length" = Some (VInt 4) /\
  exists result cs,
    tokenize char_tokenizer {[ "text" := three_texts ]} (VStr "concat") seq4_store
    = (seq4_store, inr result) /\
    assoc "input_ids" result = Some cs /\
    assoc "labels" result = Some cs /\
    Forall (fun c => Z.of_nat (length c) = 4) cs /\
    Z.of_nat (length cs) = 2 /\
    concat cs = [97; 98; 99; 100; 101; 102; 103; 104].
Proof.
  assert (section_entry seq4_store "model" "seq_length" = Some (VInt 4)) as Hseq
    by reflexivity.
  assert (({[ "text" := three_texts ]} : batch) !! "text" = Some three_texts)
    as Htext by reflexivity.
  split; [exact Hseq|].
  destruct (C10_concat_chunks char_tokenizer {[ "text" := three_texts ]}
              three_texts seq4_store 4 (map char_codes three_texts)
              [("attention_mask",
                map (fun t => map (fun _ => 1) (char_codes t)) three_texts)]
              Hseq eq_refl Htext eq_refl)
    as (result & cs & Hrun & Hids & Hlabels & Hfull & _ & _).
  exists result, cs.
  destruct Hfull as (Hall & Hlen & Hcat); [vm_compute; discriminate|].
  repeat split; assumption.
Defined.

(** * Part VI.  Further properties of the code *)

(** ** The shared dictionary of defaults *)

(** X1. When [CONFIG] has no ['hyperparameter'] key, [gpt2_builder]
    stores the module-level dictionary [_default_hyperparameters] itself
    under that key, not a copy of it: an assignment
    [CONFIG['hyperparameter'][k] = v] made after the call is an
    assignment to [_default_hyperparameters[k]]. *)
Theorem X1_hyperparameter_section_is_shared environ s k v :
  plain_config s ->
  entry s CONFIG "hyperparameter" = None ->
  exists s2,
    (hyper <- getitem (VRef CONFIG) "hyperparameter" ;; setitem hyper k v)
      (gpt2_builder environ s).1
    = (s2, inr tt) /\
    entry s2 DEFAULTS k = Some v.
Proof.
  intros Hplain Hno.
  destruct (merges_plain s Hplain)
    as (s1 & s2 & H1 & H2 & _ & Hnew & HD & _ & _).
  destruct (gpt2_builder_after_merges environ s s1 s2 H1 H2) as [-> _].
  destruct (read_environment environ s2) as [s3 r3] eqn:H3. cbn [fst].
  pose proof (evolving_read_environment _ _ _ _ H3) as He.
  assert (entry s3 CONFIG "hyperparameter" = Some (VRef DEFAULTS)) as Hh
    by (eapply evolves_keeps;
        [exact He | apply not_env_hyperparameter | exact (Hnew Hno)]).
  assert (s3 !! DEFAULTS = Some (list_to_map _default_hyperparameters)) as HD3
    by (by rewrite (read_environment_defaults _ _ _ _ H3)).
  eexists. split.
  - rewrite (bind_ok _ _ _ _ _ (getitem_entry _ _ _ _ Hh)). cbv beta.
    unfold setitem. rewrite HD3. reflexivity.
  - by rewrite entry_insert, decide_True, lookup_insert_eq.
Qed.

Lemma X1_witness :
  plain_config example_store /\
  exists s2,
    (hyper <- getitem (VRef CONFIG) "hyperparameter" ;;
     setitem hyper "batch_size" (VInt 8))
      (gpt2_builder example_environ example_store).1
    = (s2, inr tt) /\
    entry s2 DEFAULTS "batch_size" = Some (VInt 8).
Proof.
  split; [exact plain_example_store|].
  apply (X1_hyperparameter_section_is_shared example_environ example_store
           "batch_size" (VInt 8) plain_example_store).
  reflexivity.
Defined.

(** X2. [gpt2_builder] itself never writes to
    [_default_hyperparameters]: on a plain configuration, which includes
    the one a first call leaves behind, where [CONFIG['hyperparameter']]
    is that very dictionary, the dictionary is after the call what it was
    before. *)
Theorem X2_gpt2_builder_keeps_defaults environ s :
  plain_config s ->
  (gpt2_builder environ s).1 !! DEFAULTS = s !! DEFAULTS.
Proof.
  intros Hplain.
  destruct (merges_plain s Hplain)
    as (s1 & s2 & H1 & H2 & _ & _ & HD & _ & _).
  destruct Hplain as (_ & HD0 & _).
  destruct (gpt2_builder_after_merges environ s s1 s2 H1 H2) as [-> _].
  destruct (read_environment environ s2) as [s3 r3] eqn:H3. cbn [fst].
  rewrite (read_environment_defaults _ _ _ _ H3). by rewrite HD, HD0.
Qed.

Lemma X2_witness :
  let s := (gpt2_builder example_environ example_store).1 in
  entry s CONFIG "hyperparameter" = Some (VRef DEFAULTS) /\
  plain_config s /\
  (gpt2_builder example_environ s).1 !! DEFAULTS = s !! DEFAULTS.
Proof.
  intros s.
  assert (plain_config s) as Hplain.
  { split; [|split].
    - exists 3%positive, (VStr "gpt2_xl").
      split; [reflexivity|]. split; [reflexivity | discriminate].
    - reflexivity.
    - right. exists DEFAULTS. split; [reflexivity|]. by eexists. }
  split; [reflexivity|]. split; [exact Hplain|].
  exact (X2_gpt2_builder_keeps_defaults example_environ s Hplain).
Defined.

(** ** [gpt2_builder]: what a call leaves behind *)

(** The two merges on a plain configuration, with the stores they
    produce. *)
Lemma merges_plain_closed s :
  plain_config s ->
  exists lm dm t s1 s2,
    entry s CONFIG "model" = Some (VRef lm) /\ s !! lm = Some dm /\
    dm !! "type" = Some t /\
    s1 = <[lm := dm ∪ list_to_map (preset_of t)]> s /\
    merge_preset s = (s1, inr tt) /\
    merge_hyperparameters s1 = (s2, inr tt) /\
    ((entry s CONFIG "hyperparameter" = None /\
      exists c1, s1 !! CONFIG = Some c1 /\
        s2 = <[CONFIG := <["hyperparameter" := VRef DEFAULTS]> c1]> s1) \/
     (exists lh dh1,
        entry s CONFIG "hyperparameter" = Some (VRef lh) /\
        s1 !! lh = Some dh1 /\
        s2 = <[lh := dh1 ∪ list_to_map _default_hyperparameters]> s1)).
Proof.
  intros Hplain.
  destruct (merge_preset_plain s Hplain) as (s1' & H1' & Halloc & Hframe & HD1).
  destruct Hplain as ((lm & t & Hm & Ht & Hhash) & HD & Hh).
  destruct (proj1 (entry_Some _ _ _ _) Ht) as (dm & Hd & Hk).
  pose proof (merge_preset_run s lm dm t Hm Hd Hk Hhash) as H1.
  rewrite H1 in H1'. inversion H1'; subst s1'; clear H1'.
  set (s1 := <[lm := dm ∪ list_to_map (preset_of t)]> s) in *.
  assert (is_Some (s1 !! CONFIG)) as [c1 Hc1].
  { apply Halloc. apply entry_Some in Hm as (c & -> & _). eauto. }
  exists lm, dm, t, s1.
  destruct Hh as [Hh | (lh & Hh & Hlh)].
  - assert (c1 !! "hyperparameter" = None) as Hh1.
    { pose proof (Hframe CONFIG _ hyperparameter_not_preset_key) as E.
      rewrite Hh in E. unfold entry in E. by rewrite Hc1 in E. }
    eexists. split; [exact Hm|]. split; [exact Hd|]. split; [exact Hk|].
    split; [reflexivity|]. split; [exact H1|].
    split; [exact (merge_hyperparameters_absent s1 c1 Hc1 Hh1)|].
    left. eauto.
  - assert (entry s1 CONFIG "hyperparameter" = Some (VRef lh)) as Hh1
      by (by rewrite (Hframe CONFIG _ hyperparameter_not_preset_key)).
    assert (is_Some (s1 !! lh)) as [dh1 Hd1] by (by apply Halloc).
    eexists. split; [exact Hm|]. split; [exact Hd|]. split; [exact Hk|].
    split; [reflexivity|]. split; [exact H1|].
    split; [exact (merge_hyperparameters_dict s1 lh dh1 _ Hh1 Hd1 (eq_trans HD1 HD))|].
    right. eauto.
Qed.

(** X3. [gpt2_builder] keeps a configuration plain.  After the call,
    whether it returned or raised for a missing environment variable,
    [CONFIG['model']['type']] is as before, [_default_hyperparameters] is
    as the module built it, and [CONFIG['hyperparameter']] is a
    dictionary; so a later call gets through both merges again. *)
Theorem X3_gpt2_builder_keeps_plain environ s :
  plain_config s ->
  plain_config (gpt2_builder environ s).1 /\
  section_entry (gpt2_builder environ s).1 "model" "type"
  = section_entry s "model" "type" /\
  exists lh, entry (gpt2_builder environ s).1 CONFIG "hyperparameter"
             = Some (VRef lh) /\
             is_Some ((gpt2_builder environ s).1 !! lh).
Proof.
  intros Hplain.
  destruct (merges_plain s Hplain)
    as (s1 & s2 & H1 & H2 & _ & Hnew & HD & _ & _).
  pose proof (evolving_merge_preset _ _ _ H1) as He1.
  pose proof (evolving_merge_hyperparameters _ _ _ H2) as He2.
  destruct (gpt2_builder_after_merges environ s s1 s2 H1 H2) as [-> _].
  destruct (read_environment environ s2) as [s3 r3] eqn:H3. cbn [fst].
  pose proof (evolving_read_environment _ _ _ _ H3) as He3.
  pose proof (evolves_trans _ _ _ He1 (evolves_trans _ _ _ He2 He3)) as He.
  assert (s3 !! DEFAULTS = Some (list_to_map _default_hyperparameters)) as HD3
    by (by rewrite (read_environment_defaults _ _ _ _ H3)).
  destruct Hplain as ((lm & t & Hm & Ht & Hhash) & HD0 & Hh).
  assert (entry s3 CONFIG "model" = Some (VRef lm)) as Hm3
    by (eapply evolves_keeps; [exact He | apply not_env_model | exact Hm]).
  assert (entry s3 lm "type" = Some t) as Ht3
    by (eapply evolves_keeps; [exact He | apply not_env_type | exact Ht]).
  assert (exists lh, entry s3 CONFIG "hyperparameter" = Some (VRef lh) /\
                     is_Some (s3 !! lh)) as (lh & Hh3 & Hlh3).
  { destruct Hh as [Hno | (lh & Hh & Hlh)].
    - exists DEFAULTS. split; [|rewrite HD3; eauto].
      eapply evolves_keeps;
        [exact He3 | apply not_env_hyperparameter | exact (Hnew Hno)].
    - exists lh. split.
      + eapply evolves_keeps; [exact He | apply not_env_hyperparameter | exact Hh].
      + destruct He as [Ha _]. by apply Ha. }
  split; [|split].
  - split; [|split]; [by exists lm, t | exact HD3 | right; by exists lh].
  - by rewrite (section_entry_at _ _ lm _ Hm3), (section_entry_at _ _ lm _ Hm), Ht3, Ht.
  - by exists lh.
Qed.

Lemma X3_witness :
  plain_config example_store /\
  plain_config (gpt2_builder example_environ example_store).1 /\
  plain_config
    (gpt2_builder environ_without_tokenizer
       (gpt2_builder example_environ example_store).1).1.
Proof.
  split; [exact plain_example_store|].
  pose proof (X3_gpt2_builder_keeps_plain example_environ example_store
                plain_example_store) as (Hplain & _).
  split; [exact Hplain|].
  exact (proj1 (X3_gpt2_builder_keeps_plain environ_without_tokenizer _ Hplain)).
Defined.

(** X4. [gpt2_builder] is not atomic.  When DATA is set and TOKENIZER is
    not, the call raises after everything but the last assignment has
    been done: the store it leaves is the store of the call that returns
    (the same environment with a value for TOKENIZER) before
    [CONFIG['tokenizer']] is assigned; in particular [CONFIG['dataset']]
    already holds the value of DATA. *)
Theorem X4_gpt2_builder_not_atomic environ s data :
  plain_config s ->
  environ !! "DATA" = Some data -> environ !! "TOKENIZER" = None ->
  exists c,
    (gpt2_builder environ s).1 !! CONFIG = Some c /\
    c !! "dataset" = Some (VStr data) /\
    forall path,
      (gpt2_builder (<["TOKENIZER" := path]> environ) s).1
      = <[CONFIG := <["tokenizer" := VStr path]> c]> (gpt2_builder environ s).1.
Proof.
  intros Hplain Hdata Htok.
  destruct (merges_plain s Hplain)
    as (s1 & s2 & H1 & H2 & _ & _ & _ & [c Hc] & _).
  destruct (gpt2_builder_after_merges environ s s1 s2 H1 H2) as [-> _].
  rewrite read_environment_run, Hdata, Hc, Htok. cbn [fst].
  exists (<["dataset" := VStr data]> c).
  split; [by rewrite lookup_insert_eq|]. split; [by rewrite lookup_insert_eq|].
  intros path.
  destruct (gpt2_builder_after_merges (<["TOKENIZER" := path]> environ) s s1 s2 H1 H2)
    as [-> _].
  rewrite read_environment_run, Hc.
  rewrite lookup_insert_ne by discriminate. rewrite Hdata.
  rewrite lookup_insert_eq. cbn [fst]. by rewrite insert_insert_eq.
Qed.

Lemma X4_witness :
  plain_config example_store /\
  exists c,
    (gpt2_builder environ_without_tokenizer example_store).1 !! CONFIG = Some c /\
    c !! "dataset" = Some (VStr "/data/wiki") /\
    forall path,
      (gpt2_builder (<["TOKENIZER" := path]> environ_without_tokenizer)
         example_store).1
      = <[CONFIG := <["tokenizer" := VStr path]> c]>
          (gpt2_builder environ_without_tokenizer example_store).1.
Proof.
  split; [exact plain_example_store|].
  apply (X4_gpt2_builder_not_atomic environ_without_tokenizer example_store
           "/data/wiki" plain_example_store); reflexivity.
Defined.

Lemma entry_insert_Some (s : store) l0 (d : dict) l k v :
  entry (<[l0 := d]> s) l k = Some v ->
  (l = l0 /\ d !! k = Some v) \/ (l <> l0 /\ entry s l k = Some v).
Proof.
  rewrite entry_insert. destruct (decide (l0 = l)) as [<-|Hne]; [by left|].
  right. split; [congruence | assumption].
Qed.

Lemma insert_is_Some (s : store) (l0 : loc) (d0 d : dict) (l : loc) :
  s !! l0 = Some d0 -> is_Some (<[l0 := d]> s !! l) <-> is_Some (s !! l).
Proof.
  intros H0. destruct (decide (l0 = l)) as [<-|Hne].
  - rewrite lookup_insert_eq, H0. split; eauto.
  - by rewrite lookup_insert_ne.
Qed.

(** The entries the environment phase leaves: those it found, and the
    two it assigns. *)
Lemma read_environment_entries environ s s' r :
  read_environment environ s = (s', r) ->
  (forall l, is_Some (s' !! l) <-> is_Some (s !! l)) /\
  (forall l k v, entry s' l k = Some v ->
     entry s l k = Some v \/
     (l = CONFIG /\ k = "dataset" /\ VStr <$> environ !! "DATA" = Some v) \/
     (l = CONFIG /\ k = "tokenizer" /\ VStr <$> environ !! "TOKENIZER" = Some v)).
Proof.
  rewrite read_environment_run.
  destruct (environ !! "DATA") as [data|]; [|intros [= <- _]; by split; auto].
  destruct (s !! CONFIG) as [c|] eqn:Hc; [|intros [= <- _]; by split; auto].
  destruct (environ !! "TOKENIZER") as [tokenizer|]; intros [= <- _].
  - split; [intros l; by apply (insert_is_Some _ _ c)|].
    intros l k v [[-> Hv]|[_ Hv]]%entry_insert_Some; [|by left].
    destruct (decide (k = "tokenizer")) as [->|Hk1].
    { rewrite lookup_insert_eq in Hv. right; right. cbn. by rewrite Hv. }
    rewrite lookup_insert_ne in Hv by congruence.
    destruct (decide (k = "dataset")) as [->|Hk2].
    { rewrite lookup_insert_eq in Hv. right; left. cbn. by rewrite Hv. }
    rewrite lookup_insert_ne in Hv by congruence.
    left. unfold entry. by rewrite Hc.
  - split; [intros l; by apply (insert_is_Some _ _ c)|].
    intros l k v [[-> Hv]|[_ Hv]]%entry_insert_Some; [|by left].
    destruct (decide (k = "dataset")) as [->|Hk2].
    { rewrite lookup_insert_eq in Hv. right; left. cbn. by rewrite Hv. }
    rewrite lookup_insert_ne in Hv by congruence.
    left. unfold entry. by rewrite Hc.
Qed.

(** X5. [gpt2_builder] creates only the entries its three steps name.  On
    a plain configuration, every entry of the store after the call was
    there before with the same value, or is an item of the preset in the
    dictionary [CONFIG['model']] refers to, or an item of
    [_default_hyperparameters] in the dictionary
    [CONFIG['hyperparameter']] refers to, or one of the top-level
    ['hyperparameter'] (the shared dictionary of defaults, when the key
    was missing), ['dataset'] and ['tokenizer'] (the values of DATA and
    TOKENIZER).  No dictionary is created or removed. *)
Theorem X5_gpt2_builder_new_entries environ s :
  plain_config s ->
  (forall l, is_Some ((gpt2_builder environ s).1 !! l) <-> is_Some (s !! l)) /\
  (forall l k v,
     entry (gpt2_builder environ s).1 l k = Some v ->
     entry s l k = Some v \/
     (entry s CONFIG "model" = Some (VRef l) /\
      exists t, entry s l "type" = Some t /\ (k, v) ∈ preset_of t) \/
     (entry s CONFIG "hyperparameter" = Some (VRef l) /\
      (k, v) ∈ _default_hyperparameters) \/
     (l = CONFIG /\ entry s CONFIG "hyperparameter" = None /\
      k = "hyperparameter" /\ v = VRef DEFAULTS) \/
     (l = CONFIG /\ k = "dataset" /\ VStr <$> environ !! "DATA" = Some v) \/
     (l = CONFIG /\ k = "tokenizer" /\ VStr <$> environ !! "TOKENIZER" = Some v)).
Proof.
  intros Hplain.
  destruct (merges_plain_closed s Hplain)
    as (lm & dm & t & s1 & s2 & Hm & Hd & Ht & Es1 & H1 & H2 & Hcases).
  destruct (gpt2_builder_after_merges environ s s1 s2 H1 H2) as [-> _].
  destruct (read_environment environ s2) as [s3 r3] eqn:H3. cbn [fst].
  destruct (read_environment_entries _ _ _ _ H3) as [Ha3 He3].
  assert (forall l, is_Some (s1 !! l) <-> is_Some (s !! l)) as Ha1
    by (intros l; rewrite Es1; by apply (insert_is_Some _ _ dm)).
  assert (forall l k v, entry s1 l k = Some v ->
            entry s l k = Some v \/
            (l = lm /\ (k, v) ∈ preset_of t)) as He1.
  { intros l k v. rewrite Es1.
    intros [[-> Hv]|[_ Hv]]%entry_insert_Some; [|by left].
    apply lookup_union_Some_raw in Hv as [Hv | [_ Hv]].
    - left. unfold entry. by rewrite Hd.
    - right. split; [reflexivity|]. by apply elem_of_list_to_map_2. }
  assert (entry s lm "type" = Some t) as Ht' by (unfold entry; by rewrite Hd).
  destruct Hcases as [(Hno & c1 & Hc1 & Es2) | (lh & dh1 & Hh & Hd1 & Es2)].
  - split.
    { intros l. rewrite Ha3, Es2, <- Ha1. by apply (insert_is_Some _ _ c1). }
    intros l k v Hv. apply He3 in Hv as [Hv | Hv]; [|by auto 10].
    rewrite Es2 in Hv. apply entry_insert_Some in Hv as [[-> Hv]|[_ Hv]].
    + destruct (decide (k = "hyperparameter")) as [->|Hk].
      * rewrite lookup_insert_eq in Hv. inversion Hv; subst. by auto 10.
      * rewrite lookup_insert_ne in Hv by congruence.
        assert (entry s1 CONFIG k = Some v) as Hv1 by (unfold entry; by rewrite Hc1).
        apply He1 in Hv1 as [?|[E ?]]; [by left|]. subst lm. right; left. split; [exact Hm|]. exists t. by split.
    + apply He1 in Hv as [?|[E ?]]; [by left|]. subst lm. right; left. split; [exact Hm|]. exists t. by split.
  - split.
    { intros l. rewrite Ha3, Es2, <- Ha1. by apply (insert_is_Some _ _ dh1). }
    intros l k v Hv. apply He3 in Hv as [Hv | Hv]; [|by auto 10].
    rewrite Es2 in Hv. apply entry_insert_Some in Hv as [[-> Hv]|[_ Hv]].
    + apply lookup_union_Some_raw in Hv as [Hv | [_ Hv]].
      * assert (entry s1 lh k = Some v) as Hv1 by (unfold entry; by rewrite Hd1).
        apply He1 in Hv1 as [?|[E ?]]; [by left|]. subst lm. right; left. split; [exact Hm|]. exists t. by split.
      * right; right; left. split; [exact Hh|]. by apply elem_of_list_to_map_2.
    + apply He1 in Hv as [?|[E ?]]; [by left|]. subst lm. right; left. split; [exact Hm|]. exists t. by split.
Qed.

Lemma X5_witness :
  plain_config example_store /\
  entry (gpt2_builder example_environ example_store).1 3%positive "num_heads"
  = Some (VInt 25) /\
  ("num_heads", VInt 25) ∈ preset_of (VStr "gpt2_xl").
Proof.
  split; [exact plain_example_store|].
  assert (entry (gpt2_builder example_environ example_store).1 3%positive "num_heads"
          = Some (VInt 25)) as Hv by reflexivity.
  split; [exact Hv|].
  destruct (X5_gpt2_builder_new_entries example_environ example_store
              plain_example_store) as [_ Hnew].
  destruct (Hnew _ _ _ Hv)
    as [H | [(_ & t & Ht & H) | [(H & _) | [(H & _) | [(H & _) | (H & _)]]]]];
    try discriminate H.
  injection Ht as <-. exact H.
Defined.

(** ** [build_model], [build_optimizer] and [build_scheduler] after
    [gpt2_builder] *)

Lemma assoc_list_to_map (items : list (string * pyval)) k :
  (list_to_map items : dict) !! k = assoc k items.
Proof.
  induction items as [|[k' v] rest IH]; [reflexivity|].
  cbn [list_to_map foldr assoc fst snd]. destruct (String.eqb_spec k k') as [->|Hne].
  - apply lookup_insert_eq.
  - rewrite lookup_insert_ne by congruence. exact IH.
Qed.

Lemma read_environment_other environ s s' r l k :
  k <> "dataset" -> k <> "tokenizer" ->
  read_environment environ s = (s', r) -> entry s' l k = entry s l k.
Proof.
  intros Hd Ht. rewrite read_environment_run.
  destruct (environ !! "DATA") as [data|]; [|by intros [= <- _]].
  destruct (s !! CONFIG) as [c|] eqn:Hc; [|by intros [= <- _]].
  assert (entry s CONFIG k = c !! k) as Ec by (unfold entry; by rewrite Hc).
  destruct (environ !! "TOKENIZER"); intros [= <- _];
    rewrite entry_insert; destruct (decide (CONFIG = l)) as [<-|]; try reflexivity;
    rewrite ?lookup_insert_ne by congruence; by rewrite Ec.
Qed.

(** The model section after [gpt2_builder] on a plain configuration: the
    same dictionary, and under each preset key the earlier value or else
    the preset's. *)
Lemma gpt2_builder_model_entry environ s lm k :
  plain_config s -> entry s CONFIG "model" = Some (VRef lm) ->
  k ∈ "type" :: preset_keys ->
  entry (gpt2_builder environ s).1 CONFIG "model" = Some (VRef lm) /\
  exists t, entry s lm "type" = Some t /\
  entry (gpt2_builder environ s).1 lm k
  = match entry s lm k with
    | Some v => Some v
    | None => assoc k (preset_of t)
    end.
Proof.
  intros Hplain Hm0 Hk.
  destruct (merges_plain_closed s Hplain)
    as (lm' & dm & t & s1 & s2 & Hm & Hd & Ht & Es1 & H1 & H2 & Hcases).
  assert (lm' = lm) as -> by congruence.
  destruct (gpt2_builder_after_merges environ s s1 s2 H1 H2) as [-> _].
  destruct (read_environment environ s2) as [s3 r3] eqn:H3. cbn [fst].
  assert (k <> "dataset" /\ k <> "tokenizer" /\ k <> "hyperparameter" /\
          k <> "model" /\ k ∉ default_keys) as (Hk1 & Hk2 & Hk3 & Hk4 & Hk5).
  { apply list_elem_of_In in Hk. simpl in Hk.
    repeat split; try (intros ->; intuition discriminate).
    intros Hin%list_elem_of_In. simpl in Hin.
    repeat (destruct Hk as [<- | Hk]; [intuition discriminate|]). exact Hk. }
  assert (entry s1 lm k = match dm !! k with
                          | Some v => Some v
                          | None => assoc k (preset_of t)
                          end) as E1.
  { rewrite Es1, entry_insert, decide_True by reflexivity.
    destruct (dm !! k) as [v|] eqn:Hv.
    - by apply lookup_union_Some_l.
    - rewrite lookup_union_r by exact Hv. apply assoc_list_to_map. }
  assert (entry s1 CONFIG "model" = Some (VRef lm)) as Hm1.
  { rewrite Es1, entry_insert. destruct (decide (lm = CONFIG)) as [->|]; [|exact Hm].
    apply lookup_union_Some_l. unfold entry in Hm. by rewrite Hd in Hm. }
  assert (entry s2 lm k = entry s1 lm k /\
          entry s2 CONFIG "model" = entry s1 CONFIG "model") as [E2 Hm2].
  { destruct Hcases as [(Hno & c1 & Hc1 & ->) | (lh & dh1 & Hh & Hd1 & ->)];
      rewrite !entry_insert.
    - split.
      + destruct (decide (CONFIG = lm)) as [<-|]; [|reflexivity].
        rewrite lookup_insert_ne by congruence. unfold entry. by rewrite Hc1.
      + rewrite decide_True, lookup_insert_ne by done. unfold entry. by rewrite Hc1.
    - split.
      + destruct (decide (lh = lm)) as [->|]; [|reflexivity].
        rewrite lookup_union_l by (by apply defaults_other).
        unfold entry. by rewrite Hd1.
      + destruct (decide (lh = CONFIG)) as [->|]; [|reflexivity].
        rewrite lookup_union_l.
        * unfold entry. by rewrite Hd1.
        * apply defaults_other. intros Hin%list_elem_of_In. simpl in Hin.
          intuition discriminate. }
  split.
  - rewrite (read_environment_other _ _ _ _ CONFIG "model" ltac:(done) ltac:(done) H3).
    by rewrite Hm2.
  - exists t. split; [unfold entry; by rewrite Hd|].
    rewrite (read_environment_other _ _ _ _ lm k Hk1 Hk2 H3), E2, E1.
    unfold entry. by rewrite Hd.
Qed.

(** The same for a key of the section, read through [CONFIG]. *)
Lemma gpt2_builder_configured environ s t k :
  plain_config s -> section_entry s "model" "type" = Some t ->
  k ∈ preset_keys ->
  section_entry (gpt2_builder environ s).1 "model" k = configured s t k.
Proof.
  intros Hplain Ht Hk.
  destruct (section_entry_Some _ _ _ _ Ht) as (lm & dm & Hm & Hd & Htype).
  destruct (gpt2_builder_model_entry environ s lm k Hplain Hm) as (Hm' & t' & Ht' & E).
  { by constructor. }
  rewrite (section_entry_at _ _ lm _ Hm) in Ht.
  assert (t' = t) as -> by congruence.
  unfold configured. by rewrite (section_entry_at _ _ lm _ Hm'), (section_entry_at _ _ lm _ Hm).
Qed.

Lemma gpt2_builder_hyperparameter_entry environ s k v :
  plain_config s -> (k, v) ∈ _default_hyperparameters ->
  section_entry (gpt2_builder environ s).1 "hyperparameter" k
  = Some (default v (section_entry s "hyperparameter" k)).
Proof.
  intros Hplain Hkv.
  destruct (merges_plain s Hplain) as (s1 & s2 & H1 & H2 & Hdef & _).
  destruct (gpt2_builder_after_merges environ s s1 s2 H1 H2) as [-> _].
  destruct (read_environment environ s2) as [s3 r3] eqn:H3. cbn [fst].
  eapply section_entry_keeps;
    [exact (evolving_read_environment _ _ _ _ H3) | apply not_env_hyperparameter
    | | exact (Hdef k v Hkv)].
  intros l. apply default_key_not_env.
  rewrite <- defaults_keys. apply list_elem_of_fmap. by exists (k, v).
Qed.

(** Reading a section entry that is there. *)
Lemma getitem_section s section k v :
  section_entry s section k = Some v ->
  exists o, getitem (VRef CONFIG) section s = (s, inr o) /\
            getitem o k s = (s, inr v).
Proof.
  intros (l & d & Hl & Hd & Hv)%section_entry_Some.
  exists (VRef l). split; [by apply getitem_entry|].
  apply getitem_entry. unfold entry. by rewrite Hd.
Qed.

(** [build_model] where the five keys are there and ['checkpoint'] is a
    boolean or absent. *)
Lemma build_model_run s vocab positions embd layer head checkpoint :
  section_entry s "model" "vocab_size" = Some vocab ->
  section_entry s "model" "seq_length" = Some positions ->
  section_entry s "model" "hidden_size" = Some embd ->
  section_entry s "model" "depth" = Some layer ->
  section_entry s "model" "num_heads" = Some head ->
  default (VBool false) (section_entry s "model" "checkpoint") = VBool checkpoint ->
  build_model s
  = (s, inr (ModelFromHF {| vocab_size := vocab; n_positions := positions;
                            n_embd := embd; n_layer := layer; n_head := head;
                            use_cache := negb checkpoint |}
                         GPT2LMHeadModel)).
Proof.
  intros Hv Hp He Hl Hh Hc.
  destruct (section_entry_Some _ _ _ _ Hv) as (lm & dm & Hm & Hd & Hv').
  rewrite (section_entry_at _ _ lm _ Hm) in Hp. rewrite (section_entry_at _ _ lm _ Hm) in He.
  rewrite (section_entry_at _ _ lm _ Hm) in Hl. rewrite (section_entry_at _ _ lm _ Hm) in Hh.
  rewrite (section_entry_at _ _ lm _ Hm) in Hc.
  unfold entry in Hp, He, Hl, Hh, Hc. rewrite Hd in Hp, He, Hl, Hh, Hc.
  assert (forall k v, dm !! k = Some v -> getitem (VRef lm) k s = (s, inr v)) as G
    by (intros k v Hk; apply getitem_entry; unfold entry; by rewrite Hd).
  unfold build_model.
  rewrite (bind_ok _ _ _ _ _ (getitem_entry _ _ _ _ Hm)). cbv beta.
  rewrite (bind_ok _ _ _ _ _ (G _ _ Hv')). cbv beta.
  rewrite (bind_ok _ _ _ _ _ (G _ _ Hp)). cbv beta.
  rewrite (bind_ok _ _ _ _ _ (G _ _ He)). cbv beta.
  rewrite (bind_ok _ _ _ _ _ (G _ _ Hl)). cbv beta.
  rewrite (bind_ok _ _ _ _ _ (G _ _ Hh)). cbv beta.
  rewrite (bind_ok _ _ _ _ _ (getitem_entry _ _ _ _ Hm)). cbv beta.
  unfold bind, dict_get, py_not, ret. by rewrite Hd, Hc.
Qed.



(** X7. The keys [build_model] needs.  Where [CONFIG['model']] is a
    dictionary, [build_model] raises [KeyError(k)] exactly when [k] is the
    first of ['vocab_size'], ['seq_length'], ['hidden_size'], ['depth'],
    ['num_heads'] (the order of the arguments of line 137) that the
    dictionary lacks.  A missing ['checkpoint'] is never an error: it is
    read with [.get]. *)
Theorem X7_build_model_missing_key s lm dm k :
  entry s CONFIG "model" = Some (VRef lm) -> s !! lm = Some dm ->
  (build_model s).2 = inl (KeyError k) <->
  exists i, model_keys !! i = Some k /\ dm !! k = None /\
            forall j k', (j < i)%nat -> model_keys !! j = Some k' ->
                         is_Some (dm !! k').
Proof.
  intros Hm Hd.
  assert (getitem (VRef CONFIG) "model" s = (s, inr (VRef lm))) as Gm
    by (by apply getitem_entry).
  unfold build_model. rewrite (bind_ok _ _ _ _ _ Gm). cbv beta.
  unfold bind at 1, getitem at 1. rewrite Hd.
  destruct (dm !! "vocab_size") as [v1|] eqn:E1.
  2:{ cbn. split.
      - intros [= <-]. exists 0%nat. split; [reflexivity|]. split; [exact E1|]. lia.
      - intros (i & Hi & Hk & Hbefore). f_equal. f_equal.
        destruct i as [|i]; [by injection Hi|].
        destruct (Hbefore 0%nat "vocab_size" ltac:(lia) eq_refl) as [? ?]. congruence. }
  unfold bind at 1, getitem at 1. rewrite Hd.
  destruct (dm !! "seq_length") as [v2|] eqn:E2.
  2:{ cbn. split.
      - intros [= <-]. exists 1%nat. split; [reflexivity|]. split; [exact E2|].
        intros [|j] k' Hj; [intros [= <-]; eauto | lia].
      - intros (i & Hi & Hk & Hbefore). f_equal. f_equal.
        destruct i as [|[|i]]; [injection Hi as <-; congruence | by injection Hi |].
        destruct (Hbefore 1%nat "seq_length" ltac:(lia) eq_refl) as [? ?]. congruence. }
  unfold bind at 1, getitem at 1. rewrite Hd.
  destruct (dm !! "hidden_size") as [v3|] eqn:E3.
  2:{ cbn. split.
      - intros [= <-]. exists 2%nat. split; [reflexivity|]. split; [exact E3|].
        intros [|[|j]] k' Hj; [intros [= <-]; eauto .. | lia].
      - intros (i & Hi & Hk & Hbefore). f_equal. f_equal.
        destruct i as [|[|[|i]]];
          [injection Hi as <-; congruence .. | by injection Hi |].
        destruct (Hbefore 2%nat "hidden_size" ltac:(lia) eq_refl) as [? ?]. congruence. }
  unfold bind at 1, getitem at 1. rewrite Hd.
  destruct (dm !! "depth") as [v4|] eqn:E4.
  2:{ cbn. split.
      - intros [= <-]. exists 3%nat. split; [reflexivity|]. split; [exact E4|].
        intros [|[|[|j]]] k' Hj; [intros [= <-]; eauto .. | lia].
      - intros (i & Hi & Hk & Hbefore). f_equal. f_equal.
        destruct i as [|[|[|[|i]]]];
          [injection Hi as <-; congruence .. | by injection Hi |].
        destruct (Hbefore 3%nat "depth" ltac:(lia) eq_refl) as [? ?]. congruence. }
  unfold bind at 1, getitem at 1. rewrite Hd.
  destruct (dm !! "num_heads") as [v5|] eqn:E5.
  2:{ cbn. split.
      - intros [= <-]. exists 4%nat. split; [reflexivity|]. split; [exact E5|].
        intros [|[|[|[|j]]]] k' Hj; [intros [= <-]; eauto .. | lia].
      - intros (i & Hi & Hk & Hbefore). f_equal. f_equal.
        destruct i as [|[|[|[|[|i]]]]];
          [injection Hi as <-; congruence .. | by injection Hi |].
        discriminate Hi. }
  rewrite (bind_ok _ _ _ _ _ Gm). cbv beta.
  split.
  - unfold bind, dict_get, py_not, ret. rewrite Hd.
    destruct (default (VBool false) (dm !! "checkpoint")) as [| | | | |l];
      try discriminate.
    destruct (s !! l); discriminate.
  - intros (i & Hi & Hk & _). exfalso.
    destruct i as [|[|[|[|[|i]]]]]; try discriminate Hi;
      injection Hi as <-; congruence.
Qed.

Lemma X7_witness :
  entry seq4_store CONFIG "model" = Some (VRef 3%positive) /\
  (build_model seq4_store).2 = inl (KeyError "vocab_size") /\
  (build_model (gpt2_builder environ_without_tokenizer seq4_store).1).2
  <> inl (KeyError "vocab_size").
Proof.
  split; [reflexivity|]. split.
  - apply (X7_build_model_missing_key seq4_store 3%positive
             {[ "type" := VStr "gpt2"; "seq_length" := VInt 4 ]} "vocab_size");
      [reflexivity | reflexivity |].
    exists 0%nat. split; [reflexivity|]. split; [reflexivity|]. lia.
  - vm_compute. discriminate.
Defined.



(** X9. [build_scheduler] after [gpt2_builder].  On a plain configuration
    whose epoch counts are integers or are left to the defaults (2 epochs,
    1 warm-up epoch), the call returns and the schedule gets
    [epoch_steps] times the configured or default count for each of the
    two step numbers. *)
Theorem X9_build_scheduler_after_gpt2_builder
    {optimizer : Type} environ s epoch_steps (opt : optimizer) epochs warmup :
  plain_config s ->
  default (VInt 2) (section_entry s "hyperparameter" "num_epochs") = VInt epochs ->
  default (VInt 1) (section_entry s "hyperparameter" "warmup_epochs") = VInt warmup ->
  build_scheduler epoch_steps opt (gpt2_builder environ s).1
  = ((gpt2_builder environ s).1,
     inr {| schedule_optimizer := opt;
            num_warmup_steps := VInt (epoch_steps * warmup);
            num_training_steps := VInt (epoch_steps * epochs) |}).
Proof.
  intros Hplain He Hw.
  pose proof (gpt2_builder_hyperparameter_entry environ s "num_epochs" _ Hplain
                ltac:(apply list_elem_of_In; simpl; tauto)) as Hne.
  pose proof (gpt2_builder_hyperparameter_entry environ s "warmup_epochs" _ Hplain
                ltac:(apply list_elem_of_In; simpl; tauto)) as Hwe.
  rewrite He in Hne. rewrite Hw in Hwe.
  destruct (getitem_section _ _ _ _ Hne) as (o1 & G1 & G2).
  destruct (getitem_section _ _ _ _ Hwe) as (o2 & G3 & G4).
  unfold build_scheduler.
  rewrite (bind_ok _ _ _ _ _ G1). cbv beta.
  rewrite (bind_ok _ _ _ _ _ G2). cbv beta.
  unfold bind at 1, lift, py_int_mul.
  rewrite (bind_ok _ _ _ _ _ G3). cbv beta.
  rewrite (bind_ok _ _ _ _ _ G4). reflexivity.
Qed.

Lemma X9_witness :
  plain_config example_store /\
  (build_scheduler 100 tt (gpt2_builder example_environ example_store).1).2
  = inr {| schedule_optimizer := tt;
           num_warmup_steps := VInt 100;
           num_training_steps := VInt 200 |}.
Proof.
  split; [exact plain_example_store|].
  by rewrite (X9_build_scheduler_after_gpt2_builder example_environ example_store
                100 tt 2 1 plain_example_store eq_refl eq_refl).
Defined.

Lemma readonly_dict_get o k dflt : readonly (dict_get o k dflt).
Proof.
  intros s s' r. unfold dict_get.
  destruct o as [| | | | |l]; try (by intros [= <- _]).
  destruct (s !! l); by intros [= <- _].
Qed.

Lemma readonly_py_not v : readonly (py_not v).
Proof.
  intros s s' r. unfold py_not.
  destruct v as [| | | | |l]; try (by intros [= <- _]).
  destruct (s !! l); by intros [= <- _].
Qed.

(** X10. Four of the functions only read the configuration: whatever
    [build_model], [build_optimizer], [build_scheduler] and [tokenize] are
    given, and whether they return or raise, every dictionary is
    afterwards as it was.  ([build_data] is the one that writes, at line
    103.) *)
Theorem X10_builders_only_read
    {params optimizer : Type} s (p : params) epoch_steps (opt : optimizer)
    tok examples mode :
  (build_model s).1 = s /\
  (build_optimizer p s).1 = s /\
  (build_scheduler epoch_steps opt s).1 = s /\
  (tokenize tok examples mode s).1 = s.
Proof.
  pose proof readonly_dict_get. pose proof readonly_py_not.
  assert (readonly build_model) as Hm by (unfold build_model; solve_readonly).
  assert (readonly (build_optimizer p)) as Ho
    by (unfold build_optimizer; solve_readonly).
  assert (readonly (build_scheduler epoch_steps opt)) as Hs
    by (unfold build_scheduler; solve_readonly).
  repeat split.
  - destruct (build_model s) as [s' r] eqn:E. exact (Hm _ _ _ E).
  - destruct (build_optimizer p s) as [s' r] eqn:E. exact (Ho _ _ _ E).
  - destruct (build_scheduler epoch_steps opt s) as [s' r] eqn:E. exact (Hs _ _ _ E).
  - destruct (tokenize tok examples mode s) as [s' r] eqn:E.
    exact (readonly_tokenize _ _ _ _ _ _ E).
Qed.

(** ** [tokenize]: sequence lengths that are not positive, and the other
    columns *)

Lemma div_negative_small (x n : Z) : n < 0 -> n < x -> x / n <= 0.
Proof.
  intros Hn Hx. rewrite <- Z.div_opp_opp by lia.
  assert (- x / - n < 1); [|lia].
  apply Z.div_lt_upper_bound; lia.
Qed.

Lemma chunks_negative (t : list Z) (n total : Z) :
  n < 0 -> 0 <= total -> chunks n (cut_length n total) t = [].
Proof.
  intros Hn Htotal. unfold chunks, cut_length, range0.
  rewrite (proj2 (Z.leb_le n total)) by lia.
  rewrite (proj2 (Z.ltb_ge 0 n)) by lia.
  pose proof (div_negative_small total n Hn ltac:(lia)) as Hq.
  pose proof (div_negative_small (total / n * n + n + 1) n Hn ltac:(nia)) as Hc.
  by replace (Z.to_nat ((total / n * n + n + 1) / n)) with 0%nat by lia.
Qed.

Lemma assoc_map_columns {A B} (f : A -> B) k (d : list (string * A)) :
  assoc k (map (fun '(k', a) => (k', f a)) d) = f <$> assoc k d.
Proof.
  induction d as [|[k' a] rest IH]; [reflexivity|].
  cbn [map assoc]. by destruct (String.eqb k k').
Qed.

Lemma Forall_assoc_set {A} (P : string * A -> Prop) k v d :
  P (k, v) -> Forall P d -> Forall P (assoc_set k v d).
Proof.
  intros Hv. induction 1 as [|[k' v'] rest Hx Hrest IH]; cbn [assoc_set].
  - by repeat constructor.
  - destruct (String.eqb k k'); by constructor.
Qed.

(** The run of [tokenize] in ['concat'] mode up to the slicing. *)
Lemma tokenize_concat_run tok (examples : batch) texts s seq_len :
  section_entry s "model" "seq_length" = Some seq_len ->
  examples !! "text" = Some texts ->
  tokenize tok examples (VStr "concat") s
  = (s, match concat_and_chunk seq_len (tok_encode tok texts) with
        | inl e => inl e
        | inr result =>
            match assoc "input_ids" result with
            | None => inl (KeyError "input_ids")
            | Some input_ids => inr (assoc_set "labels" input_ids result)
            end
        end).
Proof.
  intros (lm & dm & Hm & Hd & Hseq)%section_entry_Some Htext.
  assert (entry s lm "seq_length" = Some seq_len) as Hseq'
    by (unfold entry; by rewrite Hd).
  unfold tokenize. unfold bind at 1, ret.
  rewrite (bind_ok _ _ _ _ _ (getitem_entry _ _ _ _ Hm)). cbv beta.
  rewrite (bind_ok _ _ _ _ _ (getitem_entry _ _ _ _ Hseq')). cbv beta.
  rewrite Htext. unfold bind, lift, ret, raise.
  destruct (concat_and_chunk seq_len (tok_encode tok texts)) as [e|result];
    [reflexivity|].
  by destruct (assoc "input_ids" result).
Qed.

(** X11. A sequence length that is not positive.  In ['concat'] mode, for
    a batch with a ['text'] column whose encoding has ['input_ids'],
    [tokenize] raises [ZeroDivisionError] when
    [CONFIG['model']['seq_length']] is 0; when it is negative the call
    returns without any error and every column of the result, ['labels']
    included, is empty: all tokens of the batch are dropped. *)
Theorem X11_tokenize_non_positive_seq_length
    tok (examples : batch) texts s n :
  section_entry s "model" "seq_length" = Some (VInt n) ->
  n <= 0 ->
  examples !! "text" = Some texts ->
  is_Some (assoc "input_ids" (tok_encode tok texts)) ->
  (n = 0 ->
   tokenize tok examples (VStr "concat") s = (s, inl ZeroDivisionError)) /\
  (n < 0 ->
   exists result,
     tokenize tok examples (VStr "concat") s = (s, inr result) /\
     assoc "input_ids" result = Some [] /\ assoc "labels" result = Some [] /\
     Forall (fun column => column.2 = []) result).
Proof.
  intros Hseq Hn Htext [ids Hids].
  rewrite (tokenize_concat_run tok examples texts s _ Hseq Htext).
  unfold concat_and_chunk.
  destruct (tok_encode tok texts) as [|[k0 rows0] others] eqn:Henc;
    [discriminate Hids|].
  cbn [map seq_len_int]. split.
  - intros ->. reflexivity.
  - intros Hneg. rewrite (proj2 (Z.eqb_neq n 0)) by lia.
    set (total := cut_length n (Z.of_nat (length (concat rows0)))).
    set (result := (k0, chunks n total (concat rows0))
                   :: map (fun '(k, t) => (k, chunks n total t))
                          (map (fun '(k, rows) => (k, concat rows)) others)).
    assert (Forall (fun column : string * list (list Z) => column.2 = []) result)
      as Hall.
    { subst result total. constructor.
      - apply chunks_negative; lia.
      - rewrite map_map. apply Forall_map, Forall_forall. intros [k rows] _.
        apply chunks_negative; lia. }
    assert (exists cs, assoc "input_ids" result = Some cs) as [cs Hcs].
    { assert (result = map (fun '(k, rows) => (k, chunks n total (concat rows)))
                           ((k0, rows0) :: others)) as ->.
      { subst result. cbn [map]. f_equal. rewrite map_map.
        apply map_ext. by intros []. }
      exists (chunks n total (concat ids)).
      etransitivity;
        [apply (assoc_map_columns (fun rows => chunks n total (concat rows)))|].
      by rewrite Hids. }
    assert (cs = []) as ->.
    { clear -Hall Hcs. induction Hall as [|[k v] rest Hx _ IH]; [discriminate|].
      cbn [assoc] in Hcs. destruct (String.eqb "input_ids" k).
      - injection Hcs as <-. exact Hx.
      - by apply IH. }
    rewrite Hcs. exists (assoc_set "labels" [] result).
    split; [reflexivity|]. split; [|split].
    + by rewrite assoc_set_ne.
    + apply assoc_set_eq.
    + by apply Forall_assoc_set.
Qed.

Lemma X11_witness :
  let s := <[3%positive := {[ "seq_length" := VInt (-4) ]}]> seq4_store in
  section_entry s "model" "seq_length" = Some (VInt (-4)) /\
  exists result,
    tokenize char_tokenizer {[ "text" := three_texts ]} (VStr "concat") s
    = (s, inr result) /\
    assoc "input_ids" result = Some [] /\ assoc "labels" result = Some [] /\
    Forall (fun column => column.2 = []) result.
Proof.
  intros s. split; [reflexivity|].
  refine (proj2 (X11_tokenize_non_positive_seq_length char_tokenizer
                   {[ "text" := three_texts ]} three_texts s (-4) _ _ _ _) _);
    [reflexivity | lia | reflexivity | by eexists | lia].
Defined.

Lemma chunks_lengths (t t' : list Z) (n total : Z) :
  length t = length t' ->
  map length (chunks n total t) = map length (chunks n total t').
Proof.
  intros Hlen. unfold chunks. rewrite !map_map. apply map_ext. intros i.
  unfold slice. by rewrite !length_take, !length_drop, Hlen.
Qed.

Lemma take_length_take {A} (t : list A) (m : nat) :
  take (length (take m t)) t = take m t.
Proof.
  rewrite length_take. destruct (Nat.le_gt_cases m (length t)).
  - by rewrite Nat.min_l.
  - rewrite Nat.min_r, !take_ge by lia. reflexivity.
Qed.

(** The chunks of a column are a prefix of it, in order. *)
Lemma chunks_prefix (t : list Z) (n : Z) :
  0 < n ->
  let cs := chunks n (cut_length n (Z.of_nat (length t))) t in
  concat cs = take (length (concat cs)) t.
Proof.
  intros Hn cs.
  destruct (chunks_cut_length t n Hn) as (Hge & Hlt & Hzero). fold cs in Hge, Hlt, Hzero.
  destruct (Z.le_gt_cases n (Z.of_nat (length t))) as [Hle | Hgt].
  - destruct (Hge Hle) as (_ & _ & ->). by rewrite take_length_take.
  - destruct (Z.eq_dec (Z.of_nat (length t)) 0) as [H0 | Hpos].
    + by rewrite (Hzero H0).
    + rewrite Hlt by lia. cbn [concat]. rewrite (right_id_L [] (++)).
      by rewrite take_ge.
Qed.

(** X12. The columns stay aligned.  In ['concat'] mode with a positive
    [seq_length], a column of the tokenizer's output that has as many
    tokens as ['input_ids'] (as ['attention_mask'] has) is cut at the same
    places: its chunks have the lengths of the chunks of ['input_ids'],
    one for one, and together they are the tokens of the column at the
    positions of the tokens that ['input_ids'] keeps. *)
Theorem X12_tokenize_columns_aligned
    tok (examples : batch) texts s n rows others k rows_k :
  section_entry s "model" "seq_length" = Some (VInt n) ->
  0 < n ->
  examples !! "text" = Some texts ->
  tok_encode tok texts = ("input_ids", rows) :: others ->
  assoc k others = Some rows_k -> k <> "input_ids" -> k <> "labels" ->
  length (concat rows_k) = length (concat rows) ->
  exists result cs cs_k,
    tokenize tok examples (VStr "concat") s = (s, inr result) /\
    assoc "input_ids" result = Some cs /\ assoc k result = Some cs_k /\
    map length cs_k = map length cs /\
    concat cs = take (length (concat cs)) (concat rows) /\
    concat cs_k = take (length (concat cs)) (concat rows_k).
Proof.
  intros Hseq Hn Htext Henc Hk Hk1 Hk2 Hlen.
  rewrite (tokenize_concat_run tok examples texts s _ Hseq Htext).
  unfold concat_and_chunk. rewrite Henc. cbn [map seq_len_int].
  rewrite (proj2 (Z.eqb_neq n 0)) by lia.
  set (total := cut_length n (Z.of_nat (length (concat rows)))).
  cbn [assoc String.eqb Ascii.eqb Bool.eqb].
  set (rest := map (fun '(k, t) => (k, chunks n total t))
                   (map (fun '(k, rows) => (k, concat rows)) others)).
  assert (assoc k rest = Some (chunks n total (concat rows_k))) as Hrest.
  { assert (rest = map (fun '(k, rows) => (k, chunks n total (concat rows))) others)
      as -> by (subst rest; rewrite map_map; apply map_ext; by intros []).
    etransitivity;
      [apply (assoc_map_columns (fun rows => chunks n total (concat rows)))|].
    by rewrite Hk. }
  pose proof (chunks_lengths (concat rows_k) (concat rows) n total Hlen) as Hlens.
  assert (length (concat (chunks n total (concat rows_k)))
          = length (concat (chunks n total (concat rows)))) as Hsum
    by (by rewrite !length_concat, Hlens).
  eexists _, (chunks n total (concat rows)), (chunks n total (concat rows_k)).
  split; [reflexivity|]. split; [|split; [|split; [|split]]].
  - rewrite assoc_set_ne by discriminate.
    cbn [assoc String.eqb Ascii.eqb Bool.eqb]. reflexivity.
  - rewrite assoc_set_ne by congruence. cbn [assoc].
    rewrite (proj2 (String.eqb_neq k "input_ids")) by exact Hk1. exact Hrest.
  - exact Hlens.
  - exact (chunks_prefix (concat rows) n Hn).
  - rewrite <- Hsum. subst total. rewrite <- Hlen.
    exact (chunks_prefix (concat rows_k) n Hn).
Qed.

Lemma X12_witness :
  section_entry seq4_store "model" "seq_length" = Some (VInt 4) /\
  exists result cs cs_k,
    tokenize char_tokenizer {[ "text" := three_texts ]} (VStr "concat") seq4_store
    = (seq4_store, inr result) /\
    assoc "input_ids" result = Some cs /\
    assoc "attention_mask" result = Some cs_k /\
    map length cs_k = map length cs /\
    concat cs = take (length (concat cs)) (concat (map char_codes three_texts)) /\
    concat cs_k
    = take (length (concat cs))
           (concat (map (fun t => map (fun _ => 1) (char_codes t)) three_texts)).
Proof.
  split; [reflexivity|].
  apply (X12_tokenize_columns_aligned char_tokenizer {[ "text" := three_texts ]}
           three_texts seq4_store 4 (map char_codes three_texts)
           [("attention_mask",
             map (fun t => map (fun _ => 1) (char_codes t)) three_texts)]
           "attention_mask"
           (map (fun t => map (fun _ => 1) (char_codes t)) three_texts));
    first [reflexivity | lia | discriminate].
Defined.

(** ** [build_data]: when it returns, and what it returns *)

Lemma mapM_ok {A B} (f : A -> M B) l bs s :
  Forall2 (fun a b => f a s = (s, inr b)) l bs -> mapM f l s = (s, inr bs).
Proof.
  induction 1 as [|a b l bs Hab _ IH]; [reflexivity|].
  cbn [mapM]. rewrite (bind_ok _ _ _ _ _ Hab). cbv beta.
  by rewrite (bind_ok _ _ _ _ _ IH).
Qed.

Lemma mapM_inv {A B} (f : A -> M B) l s s' bs :
  (forall a, readonly (f a)) ->
  mapM f l s = (s', inr bs) ->
  s' = s /\ Forall2 (fun a b => f a s = (s, inr b)) l bs.
Proof.
  intros Hf. revert s' bs. induction l as [|a l IH]; intros s' bs H; cbn [mapM] in H.
  - inversion H; subst. split; [reflexivity | constructor].
  - apply bind_inv in H as [(e & _ & [=])|(b & s1 & Hb & H)].
    pose proof (Hf _ _ _ _ Hb); subst s1.
    apply bind_inv in H as [(e & _ & [=])|(bs' & s1 & Hbs & H)].
    destruct (IH _ _ Hbs) as [-> Hall]. inversion H; subst.
    split; [reflexivity | by constructor].
Qed.

Lemma dataset_map_ok tok mode (d : dataset) d' s :
  Forall2 (fun split split' =>
             split'.1 = split.1 /\ tokenizes tok mode s split.2 split'.2) d d' ->
  dataset_map tok mode d s = (s, inr d').
Proof.
  intros H. unfold dataset_map. apply mapM_ok.
  eapply Forall2_impl; [exact H|].
  intros [name batches] [name' tokenized] [Hname Htok]. simpl in Hname, Htok.
  rewrite (bind_ok _ _ _ _ _ (mapM_ok _ _ _ _ Htok)). by subst.
Qed.

Lemma dataset_map_inv tok mode (d : dataset) d' s s' :
  dataset_map tok mode d s = (s', inr d') ->
  s' = s /\
  Forall2 (fun split split' =>
             split'.1 = split.1 /\ tokenizes tok mode s split.2 split'.2) d d'.
Proof.
  intros H. unfold dataset_map in H.
  apply mapM_inv in H as [-> H].
  2:{ intros [name batches]. pose proof (readonly_tokenize tok). solve_readonly. }
  split; [reflexivity|].
  eapply Forall2_impl; [exact H|].
  intros [name batches] [name' tokenized] Hsplit. cbn beta iota in Hsplit.
  apply bind_inv in Hsplit as [(e & _ & [=])|(t & s1 & Ht & Hret)].
  apply mapM_inv in Ht as [-> Ht]; [|intros b; apply readonly_tokenize].
  inversion Hret; subst. by split.
Qed.

(** A split of the tokenized dataset is the tokenized split. *)
Lemma assoc_Forall2 {A B} (R : A -> B -> Prop) (d : list (string * A)) d' k :
  Forall2 (fun x y => y.1 = x.1 /\ R x.2 y.2) d d' ->
  match assoc k d, assoc k d' with
  | Some a, Some b => R a b
  | None, None => True
  | _, _ => False
  end.
Proof.
  induction 1 as [|[k1 a] [k2 b] d d' [Hk HR] _ IH]; [exact I|].
  simpl in Hk, HR. subst k2. cbn [assoc]. by destruct (String.eqb k k1).
Qed.

Lemma Forall_exists_Forall2 {A B} (R : A -> B -> Prop) l :
  Forall (fun a => exists b, R a b) l -> exists l', Forall2 R l l'.
Proof.
  induction 1 as [|a l [b Hab] _ [l' IH]].
  - exists []. constructor.
  - exists (b :: l'). by constructor.
Qed.

Lemma entry_setitem_other (s : store) l (d : dict) k v l' k' :
  s !! l = Some d -> k' <> k ->
  entry (<[l := <[k := v]> d]> s) l' k' = entry s l' k'.
Proof.
  intros Hd Hk. rewrite entry_insert. destruct (decide (l = l')) as [<-|]; [|reflexivity].
  rewrite lookup_insert_ne by congruence. unfold entry. by rewrite Hd.
Qed.

Lemma section_entry_setitem_other (s : store) l (d : dict) k v section k' :
  s !! l = Some d -> section <> k -> k' <> k ->
  section_entry (<[l := <[k := v]> d]> s) section k' = section_entry s section k'.
Proof.
  intros Hd Hs Hk. unfold section_entry.
  rewrite (entry_setitem_other s l d k v CONFIG section Hd Hs).
  destruct (entry s CONFIG section) as [[| | | | |l']|]; try reflexivity.
  by apply entry_setitem_other.
Qed.



(** One step of a run [H] that returned: its first computation returned
    too. *)
Ltac returned H a Ha :=
  apply bind_inv in H as [(? & _ & [=])|(a & ? & Ha & H)].

Ltac returned_getitem H a Ha :=
  returned H a Ha;
  pose proof (getitem_state _ _ _ _ _ Ha); subst;
  apply getitem_ok_inv in Ha as (? & [= <-] & Ha).

Ltac returned_getitem_from H l a Ha :=
  returned H a Ha;
  pose proof (getitem_state _ _ _ _ _ Ha); subst;
  apply getitem_ok_inv in Ha as (l & -> & Ha).

Ltac returned_lift H a Ha :=
  returned H a Ha; unfold lift in Ha; injection Ha as <- Ha.

(** A run of [build_data] that returned, step by step. *)
Lemma build_data_inv load_from_disk GPT2Tokenizer get_world_size
    s s' train_data test_data :
  build_data load_from_disk GPT2Tokenizer get_world_size s
  = (s', inr (train_data, test_data)) ->
  exists path d dir tok mode bs lm dm w d',
    entry s CONFIG "dataset" = Some path /\ load_from_disk path = inr d /\
    entry s CONFIG "tokenizer" = Some (VStr dir) /\
    GPT2Tokenizer (VStr (dir ++ "/vocab.json")) (VStr (dir ++ "/merges.txt"))
    = inr tok /\
    section_entry s "hyperparameter" "tokenize_mode" = Some mode /\
    section_entry s "hyperparameter" "batch_size" = Some bs /\
    entry s CONFIG "model" = Some (VRef lm) /\ s !! lm = Some dm /\
    get_world_size = inr w /\
    Forall2 (fun split split' =>
               split'.1 = split.1 /\ tokenizes tok mode s split.2 split'.2) d d' /\
    assoc "train" d' = Some (loader_dataset train_data) /\
    assoc "validation" d' = Some (loader_dataset test_data) /\
    s' = <[lm := <["vocab_size" := VInt (tok_len tok)]> dm]> s /\
    train_data
    = {| loader_dataset := loader_dataset train_data;
         loader_shuffle := negb (1 <? w)%Z;
         loader_sampler :=
           if (1 <? w)%Z then Some (DistributedSampler true) else None;
         loader_drop_last := true;
         loader_batch_size := bs |} /\
    test_data
    = {| loader_dataset := loader_dataset test_data;
         loader_shuffle := false;
         loader_sampler :=
           if (1 <? w)%Z then Some (DistributedSampler false) else None;
         loader_drop_last := false;
         loader_batch_size := bs |}.
Proof.
  intros H. unfold build_data in H.
  returned_getitem H path Hpath.
  returned_lift H d Hload.
  returned_getitem H dir1 Hdir1.
  returned_lift H vocab Hvocab.
  returned_getitem H dir2 Hdir2.
  returned_lift H merges Hmerges.
  returned_lift H tok Htok.
  returned_getitem H hyper Hhyper.
  returned_getitem_from H lh mode Hmode.
  returned H d' Hd'. apply dataset_map_inv in Hd' as [-> Hd'].
  returned_getitem H model Hmodel.
  unfold bind at 1, setitem at 1 in H.
  destruct model as [| | | | |lm]; try discriminate H.
  destruct (s !! lm) as [dm|] eqn:Hdm; [|discriminate H].
  set (s2 := <[lm := <["vocab_size" := VInt (tok_len tok)]> dm]> s) in *.
  returned_lift H w Hw.
  returned H train Htrain.
  unfold split_getitem in Htrain.
  destruct (assoc "train" d') as [train'|] eqn:Etrain; [|discriminate Htrain].
  injection Htrain as <- <-.
  returned_getitem H hyper1 Hhyper1.
  returned_getitem_from H lh1 bs Hbs.
  returned H validation Hval.
  unfold split_getitem in Hval.
  destruct (assoc "validation" d') as [validation'|] eqn:Eval; [|discriminate Hval].
  injection Hval as <- <-.
  returned_getitem H hyper2 Hhyper2.
  returned_getitem_from H lh2 bs2 Hbs2.
  injection H as <- <- <-.
  rewrite Hdir1 in Hdir2. injection Hdir2 as <-.
  destruct dir1 as [| | | |dir|]; try discriminate Hvocab.
  injection Hvocab as <-. injection Hmerges as <-.
  rewrite Hhyper1 in Hhyper2. injection Hhyper2 as <-.
  rewrite Hbs in Hbs2. injection Hbs2 as <-.
  assert (section_entry s "hyperparameter" "batch_size" = Some bs) as Hbs'.
  { rewrite <- (section_entry_setitem_other s lm dm "vocab_size"
                  (VInt (tok_len tok)) "hyperparameter" "batch_size" Hdm)
      by discriminate.
    fold s2. by rewrite (section_entry_at _ _ lh1 _ Hhyper1). }
  exists path, d, dir, tok, mode, bs, lm, dm, w, d'.
  repeat split; try assumption; try reflexivity.
  - by rewrite (section_entry_at _ _ lh _ Hhyper).
  - cbn [loader_dataset]. by destruct (1 <? w)%Z.
Qed.

Lemma example_build_data_run :
  let s := (gpt2_builder example_environ example_store).1 in
  exists train_data test_data,
    example_build_data s = ((example_build_data s).1, inr (train_data, test_data)).
Proof.
  intros s.
  assert (exists loaders, (example_build_data s).2 = inr loaders) as [[tr te] Hl]
    by (vm_compute; eauto).
  exists tr, te. rewrite <- Hl. apply surjective_pairing.
Qed.

(** X14. What the loaders hold.  When [build_data] returns, the dataset
    loaded from [CONFIG['dataset']] has a ['train'] and a ['validation']
    split; the training loader holds what [tokenize] returned for the
    batches of ['train'], in order, and the test loader the same for
    ['validation'].  [tokenize] ran in the mode
    [CONFIG['hyperparameter']['tokenize_mode']] with the tokenizer built
    from [CONFIG['tokenizer']], on the store as it was before line 103,
    and it returned for every batch of every split of the dataset, the
    splits that no loader uses included. *)
Theorem X14_build_data_loaders_hold_tokenized_splits
    load_from_disk GPT2Tokenizer get_world_size s s' train_data test_data :
  build_data load_from_disk GPT2Tokenizer get_world_size s
  = (s', inr (train_data, test_data)) ->
  exists path d dir tok mode train_batches validation_batches,
    entry s CONFIG "dataset" = Some path /\ load_from_disk path = inr d /\
    entry s CONFIG "tokenizer" = Some (VStr dir) /\
    GPT2Tokenizer (VStr (dir ++ "/vocab.json")) (VStr (dir ++ "/merges.txt"))
    = inr tok /\
    section_entry s "hyperparameter" "tokenize_mode" = Some mode /\
    assoc "train" d = Some train_batches /\
    assoc "validation" d = Some validation_batches /\
    tokenizes tok mode s train_batches (loader_dataset train_data) /\
    tokenizes tok mode s validation_batches (loader_dataset test_data) /\
    Forall (fun split =>
              Forall (fun examples =>
                        exists result,
                          tokenize tok examples mode s = (s, inr result))
                     split.2) d.
Proof.
  intros H.
  destruct (build_data_inv _ _ _ _ _ _ _ H)
    as (path & d & dir & tok & mode & bs & lm & dm & w & d' & Hpath & Hload & Hdir
        & Htok & Hmode & _ & _ & _ & _ & Hd' & Htrain & Hval & _).
  pose proof (assoc_Forall2 _ _ _ "train" Hd') as Rt. rewrite Htrain in Rt.
  pose proof (assoc_Forall2 _ _ _ "validation" Hd') as Rv. rewrite Hval in Rv.
  destruct (assoc "train" d) as [train_batches|] eqn:Et; [|destruct Rt].
  destruct (assoc "validation" d) as [validation_batches|] eqn:Ev; [|destruct Rv].
  exists path, d, dir, tok, mode, train_batches, validation_batches.
  repeat (split; [assumption|]).
  clear -Hd'. induction Hd' as [|split split' d d' [_ Hsplit] _ IH]; constructor.
  - clear -Hsplit. induction Hsplit; constructor; eauto.
  - exact IH.
Qed.

Lemma X14_witness :
  let s := (gpt2_builder example_environ example_store).1 in
  exists train_data test_data,
    example_build_data s = ((example_build_data s).1, inr (train_data, test_data)) /\
    tokenizes char_tokenizer (VStr "concat") s [ {[ "text" := three_texts ]} ]
              (loader_dataset train_data) /\
    tokenizes char_tokenizer (VStr "concat") s [ {[ "text" := ["abcd"] ]} ]
              (loader_dataset test_data).
Proof.
  intros s. destruct example_build_data_run as (train_data & test_data & H).
  fold s in H. exists train_data, test_data. split; [exact H|].
  destruct (X14_build_data_loaders_hold_tokenized_splits _ _ _ _ _ _ _ H)
    as (path & d & dir & tok & mode & tb & vb & _ & Hload & _ & Htok & Hmode
        & Htb & Hvb & Ht & Hv & _).
  injection Hload as <-. injection Htok as <-.
  assert (mode = VStr "concat") as -> by (cut (Some mode = Some (VStr "concat"));
    [congruence | by rewrite <- Hmode]).
  injection Htb as <-. injection Hvb as <-. by split.
Defined.

(** X15. The settings of the loaders.  Whenever [build_data] returns: the
    training loader drops the last incomplete batch and the test loader
    does not; the test loader never shuffles; both get the batch size
    [CONFIG['hyperparameter']['batch_size']]; with more than one process
    both get a [DistributedSampler], shuffling for training and not for
    testing, and the training loader itself does not shuffle; with one
    process (or fewer) neither gets a sampler and the training loader
    shuffles. *)
Theorem X15_build_data_loader_settings
    load_from_disk GPT2Tokenizer get_world_size s s' train_data test_data :
  build_data load_from_disk GPT2Tokenizer get_world_size s
  = (s', inr (train_data, test_data)) ->
  loader_drop_last train_data = true /\ loader_drop_last test_data = false /\
  loader_shuffle test_data = false /\
  section_entry s "hyperparameter" "batch_size"
  = Some (loader_batch_size train_data) /\
  loader_batch_size test_data = loader_batch_size train_data /\
  exists w,
    get_world_size = inr w /\
    (1 < w ->
     loader_sampler train_data = Some (DistributedSampler true) /\
     loader_sampler test_data = Some (DistributedSampler false) /\
     loader_shuffle train_data = false) /\
    (w <= 1 ->
     loader_sampler train_data = None /\ loader_sampler test_data = None /\
     loader_shuffle train_data = true).
Proof.
  intros H.
  destruct (build_data_inv _ _ _ _ _ _ _ H)
    as (path & d & dir & tok & mode & bs & lm & dm & w & d' & _ & _ & _ & _ & _
        & Hbs & _ & _ & Hw & _ & _ & _ & _ & -> & ->).
  cbn [loader_drop_last loader_shuffle loader_batch_size loader_sampler].
  repeat (split; [first [reflexivity | assumption]|]).
  exists w. split; [exact Hw|]. split; intros Hcmp.
  - by rewrite (proj2 (Z.ltb_lt 1 w)) by exact Hcmp.
  - by rewrite (proj2 (Z.ltb_ge 1 w)) by exact Hcmp.
Qed.

Lemma X15_witness :
  let s := (gpt2_builder example_environ example_store).1 in
  exists train_data test_data,
    example_build_data s = ((example_build_data s).1, inr (train_data, test_data)) /\
    loader_drop_last train_data = true /\ loader_sampler train_data = None /\
    loader_shuffle train_data = true /\ loader_batch_size test_data = VInt 4.
Proof.
  intros s. destruct example_build_data_run as (train_data & test_data & H).
  fold s in H. exists train_data, test_data. split; [exact H|].
  destruct (X15_build_data_loader_settings _ _ _ _ _ _ _ H)
    as (Hdrop & _ & _ & Hbs & Hbs' & w & Hw & _ & Hone).
  injection Hw as <-. destruct (Hone ltac:(lia)) as (Hs & _ & Hsh).
  repeat (split; [assumption|]).
  rewrite Hbs'. cut (Some (loader_batch_size train_data) = Some (VInt 4));
    [congruence | by rewrite <- Hbs].
Defined.



(** ** [GPTLMLoss.forward]: which logit meets which label *)

Lemma lookup_concat_uniform {A} (l : list (list A)) (m b i : nat) row :
  Forall (fun r => length r = m) l -> l !! b = Some row -> (i < m)%nat ->
  concat l !! (b * m + i)%nat = row !! i.
Proof.
  intros Hall. revert b. induction Hall as [|r rest Hr _ IH]; intros b Hb Hi.
  - discriminate Hb.
  - destruct b as [|b]; cbn [concat].
    + injection Hb as ->. rewrite lookup_app_l by lia. reflexivity.
    + rewrite lookup_app_r by lia.
      replace (S b * m + i - length r)%nat with (b * m + i)%nat by lia.
      by apply IH.
Qed.

Lemma length_concat_uniform {A} (l : list (list A)) (m : nat) :
  Forall (fun r => length r = m) l -> length (concat l) = (length l * m)%nat.
Proof.
  induction 1 as [|r rest Hr _ IH]; [reflexivity|].
  cbn [concat length]. rewrite length_app, IH, Hr. lia.
Qed.

(** X17. Next-token alignment of the loss.  For logits and labels of [B]
    sequences of [n] positions each, [GPTLMLoss.forward] hands
    [CrossEntropyLoss] [B * (n - 1)] rows and as many targets, and row
    [b * (n - 1) + i] pairs the logits of position [i] of sequence [b]
    with the label of position [i + 1] of the same sequence: the last
    logits and the first label of every sequence are left out, and no
    pair spans two sequences. *)
Theorem X17_GPTLMLoss_pairs_logit_with_next_label
    {logit : Type} (logits : list (list logit)) (labels : list (list Z))
    (n b i : nat) row label_row :
  Forall (fun r => length r = n) logits ->
  Forall (fun r => length r = n) labels ->
  length logits = length labels ->
  logits !! b = Some row -> labels !! b = Some label_row ->
  (i + 1 < n)%nat ->
  let call := GPTLMLoss_forward logits labels in
  length (ce_input call) = (length logits * (n - 1))%nat /\
  length (ce_target call) = (length logits * (n - 1))%nat /\
  ce_input call !! (b * (n - 1) + i)%nat = row !! i /\
  ce_target call !! (b * (n - 1) + i)%nat = label_row !! (i + 1)%nat /\
  is_Some (row !! i) /\ is_Some (label_row !! (i + 1)%nat).
Proof.
  intros Hlogits Hlabels Hlen Hrow Hlabel Hi call.
  assert (Forall (fun r => length r = (n - 1)%nat)
                 (map (fun row => take (length row - 1) row) logits)) as Hsl.
  { apply Forall_map. eapply Forall_impl; [exact Hlogits|].
    intros r Hr. simpl in Hr |- *. rewrite length_take. lia. }
  assert (Forall (fun r => length r = (n - 1)%nat) (map (drop 1) labels)) as Hsb.
  { apply Forall_map. eapply Forall_impl; [exact Hlabels|].
    intros r Hr. simpl in Hr |- *. rewrite length_drop. lia. }
  assert (length row = n) as Hrn
    by (eapply (proj1 (Forall_lookup _ _) Hlogits); exact Hrow).
  assert (length label_row = n) as Hln
    by (eapply (proj1 (Forall_lookup _ _) Hlabels); exact Hlabel).
  subst call. unfold GPTLMLoss_forward. cbn [ce_input ce_target].
  split; [|split; [|split; [|split; [|split]]]].
  - by rewrite (length_concat_uniform _ _ Hsl), length_map.
  - by rewrite (length_concat_uniform _ _ Hsb), length_map, Hlen.
  - rewrite (lookup_concat_uniform _ (n - 1) b i (take (length row - 1) row) Hsl);
      [| by rewrite list_lookup_fmap, Hrow | lia].
    apply lookup_take_lt. lia.
  - rewrite (lookup_concat_uniform _ (n - 1) b i (drop 1 label_row) Hsb);
      [| by rewrite list_lookup_fmap, Hlabel | lia].
    rewrite lookup_drop. f_equal. lia.
  - apply lookup_lt_is_Some. lia.
  - apply lookup_lt_is_Some. lia.
Qed.

Lemma X17_witness :
  let call :=
    GPTLMLoss_forward [["a0"; "a1"; "a2"]; ["b0"; "b1"; "b2"]]
                      [[10; 11; 12]; [20; 21; 22]] in
  length (ce_input call) = 4%nat /\ length (ce_target call) = 4%nat /\
  ce_input call !! 3%nat = Some "b1" /\ ce_target call !! 3%nat = Some 22.
Proof.
  intros call.
  destruct (X17_GPTLMLoss_pairs_logit_with_next_label
              [["a0"; "a1"; "a2"]; ["b0"; "b1"; "b2"]]
              [[10; 11; 12]; [20; 21; 22]] 3 1 1 ["b0"; "b1"; "b2"] [20; 21; 22])
    as (Hin & Htg & Hi & Ht & _);
    [repeat constructor | repeat constructor | reflexivity | reflexivity
    | reflexivity | lia |].
  repeat split; assumption.
Defined.

(** ** The merge loops and a later call of [gpt2_builder] *)

(** X18. The order of the items is irrelevant to the loop
    [for k, v in items: if k not in CONFIG[section]: CONFIG[section][k] = v]
    of lines 188-190 and 193-195: run over the same items (with distinct
    keys) in another order it leaves the same store and ends the same
    way, with the same exception if it raises. *)
Theorem X18_merge_order_irrelevant section items items' s :
  NoDup items.*1 -> items ≡ₚ items' ->
  merge_absent section items s = merge_absent section items' s.
Proof. apply merge_absent_Permutation. Qed.

Lemma X18_witness :
  merge_absent "model" _gpt2_xl example_store
  = merge_absent "model" (reverse _gpt2_xl) example_store.
Proof.
  apply X18_merge_order_irrelevant.
  - apply (bool_decide_unpack _). by vm_compute.
  - symmetry. apply reverse_Permutation.
Defined.

(** After a call on a plain configuration both merges run through again
    and change nothing. *)
Lemma merges_again environ s :
  plain_config s ->
  exists s2 c2,
    (gpt2_builder environ s).1 = (read_environment environ s2).1 /\
    (forall environ',
       (gpt2_builder environ' s).1 = (read_environment environ' s2).1 /\
       (gpt2_builder environ' s).2
       = match (read_environment environ' s2).2 with
         | inl e => inl e
         | inr _ => inr builders
         end) /\
    s2 !! CONFIG = Some c2 /\
    merge_preset (gpt2_builder environ s).1
    = ((gpt2_builder environ s).1, inr tt) /\
    merge_hyperparameters (gpt2_builder environ s).1
    = ((gpt2_builder environ s).1, inr tt).
Proof.
  intros Hplain.
  destruct (merges_plain s Hplain)
    as (s1 & s2 & H1 & H2 & Hdef & _ & HD & [c2 Hc2] & _).
  exists s2, c2.
  destruct (gpt2_builder_after_merges environ s s1 s2 H1 H2) as [-> _].
  split; [reflexivity|].
  split; [intros environ'; exact (gpt2_builder_after_merges environ' s s1 s2 H1 H2)|].
  split; [exact Hc2|].
  destruct (read_environment environ s2) as [s3 r3] eqn:H3. cbn [fst].
  pose proof (evolving_merge_hyperparameters _ _ _ H2) as He2.
  pose proof (evolving_read_environment _ _ _ _ H3) as He3.
  pose proof (read_environment_defaults _ _ _ _ H3) as HD3.
  split.
  - eapply stable_merge_preset;
      [exact H1 | exact (evolves_trans _ _ _ He2 He3) | left; eauto].
  - destruct (merge_hyperparameters_completed s1 s2 s3 H2 He3 HD3) as [r Hr].
    pose proof (Hdef "num_epochs" _ ltac:(apply list_elem_of_In; simpl; tauto))
      as (lh & dh & Hh & Hdh & _)%section_entry_Some.
    assert (entry s3 CONFIG "hyperparameter" = Some (VRef lh)) as Hh3
      by (eapply evolves_keeps; [exact He3 | apply not_env_hyperparameter | exact Hh]).
    assert (is_Some (s3 !! lh)) as [dh3 Hdh3]
      by (destruct He3 as [Ha _]; apply Ha; eauto).
    rewrite <- HD3 in HD.
    rewrite (merge_hyperparameters_dict s3 lh dh3 _ Hh3 Hdh3 HD) in Hr.
    rewrite (merge_hyperparameters_dict s3 lh dh3 _ Hh3 Hdh3 HD).
    apply (f_equal fst) in Hr. cbn [fst] in Hr. by rewrite Hr.
Qed.

(** X19. The last call wins.  On a plain configuration, a call of
    [gpt2_builder] that follows an earlier call, made with any
    environment and whether that one returned or raised, ends exactly as
    if the earlier call had not been made, provided DATA and TOKENIZER
    are set for it: same store, same result. *)
Theorem X19_gpt2_builder_last_call_wins environ environ' s :
  plain_config s ->
  is_Some (environ' !! "DATA") -> is_Some (environ' !! "TOKENIZER") ->
  gpt2_builder environ' (gpt2_builder environ s).1 = gpt2_builder environ' s.
Proof.
  intros Hplain [data' Hdata'] [tok' Htok'].
  destruct (merges_again environ s Hplain) as (s2 & c2 & E1 & E2 & Hc2 & M1 & M2).
  destruct (E2 environ') as [Es Er].
  rewrite (surjective_pairing (gpt2_builder environ' s)), Es, Er.
  revert M1 M2. rewrite E1. clear E1 E2 Es Er.
  set (s3 := (read_environment environ s2).1). intros M1 M2.
  unfold gpt2_builder.
  rewrite (bind_ok _ _ _ _ _ M1). cbv beta.
  rewrite (bind_ok _ _ _ _ _ M2). cbv beta.
  assert (read_environment environ' s3 = read_environment environ' s2) as E.
  { subst s3. rewrite !(read_environment_run environ'), Hdata', Htok', Hc2.
    rewrite (read_environment_run environ), Hc2.
    destruct (environ !! "DATA") as [data|]; cbn [fst]; [|by rewrite Hc2].
    destruct (environ !! "TOKENIZER") as [tok|]; cbn [fst];
      rewrite lookup_insert_eq, insert_insert_eq; do 2 f_equal.
    - rewrite (insert_insert_ne _ "dataset" "tokenizer") by discriminate.
      by rewrite !insert_insert_eq.
    - by rewrite insert_insert_eq. }
  unfold bind, ret. rewrite E.
  rewrite (read_environment_run environ'), Hdata', Htok', Hc2. reflexivity.
Qed.

Lemma X19_witness :
  plain_config example_store /\
  gpt2_builder example_environ
    (gpt2_builder environ_without_tokenizer example_store).1
  = gpt2_builder example_environ example_store.
Proof.
  split; [exact plain_example_store|].
  apply X19_gpt2_builder_last_call_wins;
    [exact plain_example_store | by eexists | by eexists].
Defined.

(** ** [build_data] with a tokenize mode that [tokenize] refuses *)

Lemma mapM_all_raise {A B} (f : A -> M B) l s e :
  (forall a, f a s = (s, inl e)) -> l <> [] -> mapM f l s = (s, inl e).
Proof.
  intros Hf Hl. destruct l as [|a rest]; [done|].
  cbn [mapM]. by rewrite (bind_err _ _ _ _ _ (Hf a)).
Qed.

Lemma dataset_map_all_raise tok mode (d : dataset) s e :
  (forall examples, tokenize tok examples mode s = (s, inl e)) ->
  Exists (fun split => split.2 <> []) d ->
  dataset_map tok mode d s = (s, inl e).
Proof.
  intros Hf. unfold dataset_map.
  induction d as [|[name batches] rest IH]; intros Hex.
  - by apply Exists_nil in Hex.
  - cbn [mapM]. destruct batches as [|examples batches].
    + rewrite (bind_ok _ _ s s (name, [])) by reflexivity. cbv beta.
      apply bind_err, IH.
      apply Exists_cons in Hex as [Hex|Hex]; [by destruct Hex | exact Hex].
    + apply bind_err. apply bind_err. by apply mapM_all_raise.
Qed.

(** X20. A tokenize mode that is neither ['concat'] nor ['pad'].  The mode
    is checked by the [assert] of [tokenize] only: with the paths in
    [CONFIG], the dataset and the tokenizer loaded, and at least one batch
    in the dataset, [build_data] raises [AssertionError], and it does so
    before line 103, so that no dictionary has changed. *)
Theorem X20_build_data_unknown_tokenize_mode
    load_from_disk GPT2Tokenizer get_world_size s path (d : dataset) dir tok mode :
  entry s CONFIG "dataset" = Some path ->
  load_from_disk path = inr d ->
  entry s CONFIG "tokenizer" = Some (VStr dir) ->
  GPT2Tokenizer (VStr (dir ++ "/vocab.json")) (VStr (dir ++ "/merges.txt"))
  = inr tok ->
  section_entry s "hyperparameter" "tokenize_mode" = Some mode ->
  mode <> VStr "concat" -> mode <> VStr "pad" ->
  Exists (fun split => split.2 <> []) d ->
  build_data load_from_disk GPT2Tokenizer get_world_size s
  = (s, inl AssertionError).
Proof.
  intros Hpath Hload Hdir Htok Hmode Hc Hp Hex.
  destruct (getitem_section _ _ _ _ Hmode) as (hyper & Gh & Gmode).
  assert (forall examples, tokenize tok examples mode s = (s, inl AssertionError))
    as Hassert.
  { intros examples. unfold tokenize. apply bind_err.
    destruct mode as [| | | |m|]; try reflexivity.
    destruct (String.eqb_spec m "concat") as [->|Hm1]; [congruence|].
    destruct (String.eqb_spec m "pad") as [->|Hm2]; [congruence|].
    clear -Hm1 Hm2.
    repeat (destruct m as [|[[] [] [] [] [] [] [] []] m]; try reflexivity;
            try congruence). }
  unfold build_data.
  rewrite (bind_ok _ _ _ _ _ (getitem_entry _ _ _ _ Hpath)). cbv beta.
  unfold bind at 1, lift at 1. rewrite Hload.
  rewrite (bind_ok _ _ _ _ _ (getitem_entry _ _ _ _ Hdir)). cbv beta.
  unfold bind at 1, lift at 1, py_add_str at 1.
  rewrite (bind_ok _ _ _ _ _ (getitem_entry _ _ _ _ Hdir)). cbv beta.
  unfold bind at 1, lift at 1, py_add_str at 1.
  unfold bind at 1, lift at 1. rewrite Htok.
  rewrite (bind_ok _ _ _ _ _ Gh). cbv beta.
  rewrite (bind_ok _ _ _ _ _ Gmode). cbv beta.
  apply bind_err. by apply dataset_map_all_raise.
Qed.

Lemma X20_witness :
  let s := <[DEFAULTS := <["tokenize_mode" := VStr "truncate"]>
                           (list_to_map _default_hyperparameters)]>
             (gpt2_builder example_environ example_store).1 in
  section_entry s "hyperparameter" "tokenize_mode" = Some (VStr "truncate") /\
  example_build_data s = (s, inl AssertionError).
Proof.
  intros s. split; [reflexivity|].
  apply (X20_build_data_unknown_tokenize_mode example_load_from_disk
           example_GPT2Tokenizer (inr 1) s (VStr "/data/wiki")
           [ ("train", [ {[ "text" := three_texts ]} ]);
             ("validation", [ {[ "text" := ["abcd"] ]} ]) ]
           "/data/tokenizer" char_tokenizer (VStr "truncate"));
    try reflexivity; try discriminate.
  apply Exists_cons_hd. discriminate.
Defined.

(** ** More on errors: [tokenize], [build_data] and [gpt2_builder] *)

(** X21. Whenever [tokenize] returns, in either mode and for any
    tokenizer, the result has the column ['input_ids'] and its column
    ['labels'] is equal to it; the mode was ['concat'] or ['pad'], and
    [CONFIG['model']['seq_length']] was there. *)
Theorem X21_tokenize_labels_are_input_ids tok examples mode s s' result :
  tokenize tok examples mode s = (s', inr result) ->
  (mode = VStr "concat" \/ mode = VStr "pad") /\
  is_Some (section_entry s "model" "seq_length") /\
  exists input_ids,
    assoc "input_ids" result = Some input_ids /\
    assoc "labels" result = Some input_ids.
Proof.
  intros H. unfold tokenize in H.
  returned H checked Hmode.
  assert (mode = VStr "concat" \/ mode = VStr "pad") as Hm.
  { destruct mode as [| | | |m|]; try discriminate Hmode.
    destruct (String.eqb_spec m "concat") as [->|Hm1]; [by left|].
    destruct (String.eqb_spec m "pad") as [->|Hm2]; [by right|].
    exfalso. clear -Hmode Hm1 Hm2.
    repeat (destruct m as [|[[] [] [] [] [] [] [] []] m]; try discriminate Hmode;
            try congruence). }
  assert (x = s) as ->.
  { destruct Hm as [-> | ->]; by injection Hmode as <-. }
  clear Hmode.
  returned_getitem H model Hmodel.
  returned_getitem_from H lm seq_len Hseq.
  returned H encoded Henc.
  split; [exact Hm|]. split.
  { rewrite (section_entry_at _ _ lm _ Hmodel). eauto. }
  destruct (assoc "input_ids" encoded) as [input_ids|] eqn:Hids; [|discriminate H].
  injection H as _ <-. exists input_ids.
  split; [by rewrite assoc_set_ne | apply assoc_set_eq].
Qed.

Lemma X21_witness :
  exists result input_ids,
    tokenize char_tokenizer {[ "text" := three_texts ]} (VStr "concat") seq4_store
    = (seq4_store, inr result) /\
    assoc "input_ids" result = Some input_ids /\
    assoc "labels" result = Some input_ids.
Proof.
  assert (exists result,
            tokenize char_tokenizer {[ "text" := three_texts ]} (VStr "concat")
                     seq4_store = (seq4_store, inr result)) as [result H]
    by (eexists; reflexivity).
  destruct (X21_tokenize_labels_are_input_ids _ _ _ _ _ _ H)
    as (_ & _ & input_ids & Hids & Hlabels).
  by exists result, input_ids.
Defined.



(** X23. [gpt2_builder] needs [CONFIG['model']['type']].  Without a
    ['model'] key in [CONFIG], or without a ['type'] key in the
    dictionary under it, the call raises [KeyError] for that key at line
    186 and changes nothing: neither the default hyper-parameters nor the
    paths of the environment are stored, whatever the environment is. *)
Theorem X23_gpt2_builder_needs_model_type environ s c :
  s !! CONFIG = Some c ->
  (c !! "model" = None ->
   gpt2_builder environ s = (s, inl (KeyError "model"))) /\
  (forall lm dm,
     c !! "model" = Some (VRef lm) -> s !! lm = Some dm -> dm !! "type" = None ->
     gpt2_builder environ s = (s, inl (KeyError "type"))).
Proof.
  intros Hc. split.
  - intros Hm. unfold gpt2_builder, merge_preset. do 2 apply bind_err.
    unfold getitem. by rewrite Hc, Hm.
  - intros lm dm Hm Hd Ht. unfold gpt2_builder, merge_preset. apply bind_err.
    assert (entry s CONFIG "model" = Some (VRef lm)) as Hm'
      by (unfold entry; by rewrite Hc).
    rewrite (bind_ok _ _ _ _ _ (getitem_entry _ _ _ _ Hm')). cbv beta.
    apply bind_err. unfold getitem. by rewrite Hd, Ht.
Qed.

Lemma X23_witness :
  gpt2_builder example_environ (initial_store ∅ ∅)
  = (initial_store ∅ ∅, inl (KeyError "model")).
Proof.
  assert (initial_store ∅ ∅ !! CONFIG = Some ∅) as Hc by reflexivity.
  by apply (proj1 (X23_gpt2_builder_needs_model_type example_environ
                     (initial_store ∅ ∅) ∅ Hc)).
Defined.
